(** * AIBL clinical-data reconciliation: participants, sessions and scans tables

    A shallow embedding of [clinica/converters/aibl_to_bids/utils/clinical.py].
    Python exceptions are an error type, the clinical files that are read, the
    warnings that are logged and the BIDS tree that is written form an explicit
    world threaded through a state-and-error monad, Python dictionaries are
    insertion-ordered association lists and the BIDS tree is a finite map from
    directory paths to their ordered listings. *)

From stdpp Require Import gmap strings list fin_maps pretty.
From Stdlib Require Import ZArith Ascii Sorted.

Local Open Scope Z_scope.

(** ** Exceptions and the error monad *)

Inductive exn :=
  | ValueError
  | KeyError
  | IndexError
  | TypeError
  | AttributeError
  | FileNotFoundError
  | ParserError
  | InvalidIndexError
  | OSError
  | NameError.

Inductive result (A : Type) :=
  | Ok (a : A)
  | Raise (e : exn).
Arguments Ok {A} a.
Arguments Raise {A} e.

Definition bindR {A B} (m : result A) (f : A → result B) : result B :=
  match m with
  | Ok a => f a
  | Raise e => Raise e
  end.

Notation "x <- c ;; k" := (bindR c (fun x => k))
  (at level 20, c at level 99, k at level 200, only parsing).
Notation "' pat <- c ;; k" := (bindR c (fun x => match x with pat => k end))
  (at level 20, pat pattern, c at level 99, k at level 200, only parsing).

Definition is_ok {A} (r : result A) : bool :=
  match r with Ok _ => true | Raise _ => false end.

(** [for x in xs: f x], stopping at the first exception. *)
Fixpoint mapR {A B} (f : A → result B) (xs : list A) : result (list B) :=
  match xs with
  | [] => Ok []
  | x :: xs' => y <- f x ;; ys <- mapR f xs' ;; Ok (y :: ys)
  end.

(** ** Cell values *)

(** What a cell of a parsed table holds: an integer, a string, or the float
    not-a-number that the reader puts in empty cells.  A float with an integral
    value compares equal to the integer in Python and is represented by it. *)
Inductive value :=
  | VInt (z : Z)
  | VStr (s : string)
  | VNaN.

(** A cell of a table being built: [None] is Python's [None]. *)
Definition cell := option value.

(** Python [==] on cell values; not-a-number equals nothing. *)
Definition value_eqb (a b : value) : bool :=
  match a, b with
  | VInt x, VInt y => Z.eqb x y
  | VStr x, VStr y => String.eqb x y
  | _, _ => false
  end.

(** pandas [isna]. *)
Definition isna (c : cell) : bool :=
  match c with
  | None | Some VNaN => true
  | Some _ => false
  end.

(** Python truthiness of a cell, as in [if birth_date and exam_date]. *)
Definition truthy (c : cell) : bool :=
  match c with
  | None => false
  | Some (VInt z) => negb (Z.eqb z 0)
  | Some (VStr s) => negb (String.eqb s "")
  | Some VNaN => true
  end.

Definition NA : string := "n/a".

(** ** Insertion-ordered dictionaries *)

Abbreviation odict V := (list (string * V)).

Fixpoint oget {V} (k : string) (d : odict V) : option V :=
  match d with
  | [] => None
  | (k', v) :: d' => if String.eqb k k' then Some v else oget k d'
  end.

(** [d[k] = v]: replaces in place, or appends a new key at the end. *)
Fixpoint oset {V} (k : string) (v : V) (d : odict V) : odict V :=
  match d with
  | [] => [(k, v)]
  | (k', v') :: d' =>
      if String.eqb k k' then (k', v) :: d' else (k', v') :: oset k v d'
  end.

(** [del d[k]]. *)
Definition odel {V} (k : string) (d : odict V) : odict V :=
  List.filter (fun kv => negb (String.eqb kv.1 k)) d.

Definition okeys {V} (d : odict V) : list string := map fst d.

(** The same keys in the same order, every value through [f]. *)
Definition omap_values {V W} (f : V → W) (d : odict V) : odict W :=
  map (fun kv => (kv.1, f kv.2)) d.

(** [d[k]], raising [KeyError] on a missing key. *)
Definition oitem {V} (k : string) (d : odict V) : result V :=
  match oget k d with
  | Some v => Ok v
  | None => Raise KeyError
  end.

(** ** Strings *)

Definition is_digit (a : ascii) : bool :=
  let n := nat_of_ascii a in (48 <=? n)%nat && (n <=? 57)%nat.

Definition digit_val (a : ascii) : Z := Z.of_nat (nat_of_ascii a) - 48.

Definition string_of_chars (l : list ascii) : string := String.string_of_list_ascii l.
Definition chars (s : string) : list ascii := String.list_ascii_of_string s.

(** Python [needle in haystack] on strings. *)
Fixpoint contains (needle haystack : string) : bool :=
  String.prefix needle haystack ||
  match haystack with
  | EmptyString => false
  | String _ rest => contains needle rest
  end.

(** ** Reading comma-separated files *)

(** A tokenised file: the header and the data lines, each split on the
    separator. *)
Record raw_csv := {
  header : list string;
  lines : list (list string);
}.

(** A parsed table, column by column, all columns of one length. *)
Definition frame := odict (list value).

Inductive bad_line_policy :=
  | on_bad_error
  | on_bad_callable (f : list string → result (option (list string))).

(** Fix for the malformed flutemeta file: [line[-3]], [line[-2]], [line[:-3]]
    and [line[-1]] with Python's negative indices; the function falls off its
    end, returning [None], on every other line. *)
Definition neg_index {A} (l : list A) (k : nat) : result A :=
  if (length l <? k)%nat then Raise IndexError
  else match l !! (length l - k)%nat with
       | Some x => Ok x
       | None => Raise IndexError
       end.

Definition _handle_flutemeta_badline (line : list string)
  : result (option (list string)) :=
  a <- neg_index line 3 ;;
  if String.eqb a "measured" then
    b <- neg_index line 2 ;;
    if String.eqb b "AUSTIN AC CT Brain  H19s" then
      c <- neg_index line 1 ;;
      Ok (Some (take (length line - 3)%nat line ++ ["-4"; c]))
    else Ok None
  else Ok None.

(** pandas' python engine on lines with more fields than the header: with
    [on_bad_lines="error"] the parse raises; with a callable the line is
    replaced by what the callable returns, and ignored when that is [None]. *)
Fixpoint rows_to_cols (policy : bad_line_policy) (col_len : nat)
    (content : list (list string)) : result (list (list string)) :=
  match content with
  | [] => Ok []
  | l :: rest =>
      if (col_len <? length l)%nat then
        match policy with
        | on_bad_error => Raise ParserError
        | on_bad_callable f =>
            new_l <- f l ;;
            rest' <- rows_to_cols policy col_len rest ;;
            Ok (match new_l with Some l' => l' :: rest' | None => rest' end)
        end
      else
        rest' <- rows_to_cols policy col_len rest ;;
        Ok (l :: rest')
  end.

(** Short lines are padded with missing fields, extra fields of a line that a
    callable returned are dropped. *)
Definition pad_line (col_len : nat) (l : list string) : list (option string) :=
  (Some <$> take col_len l) ++ replicate (col_len - length l)%nat None.

(** ** Diagnosis *)

Definition _map_diagnosis (diagnosis : cell) : string :=
  match diagnosis with
  | Some (VInt 1) => "CN"
  | Some (VInt 2) => "MCI"
  | Some (VInt 3) => "AD"
  | _ => "n/a"
  end.

(** ** The BIDS tree, the world and the effect monad *)

(** A participants table: ordered columns of text cells, [None] being NaN. *)
Definition text_table := odict (list (option string)).

(** A sessions table: the column names, and per row its index label and its
    cells by column name. *)
Record sessions_table := {
  s_columns : list string;
  s_rows : list (string * odict cell);
}.

Inductive content :=
  | participants_tsv (t : text_table)
  | sessions_tsv (t : sessions_table)
  | scans_tsv (rows : list (odict value))
  | other_content.

Inductive node :=
  | file (c : content)
  | subdir.

Definition path := list string.

(** The tree under the BIDS directory: every directory, by its path from the
    root, with its entries in enumeration order. *)
Abbreviation tree := (gmap path (odict node)).

(** [dir.glob("*")]: nothing when [dir] does not exist. *)
Definition listing (t : tree) (dir : path) : odict node := default [] (t !! dir).

Record world := {
  loaded : list string;    (* patterns read by [_load_metadata_from_pattern] *)
  searched : nat;          (* files read while searching for an exam date *)
  warnings : list string;  (* subjects a warning was printed for *)
  bids : tree;
}.

Definition io (A : Type) : Type := world → result A * world.

Definition retIO {A} (a : A) : io A := fun w => (Ok a, w).

Definition bindIO {A B} (m : io A) (f : A → io B) : io B := fun w =>
  match m w with
  | (Ok a, w') => f a w'
  | (Raise e, w') => (Raise e, w')
  end.

Notation "x <~ c ;; k" := (bindIO c (fun x => k))
  (at level 20, c at level 99, k at level 200, only parsing).
Notation "' pat <~ c ;; k" := (bindIO c (fun x => match x with pat => k end))
  (at level 20, pat pattern, c at level 99, k at level 200, only parsing).

Definition lift {A} (r : result A) : io A := fun w => (r, w).

Definition get_bids : io tree := fun w => (Ok (bids w), w).

Definition log_load (pattern : string) : io unit := fun w =>
  (Ok (), {| loaded := loaded w ++ [pattern]; searched := searched w;
             warnings := warnings w; bids := bids w |}).

Definition log_search : io unit := fun w =>
  (Ok (), {| loaded := loaded w; searched := S (searched w);
             warnings := warnings w; bids := bids w |}).

Definition cprint_warning (subject : string) : io unit := fun w =>
  (Ok (), {| loaded := loaded w; searched := searched w;
             warnings := warnings w ++ [subject]; bids := bids w |}).

Definition set_bids (t : tree) : io unit := fun w =>
  (Ok (), {| loaded := loaded w; searched := searched w;
             warnings := warnings w; bids := t |}).

(** [to_csv(dir / name)]: the directory must exist and [name] must not be a
    directory; an existing file is replaced. *)
Definition to_csv (dir : path) (name : string) (c : content) : io unit :=
  t <~ get_bids ;;
  match t !! dir with
  | None => lift (Raise OSError)
  | Some entries =>
      match oget name entries with
      | Some subdir => lift (Raise OSError)
      | _ => set_bids (<[dir := oset name (file c) entries]> t)
      end
  end.

(** [(dir / name).unlink(missing_ok=True)]. *)
Definition unlink_missing_ok (dir : path) (name : string) : io unit :=
  t <~ get_bids ;;
  match t !! dir with
  | None => retIO ()
  | Some entries =>
      match oget name entries with
      | Some subdir => lift (Raise OSError)
      | Some (file _) => set_bids (<[dir := odel name entries]> t)
      | None => retIO ()
      end
  end.

Fixpoint forIO {A} (f : A → io unit) (xs : list A) : io unit :=
  match xs with
  | [] => retIO ()
  | x :: xs' => _ <~ f x ;; forIO f xs'
  end.

Fixpoint foldIO {A S} (f : S → A → io S) (xs : list A) (s : S) : io S :=
  match xs with
  | [] => retIO s
  | x :: xs' => s' <~ f s x ;; foldIO f xs' s'
  end.

Fixpoint foldR {A S} (f : S → A → result S) (xs : list A) (s : S) : result S :=
  match xs with
  | [] => Ok s
  | x :: xs' => s' <- f s x ;; foldR f xs' s'
  end.

(** ** Collaborators outside this module *)

(** The visit-code normaliser, the identifier classes of [study_models], the
    directory scanners of [clinica.dataset], the tracer classifier, Python's
    [int] on strings, [Path.rglob] restricted to directories, and the column
    type inference of the table reader. *)
Class Collaborators := {
  viscode_to_session : value → result string;
  from_original_study_id : string → result string;
  to_original_study_id : string → result string;
  python_int : string → result Z;
  get_pet_tracer_from_filename : string → result string;
  get_subjects_from_bids_dataset : tree → list string;
  get_sessions_for_subject_in_bids_dataset : tree → string → list string;
  rglob_dirs : tree → path → string → list string;
  infer_column : list (option string) → list value;
}.

(** ** Loading specifications and clinical files *)

(** A line of a specification table; an empty cell is [None]. *)
Record spec_line := {
  spec_study : option string;       (* column "AIBL" *)
  spec_location : option string;    (* column "AIBL location" *)
  spec_bids : option string;        (* column "BIDS CLINICA" *)
  spec_modalities : option string;  (* column "Modalities related" *)
}.

(** A mapping row after the column selection and [dropna()]. *)
Record mapping := {
  m_study : string;
  m_location : string;
  m_bids : string;
}.

Record scan_mapping := {
  sm_study : string;
  sm_location : string;
  sm_bids : string;
  sm_modalities : string;
}.

Definition specifications_folder := string → option (list spec_line).

Definition _load_specifications (folder : specifications_folder)
    (filename : string) : result (list spec_line) :=
  match folder filename with
  | None => Raise FileNotFoundError
  | Some t => Ok t
  end.

Definition dropna3 (t : list spec_line) : list mapping :=
  omap (fun l =>
    s ← spec_study l; loc ← spec_location l; b ← spec_bids l;
    Some {| m_study := s; m_location := loc; m_bids := b |}) t.

Definition dropna4 (t : list spec_line) : list scan_mapping :=
  omap (fun l =>
    s ← spec_study l; loc ← spec_location l; b ← spec_bids l;
    m ← spec_modalities l;
    Some {| sm_study := s; sm_location := loc; sm_bids := b;
            sm_modalities := m |}) t.

(** The clinical data directory: what [clinical_dir.glob(pattern)] yields. *)
Definition clinical_directory := string → list raw_csv.

Definition read_csv `{Collaborators} (policy : bad_line_policy) (f : raw_csv)
  : result frame :=
  rows <- rows_to_cols policy (length (header f)) (lines f) ;;
  let padded := pad_line (length (header f)) <$> rows in
  Ok (imap (fun j name =>
              (name, infer_column ((fun r => default None (r !! j)) <$> padded)))
           (header f)).

Definition _load_metadata_from_pattern `{Collaborators}
    (clinical_dir : clinical_directory) (pattern : string)
    (on_bad_lines : bad_line_policy) : io frame :=
  match clinical_dir pattern with
  | [] => lift (Raise FileNotFoundError)
  | f :: _ => _ <~ log_load pattern ;; lift (read_csv on_bad_lines f)
  end.

(** ** Dates *)

Record date := {
  year : Z;
  month : Z;
  day : Z;
}.

(** The number a run of decimal digits denotes. *)
Definition number (ds : list ascii) : Z :=
  foldl (fun acc a => 10 * acc + digit_val a) 0 ds.

Definition is_leap (y : Z) : bool :=
  (y mod 4 =? 0) && (negb (y mod 100 =? 0) || (y mod 400 =? 0)).

Definition days_in_month (y m : Z) : Z :=
  if m =? 2 then (if is_leap y then 29 else 28)
  else if (m =? 4) || (m =? 6) || (m =? 9) || (m =? 11) then 30
  else 31.

(** The directive [%Y]: exactly four digits. *)
Definition parse_Y (cs : list ascii) : option Z :=
  match cs with
  | [_; _; _; _] => if forallb is_digit cs then Some (number cs) else None
  | _ => None
  end.

(** The directive [%m]: [1[0-2]|0[1-9]|[1-9]]. *)
Definition parse_m (cs : list ascii) : option Z :=
  match cs with
  | [_] | [_; _] =>
      if forallb is_digit cs && (1 <=? number cs) && (number cs <=? 12)
      then Some (number cs) else None
  | _ => None
  end.

(** The directive [%d]: [3[0-1]|[1-2]\d|0[1-9]|[1-9]| [1-9]]. *)
Definition parse_d (cs : list ascii) : option Z :=
  match cs with
  | [a; b] =>
      if Ascii.eqb a " " then
        (if is_digit b && (1 <=? digit_val b) then Some (digit_val b) else None)
      else if forallb is_digit cs && (1 <=? number cs) && (number cs <=? 31)
      then Some (number cs) else None
  | [a] => if is_digit a && (1 <=? digit_val a) then Some (digit_val a) else None
  | _ => None
  end.

(** The fields of a string between the slashes. *)
Fixpoint split_slash (cs : list ascii) : list (list ascii) :=
  match cs with
  | [] => [[]]
  | c :: rest =>
      if Ascii.eqb c "/" then [] :: split_slash rest
      else match split_slash rest with
           | [] => [[c]]
           | f :: fs => (c :: f) :: fs
           end
  end.

(** [datetime.strptime(s, "/%Y")]; the year.  A value that is not a string
    is a [TypeError], a string of another shape or the year 0 a [ValueError]. *)
Definition strptime_Y (c : cell) : result Z :=
  match c with
  | Some (VStr s) =>
      match split_slash (chars s) with
      | [[]; y] =>
          match parse_Y y with
          | Some n => if 1 <=? n then Ok n else Raise ValueError
          | None => Raise ValueError
          end
      | _ => Raise ValueError
      end
  | _ => Raise TypeError
  end.

(** [datetime.strptime(s, "%m/%d/%Y")]. *)
Definition strptime_mdY (c : cell) : result date :=
  match c with
  | Some (VStr s) =>
      match split_slash (chars s) with
      | [m; d; y] =>
          match parse_m m, parse_d d, parse_Y y with
          | Some m', Some d', Some y' =>
              if (1 <=? y') && (d' <=? days_in_month y' m')
              then Ok {| year := y'; month := m'; day := d' |}
              else Raise ValueError
          | _, _, _ => Raise ValueError
          end
      | _ => Raise ValueError
      end
  | _ => Raise TypeError
  end.

Definition pad2 (n : Z) : string :=
  if n <? 10 then "0" +:+ pretty n else pretty n.

Definition pad4 (n : Z) : string :=
  if n <? 10 then "000" +:+ pretty n
  else if n <? 100 then "00" +:+ pretty n
  else if n <? 1000 then "0" +:+ pretty n
  else pretty n.

(** [strftime("%Y-%m-%dT%H:%M:%S")] of a date at midnight. *)
Definition strftime_iso (d : date) : string :=
  pad4 (year d) +:+ "-" +:+ pad2 (month d) +:+ "-" +:+ pad2 (day d)
  +:+ "T00:00:00".

Definition _format_time (time : value) : result string :=
  date_obj <- strptime_mdY (Some time) ;;
  Ok (strftime_iso date_obj).

Definition _compute_age_at_exam (birth_date exam_date : cell)
  : result (option Z) :=
  if truthy birth_date && truthy exam_date then
    date_of_birth <- strptime_Y birth_date ;;
    exam <- strptime_mdY exam_date ;;
    Ok (Some (year exam - date_of_birth))
  else Ok None.

(** ** Operations on sessions tables *)

#[global] Instance value_eq_dec : EqDecision value.
Proof. solve_decision. Defined.

(** [row.name], an [AttributeError] when the row has no such column. *)
Definition attr {V} (name : string) (row : odict V) : result V :=
  match oget name row with
  | Some v => Ok v
  | None => Raise AttributeError
  end.

(** A cell of a row; a column the row lacks reads as missing. *)
Definition row_cell (name : string) (row : odict cell) : cell :=
  default None (oget name row).

Definition column (name : string) (df : sessions_table) : list cell :=
  (fun r => row_cell name r.2) <$> s_rows df.

(** [df[name] = values], row by row. *)
Definition set_column (name : string) (values : list cell)
    (df : sessions_table) : sessions_table :=
  {| s_columns := if bool_decide (name ∈ s_columns df) then s_columns df
                  else s_columns df ++ [name];
     s_rows := zip_with (fun r v => (r.1, oset name v r.2)) (s_rows df) values |}.

(** [df.drop(labels=name, axis=1)]. *)
Definition drop_column (name : string) (df : sessions_table) : sessions_table :=
  {| s_columns := List.filter (fun c => negb (String.eqb c name)) (s_columns df);
     s_rows := (fun r => (r.1, odel name r.2)) <$> s_rows df |}.

(** [Series.ffill()]: a missing cell takes the last value seen before it. *)
Fixpoint ffill_from (last : cell) (cs : list cell) : list cell :=
  match cs with
  | [] => []
  | c :: rest =>
      if isna c then (if isna last then c else last) :: ffill_from last rest
      else c :: ffill_from c rest
  end.

Definition ffill (cs : list cell) : list cell := ffill_from None cs.

(** [Series.dropna().unique()]. *)
Definition dropna_unique (cs : list cell) : list cell :=
  remove_dups (List.filter (fun c => negb (isna c)) cs).

Definition _set_age_from_birth (df : sessions_table) : result sessions_table :=
  if negb (bool_decide ("date_of_birth" ∈ s_columns df))
     || negb (bool_decide ("examination_date" ∈ s_columns df))
  then Raise ValueError
  else
    df' <- (if (length (dropna_unique (column "date_of_birth" df)) <=? 1)%nat then
             let df1 := set_column "date_of_birth"
                          (ffill (column "date_of_birth" df)) df in
             ages <- mapR (fun x =>
                            age <- _compute_age_at_exam
                                    (row_cell "date_of_birth" x.2)
                                    (row_cell "examination_date" x.2) ;;
                            Ok (VInt <$> age)) (s_rows df1) ;;
             Ok (set_column "age" ages df1)
           else
             Ok (set_column "age" (replicate (length (s_rows df)) None) df)) ;;
    Ok (drop_column "date_of_birth" df').

(** ** The participants table *)

(** [Series.astype(str)]: every value, not-a-number included, becomes text. *)
Definition astype_str (v : value) : string :=
  match v with
  | VInt z => pretty z
  | VStr s => s
  | VNaN => "nan"
  end.

Definition nrows (t : text_table) : nat :=
  match t with
  | [] => 0%nat
  | (_, c) :: _ => length c
  end.

(** [Series.reindex] from one range index to the first [n] positions. *)
Definition reindex {A} (n : nat) (vs : list (option A)) : list (option A) :=
  take n vs ++ replicate (n - length vs)%nat None.

(** [df[name] = series]: the series is aligned on the table's index; a table
    without any row first takes the index of the series. *)
Definition setitem (name : string) (vs : list (option string)) (t : text_table)
  : text_table :=
  if (nrows t =? 0)%nat
  then oset name vs (omap_values (reindex (length vs)) t)
  else oset name (reindex (nrows t) vs) t.

(** The loop over the mapping rows: a file is read again whenever the
    location differs from the one of the row before. *)
Fixpoint assemble `{Collaborators} (clinical_data_dir : clinical_directory)
    (rows : list mapping) (prev_location : string)
    (file_to_read : option frame) (participant_df : text_table)
  : io text_table :=
  match rows with
  | [] => retIO participant_df
  | row :: rest =>
      '(prev_location', file_to_read') <~
        (if negb (String.eqb (m_location row) prev_location) then
           f <~ _load_metadata_from_pattern clinical_data_dir
                  (m_location row) on_bad_error ;;
           retIO (m_location row, Some f)
         else retIO (prev_location, file_to_read)) ;;
      f <~ lift (match file_to_read' with
                 | Some f => Ok f
                 | None => Raise NameError
                 end) ;;
      col <~ lift (oitem (m_study row) f) ;;
      assemble clinical_data_dir rest prev_location' file_to_read'
        (setitem (m_bids row) ((fun v => Some (astype_str v)) <$> col)
           participant_df)
  end.

(** [Series.str.extract(r"/(\d{4}).*")] on one cell: the four digits after
    the first slash that is followed by four digits. *)
Fixpoint extract_year_chars (cs : list ascii) : option (list ascii) :=
  match cs with
  | [] => None
  | c :: rest =>
      if Ascii.eqb c "/" && (4 <=? length rest)%nat && forallb is_digit (take 4 rest)
      then Some (take 4 rest)
      else extract_year_chars rest
  end.

Definition extract_year (c : option string) : option string :=
  match c with
  | Some s => string_of_chars <$> extract_year_chars (chars s)
  | None => None
  end.

(** [Series.map({"1": "M", "2": "F"})]. *)
Definition map_sex (c : option string) : option string :=
  match c with
  | Some s => if String.eqb s "1" then Some "M"
              else if String.eqb s "2" then Some "F" else None
  | None => None
  end.

Definition fillna_text (c : option string) : option string :=
  match c with
  | None => Some NA
  | Some s => Some s
  end.

Definition replace_text (old new : string) (c : option string) : option string :=
  match c with
  | Some s => if String.eqb s old then Some new else Some s
  | None => None
  end.

Definition map_cells {A B} (f : A → B) (t : odict (list A)) : odict (list B) :=
  omap_values (map f) t.

(** The canonical identifier, the year of birth, the sex and the known
    missing values. *)
Definition normalize `{Collaborators} (participant_df : text_table)
  : result text_table :=
  alt <- oitem "alternative_id_1" participant_df ;;
  ids <- mapR (fun x => match x with
                        | Some s => from_original_study_id s
                        | None => Raise TypeError
                        end) alt ;;
  df1 <- (match oget "participant_id" participant_df with
          | Some _ => Raise ValueError
          | None => Ok (("participant_id", Some <$> ids) :: participant_df)
          end) ;;
  let df2 := odel "alternative_id_1" df1 in
  dob <- oitem "date_of_birth" df2 ;;
  let df3 := oset "date_of_birth" (extract_year <$> dob) df2 in
  sex <- oitem "sex" df3 ;;
  let df4 := oset "sex" (map_sex <$> sex) df3 in
  Ok (map_cells (replace_text "-4" NA) (map_cells fillna_text df4)).

(** A table with the index [set_index("participant_id", drop=False)] gives. *)
Record indexed_table := {
  index : list (option string);
  columns : text_table;
}.

(** [bids_path.glob("sub-*")], by name. *)
Definition glob_sub (t : tree) : list string :=
  List.filter (String.prefix "sub-") (okeys (listing t [])).

(** [df.loc[subject] = "n/a"] for a label the index lacks, then
    [df.loc[subject, "participant_id"] = subject]. *)
Definition append_missing (subject : string) (df : indexed_table)
  : indexed_table :=
  let enlarged :=
    {| index := index df ++ [Some subject];
       columns := omap_values (fun col => col ++ [Some NA]) (columns df) |} in
  {| index := index enlarged;
     columns :=
       match oget "participant_id" (columns enlarged) with
       | Some ids =>
           oset "participant_id"
             (zip_with (fun l c => if bool_decide (l = Some subject)
                                   then Some subject else c)
                (index enlarged) ids)
             (columns enlarged)
       | None => columns enlarged
       end |}.

(** The positions of a label in the index, counted from [i]. *)
Fixpoint positions_from (i : nat) (label : option string)
    (idx : list (option string)) : list nat :=
  match idx with
  | [] => []
  | l :: rest =>
      if bool_decide (l = label) then i :: positions_from (S i) label rest
      else positions_from (S i) label rest
  end.

Definition positions (label : option string) (idx : list (option string))
  : list nat :=
  positions_from 0 label idx.

(** The cells of a column at the given positions. *)
Definition take_rows {A} (pos : list nat) (col : list A) : list A :=
  omap (fun i => col !! i) pos.

(** [df.loc[labels]]: for each label in turn, all its rows; a label that
    the index lacks is a [KeyError]. *)
Definition loc_rows (labels : list string) (df : indexed_table)
  : result indexed_table :=
  pos <- mapR (fun l => match positions (Some l) (index df) with
                        | [] => Raise KeyError
                        | ps => Ok ps
                        end) labels ;;
  Ok {| index := take_rows (concat pos) (index df);
        columns := omap_values (take_rows (concat pos)) (columns df) |}.

(** The body of the loop over the subjects of the BIDS tree. *)
Definition reconcile_subject (df : indexed_table) (subject : string)
  : io indexed_table :=
  if bool_decide (Some subject ∈ index df) then retIO df
  else _ <~ cprint_warning subject ;;
       retIO (append_missing subject df).

Definition reconcile (participant_df : text_table) : io text_table :=
  t <~ get_bids ;;
  let subjects_to_keep := glob_sub t in
  ids <~ lift (oitem "participant_id" participant_df) ;;
  df <~ foldIO reconcile_subject subjects_to_keep
          {| index := ids; columns := participant_df |} ;;
  kept <~ lift (loc_rows subjects_to_keep df) ;;
  retIO (columns kept).

(** The table handed to [to_csv]. *)
Definition participants_table `{Collaborators}
    (clinical_specifications_folder : specifications_folder)
    (clinical_data_dir : clinical_directory) (delete_non_bids_info : bool)
  : io text_table :=
  spec <~ lift (_load_specifications clinical_specifications_folder
                  "participant.tsv") ;;
  participant_df <~ assemble clinical_data_dir (dropna3 spec) "" None [] ;;
  participant_df <~ lift (normalize participant_df) ;;
  if delete_non_bids_info then reconcile participant_df
  else retIO participant_df.

Definition create_participants_tsv_file `{Collaborators}
    (clinical_specifications_folder : specifications_folder)
    (clinical_data_dir : clinical_directory) (delete_non_bids_info : bool)
  : io unit :=
  participant_df <~ participants_table clinical_specifications_folder
                      clinical_data_dir delete_non_bids_info ;;
  to_csv [] "participants.tsv" (participants_tsv participant_df).

(** ** The sessions tables *)

(** The elements of [l] where the mask holds. *)
Definition select {A} (mask : list bool) (l : list A) : list A :=
  map snd (List.filter fst (zip mask l)).

(** The rows of one subject in a clinical file: the session label of each
    row's visit code with the value of the requested column, to be joined
    under the name [bids_metadata]. *)
Definition _format_metadata_for_rid `{Collaborators} (input_df : frame)
    (source_id : Z) (bids_metadata source_metadata : string)
  : result (string * list (string * value)) :=
  rid <- oitem "RID" input_df ;;
  viscode <- oitem "VISCODE" input_df ;;
  source <- oitem source_metadata input_df ;;
  let mask := map (fun v => value_eqb v (VInt source_id)) rid in
  session_id <- mapR viscode_to_session (select mask viscode) ;;
  Ok (bids_metadata, zip session_id (select mask source)).

(** [pd.concat([sessions, data], axis=1)]: an outer join on the index.  Equal
    indexes are joined position by position; otherwise both indexes must be
    free of duplicates, the labels only [data] has are appended, and what is
    missing on either side is not-a-number. *)
Definition concat_axis1 (sessions : sessions_table)
    (data : string * list (string * value)) : result sessions_table :=
  let name := data.1 in
  let idx := map fst (s_rows sessions) in
  let idx2 := map fst data.2 in
  if bool_decide (idx = idx2) then
    Ok {| s_columns := s_columns sessions ++ [name];
          s_rows := zip_with (fun r d => (r.1, r.2 ++ [(name, Some d.2)]))
                      (s_rows sessions) data.2 |}
  else if bool_decide (NoDup idx) && bool_decide (NoDup idx2) then
    let blank : odict cell := map (fun c => (c, Some VNaN)) (s_columns sessions) in
    let fresh := List.filter (fun l => negb (bool_decide (l ∈ idx))) idx2 in
    let rows := s_rows sessions ++ map (fun l => (l, blank)) fresh in
    Ok {| s_columns := s_columns sessions ++ [name];
          s_rows := map (fun r => (r.1, r.2 ++ [(name, match oget r.1 data.2 with
                                                       | Some v => Some v
                                                       | None => Some VNaN
                                                       end)])) rows |}
  else Raise InvalidIndexError.

(** [sort_index()]: by label, in the order of Python strings. *)
Fixpoint insert_row {A} (r : string * A) (rows : list (string * A))
  : list (string * A) :=
  match rows with
  | [] => [r]
  | r' :: rest =>
      if String.leb r.1 r'.1 then r :: r' :: rest
      else r' :: insert_row r rest
  end.

Definition sort_index (df : sessions_table) : sessions_table :=
  {| s_columns := s_columns df;
     s_rows := foldr insert_row [] (s_rows df) |}.

(** [replace([-4, "-4", np.nan], None)] on one cell. *)
Definition replace_missing (c : cell) : cell :=
  match c with
  | Some (VInt z) => if z =? -4 then None else c
  | Some (VStr s) => if String.eqb s "-4" then None else c
  | Some VNaN => None
  | None => None
  end.

Definition map_rows (f : odict cell → odict cell) (df : sessions_table)
  : sessions_table :=
  {| s_columns := s_columns df;
     s_rows := map (fun r => (r.1, f r.2)) (s_rows df) |}.

Definition alternative_exam_date_patterns : list string :=
  [ "aibl_mri3meta_*.csv"; "aibl_mrimeta_*.csv"; "aibl_cdr_*.csv";
    "aibl_flutemeta_*.csv"; "aibl_mmse_*.csv"; "aibl_pibmeta_*.csv" ].

(** The search of [_find_exam_date_in_other_csv_files] through the files that
    [_get_csv_files_for_alternative_exam_date] yields, a pattern without a
    file being skipped. *)
Fixpoint find_exam_date `{Collaborators} (rid : Z) (session_id : value)
    (clinical_data_dir : clinical_directory) (patterns : list string)
  : io cell :=
  match patterns with
  | [] => retIO None
  | pattern :: rest =>
      match clinical_data_dir pattern with
      | [] => find_exam_date rid session_id clinical_data_dir rest
      | csv :: _ =>
          _ <~ log_search ;;
          csv_data <~ lift (read_csv on_bad_error csv) ;;
          viscode <~ lift (attr "VISCODE" csv_data) ;;
          session <~ lift (mapR viscode_to_session viscode) ;;
          let csv_data := oset "SESSION" (map VStr session) csv_data in
          rids <~ lift (attr "RID" csv_data) ;;
          sessions <~ lift (attr "SESSION" csv_data) ;;
          let mask := zip_with andb
                        (map (fun v => value_eqb v (VInt rid)) rids)
                        (map (fun v => value_eqb v session_id) sessions) in
          if existsb id mask then
            examdate <~ lift (attr "EXAMDATE" csv_data) ;;
            match select mask examdate with
            | first :: _ =>
                if negb (value_eqb first (VStr "-4")) then retIO (Some first)
                else find_exam_date rid session_id clinical_data_dir rest
            | [] => find_exam_date rid session_id clinical_data_dir rest
            end
          else find_exam_date rid session_id clinical_data_dir rest
      end
  end.

Definition _find_exam_date_in_other_csv_files `{Collaborators} (rid : Z)
    (session_id : value) (clinical_data_dir : clinical_directory) : io cell :=
  find_exam_date rid session_id clinical_data_dir alternative_exam_date_patterns.

Definition _complete_examination_dates `{Collaborators} (rid : Z)
    (clinical_data_dir : clinical_directory) (session_id examination_date : cell)
  : io cell :=
  if truthy examination_date then retIO examination_date
  else match session_id with
       | Some v =>
           if truthy session_id
           then _find_exam_date_in_other_csv_files rid v clinical_data_dir
           else retIO None
       | None => retIO None
       end.

Fixpoint mapIO {A B} (f : A → io B) (xs : list A) : io (list B) :=
  match xs with
  | [] => retIO []
  | x :: xs' => y <~ f x ;; ys <~ mapIO f xs' ;; retIO (y :: ys)
  end.

(** [dropna(subset=["session_id"])]. *)
Definition dropna_session_id (df : sessions_table) : sessions_table :=
  {| s_columns := s_columns df;
     s_rows := List.filter (fun r => negb (isna (row_cell "session_id" r.2)))
                 (s_rows df) |}.

(** [fillna("n/a")] on one cell. *)
Definition fillna_cell (c : cell) : cell :=
  if isna c then Some (VStr NA) else c.

(** The body of the loop over the subjects, up to the table that is written
    and the identifier it is written under. *)
Definition sessions_for_subject `{Collaborators}
    (clinical_data_dir : clinical_directory) (specifications : list mapping)
    (bids_id : string) : io (string * sessions_table) :=
  original <~ lift (to_original_study_id bids_id) ;;
  rid <~ lift (python_int original) ;;
  t <~ get_bids ;;
  let known := get_sessions_for_subject_in_bids_dataset t bids_id in
  let sessions :=
    {| s_columns := ["session_id"];
       s_rows := map (fun s => (s, [("session_id", Some (VStr s))])) known |} in
  sessions <~ foldIO (fun sessions row =>
                df <~ _load_metadata_from_pattern clinical_data_dir
                        (m_location row) on_bad_error ;;
                data <~ lift (_format_metadata_for_rid df rid (m_bids row)
                                (m_study row)) ;;
                lift (concat_axis1 sessions data))
              specifications sessions ;;
  let sessions := sort_index sessions in
  let sessions := map_rows (map (fun kv => (kv.1, replace_missing kv.2))) sessions in
  _ <~ lift (if bool_decide ("diagnosis" ∈ s_columns sessions) then Ok ()
             else Raise AttributeError) ;;
  let sessions :=
    set_column "diagnosis"
      (map (fun c => Some (VStr (_map_diagnosis c))) (column "diagnosis" sessions))
      sessions in
  dates <~ mapIO (fun x =>
              session_id <~ lift (attr "session_id" x.2) ;;
              examination_date <~ lift (attr "examination_date" x.2) ;;
              _complete_examination_dates rid clinical_data_dir
                session_id examination_date)
            (s_rows sessions) ;;
  let sessions := set_column "examination_date" dates sessions in
  sessions <~ lift (_set_age_from_birth sessions) ;;
  let sessions := dropna_session_id sessions in
  let sessions := map_rows (map (fun kv => (kv.1, fillna_cell kv.2))) sessions in
  bids_id' <~ lift (from_original_study_id (pretty rid)) ;;
  retIO (bids_id', sessions).

Definition create_sessions_tsv_file `{Collaborators}
    (clinical_data_dir : clinical_directory)
    (clinical_specifications_folder : specifications_folder) : io unit :=
  spec <~ lift (_load_specifications clinical_specifications_folder
                  "sessions.tsv") ;;
  let specifications := dropna3 spec in
  t <~ get_bids ;;
  forIO (fun bids_id =>
           '(bids_id', sessions) <~ sessions_for_subject clinical_data_dir
                                     specifications bids_id ;;
           to_csv [bids_id'] (bids_id' +:+ "_sessions.tsv")
             (sessions_tsv sessions))
        (get_subjects_from_bids_dataset t).

(** ** The scans tables *)

(** subject → session → modality group → field → value. *)
Definition scans_dictionary := odict (odict (odict (odict value))).

(** The four modality groups of a session: the shared anatomical one and
    the tracers [Tracer.PIB], [Tracer.AV45] and [Tracer.FMM], whose keys are
    their string values. *)
Definition empty_groups : odict (odict value) :=
  [ ("T1/DWI/fMRI/FMAP", []); ("11CPIB", []); ("18FAV45", []); ("18FFMM", []) ].

Definition _init_scans_dict `{Collaborators} (t : tree) : scans_dictionary :=
  foldl (fun scans_dict bids_id =>
           oset bids_id
             (foldl (fun sessions session => oset session empty_groups sessions)
                [] (rglob_dirs t [bids_id] "ses-M*"))
             scans_dict)
        [] (rglob_dirs t [] "./sub-AIBL*").

(** [Series.item()]: the only element, a [ValueError] for any other size. *)
Definition item {A} (l : list A) : result A :=
  match l with
  | [x] => Ok x
  | _ => Raise ValueError
  end.

(** The [try] block of the innermost loop and its [except ValueError]. *)
Definition lookup_value `{Collaborators} (row : scan_mapping) (file : frame)
    (original_id session : string) : result value :=
  let attempt :=
    rid_column <- oitem "RID" file ;;
    rid <- python_int original_id ;;
    session_column <- oitem "session_id" file ;;
    let mask := zip_with andb
                  (map (fun v => value_eqb v (VInt rid)) rid_column)
                  (map (fun v => value_eqb v (VStr session)) session_column) in
    source <- oitem (sm_study row) file ;;
    value <- item (select mask source) ;;
    if value_eqb value (VStr "-4") then Ok (VStr NA)
    else if String.eqb (sm_bids row) "acq_time" then
      time <- _format_time value ;; Ok (VStr time)
    else Ok value in
  match attempt with
  | Raise ValueError => Ok (VStr NA)
  | r => r
  end.

(** The guarded write [modality[key] = value]. *)
Definition write_field (key : string) (new : value) (modality : odict value)
  : odict value :=
  match oget key modality with
  | None => oset key new modality
  | Some old => if value_eqb old (VStr NA) then oset key new modality
                else modality
  end.

Definition store (row : scan_mapping) (new : value)
    (groups : odict (odict value)) : result (odict (odict value)) :=
  modality <- oitem (sm_modalities row) groups ;;
  Ok (oset (sm_modalities row) (write_field (sm_bids row) new modality) groups).

(** The body of the loop over the sessions of a subject. *)
Definition scan_session `{Collaborators} (row : scan_mapping) (file : frame)
    (original_id : string) (sessions : odict (odict (odict value)))
    (session : string) : result (odict (odict (odict value))) :=
  looked_up <- lookup_value row file original_id session ;;
  groups <- oitem session sessions ;;
  groups' <- store row looked_up groups ;;
  Ok (oset session groups' sessions).

(** The body of the loop over the subjects. *)
Definition scan_subject `{Collaborators} (row : scan_mapping) (file : frame)
    (scans_dict : scans_dictionary) (bids_id : string)
  : result scans_dictionary :=
  original_id <- to_original_study_id bids_id ;;
  sessions <- oitem bids_id scans_dict ;;
  sessions' <- foldR (scan_session row file original_id) (okeys sessions)
                 sessions ;;
  Ok (oset bids_id sessions' scans_dict).

(** One mapping row against every subject and session of the dictionary. *)
Definition scan_row `{Collaborators} (row : scan_mapping) (file : frame)
    (scans_dict : scans_dictionary) : result scans_dictionary :=
  foldR (scan_subject row file) (okeys scans_dict) scans_dict.

Definition bad_lines_for (location : string) : bad_line_policy :=
  if contains "flutemeta" location
  then on_bad_callable _handle_flutemeta_badline
  else on_bad_error.

Definition scan_mapping_row `{Collaborators}
    (clinical_data_dir : clinical_directory) (scans_dict : scans_dictionary)
    (row : scan_mapping) : io scans_dictionary :=
  file <~ _load_metadata_from_pattern clinical_data_dir (sm_location row)
            (bad_lines_for (sm_location row)) ;;
  viscode <~ lift (oitem "VISCODE" file) ;;
  session_id <~ lift (mapR viscode_to_session viscode) ;;
  let file := oset "session_id" (map VStr session_id) file in
  lift (scan_row row file scans_dict).

Definition _create_scans_dict `{Collaborators}
    (clinical_data_dir : clinical_directory)
    (clinical_specifications_folder : specifications_folder)
  : io scans_dictionary :=
  t <~ get_bids ;;
  let scans_dict := _init_scans_dict t in
  spec <~ lift (_load_specifications clinical_specifications_folder
                  "scans.tsv") ;;
  foldIO (scan_mapping_row clinical_data_dir) (dropna4 spec) scans_dict.

Definition supported_modalities : list string := ["anat"; "dwi"; "func"; "pet"].

(** [PurePath.suffix] of a file name. *)
Fixpoint rfind_dot (cs : list ascii) (i : nat) (last : option nat) : option nat :=
  match cs with
  | [] => last
  | c :: rest => rfind_dot rest (S i) (if Ascii.eqb c "." then Some i else last)
  end.

Definition suffix (name : string) : string :=
  match rfind_dot (chars name) 0 None with
  | Some i =>
      if (0 <? i)%nat && (i <? length (chars name) - 1)%nat
      then string_of_chars (drop i (chars name)) else ""
  | None => ""
  end.

(** [modality.iterdir()], by name. *)
Definition iterdir (t : tree) (p : path) (n : node) : result (list string) :=
  match n with
  | subdir => Ok (okeys (listing t p))
  | file _ => Raise OSError
  end.

Definition scans_file_name (subject session : string) : string :=
  subject +:+ "_" +:+ session +:+ "_scans.tsv".

(** The row of one scan file: its name in front of the fields its modality
    group accumulated. *)
Definition scan_file_row `{Collaborators} (groups : odict (odict value))
    (modality_name file_name : string) : result (odict value) :=
  f_type <- (if bool_decide (modality_name ∈ ["anat"; "dwi"; "func"])
             then Ok "T1/DWI/fMRI/FMAP"
             else get_pet_tracer_from_filename file_name) ;;
  fields <- oitem f_type groups ;;
  match oget "filename" fields with
  | Some _ => Raise ValueError
  | None => Ok (("filename", VStr (modality_name +:+ " / " +:+ file_name)) :: fields)
  end.

Definition fillna_value (v : value) : value :=
  match v with
  | VNaN => VStr NA
  | _ => v
  end.

(** The body of the loop over the sessions of a subject. *)
Definition write_session `{Collaborators} (scans_dict : scans_dictionary)
    (subject session : string) : io unit :=
  let dir := [subject; session] in
  let tsv_file := scans_file_name subject session in
  _ <~ unlink_missing_ok dir tsv_file ;;
  t <~ get_bids ;;
  let modalities :=
    List.filter (fun entry => bool_decide (entry.1 ∈ supported_modalities))
      (listing t dir) in
  _ <~ foldIO (fun scans_df modality =>
                 t <~ get_bids ;;
                 files <~ lift (iterdir t (dir ++ [modality.1]) modality.2) ;;
                 scans_df <~ lift (
                   foldR (fun scans_df file_name =>
                            sessions <- oitem subject scans_dict ;;
                            groups <- oitem session sessions ;;
                            row_to_append <- scan_file_row groups modality.1
                                               file_name ;;
                            Ok (scans_df ++ [row_to_append]))
                     (List.filter (fun _ => negb (String.eqb (suffix modality.1) ".json"))
                        files)
                     scans_df) ;;
                 let scans_df := map (omap_values fillna_value) scans_df in
                 _ <~ to_csv dir tsv_file (scans_tsv scans_df) ;;
                 retIO scans_df)
              modalities [] ;;
  retIO ().

Definition _write_scans_tsv `{Collaborators} (scans_dict : scans_dictionary)
  : io unit :=
  forIO (fun subject =>
           sessions <~ lift (oitem subject scans_dict) ;;
           forIO (write_session scans_dict subject) (okeys sessions))
        (okeys scans_dict).

Definition create_scans_tsv_file `{Collaborators}
    (clinical_data_dir : clinical_directory)
    (clinical_specifications_folder : specifications_folder) : io unit :=
  scans_dict <~ _create_scans_dict clinical_data_dir
                  clinical_specifications_folder ;;
  _write_scans_tsv scans_dict.

(** ** Observing the results *)

(** What the field [key] of a modality group of a session holds. *)
Definition slot (scans_dict : scans_dictionary)
    (subject session group key : string) : option value :=
  sessions ← oget subject scans_dict;
  groups ← oget session sessions;
  fields ← oget group groups;
  oget key fields.

(** The field [key] of a modality group among the groups of one session. *)
Definition field (groups : odict (odict value)) (group key : string)
  : option value :=
  fields ← oget group groups; oget key fields.

(** The folder of a session holds no subdirectory named after a supported
    modality. *)
Definition no_modality_folder (subject session : string) (w : world) : Prop :=
  ∀ name n, In (name, n) (listing (bids w) [subject; session]) →
            In name supported_modalities → n ≠ subdir.

(** The folder of a session holds no scans file. *)
Definition no_scans_file (subject session : string) (w : world) : Prop :=
  oget (scans_file_name subject session)
    (listing (bids w) [subject; session]) = None.

(** A row whose session label is not missing, and the index labels of the
    rows of a table that are such. *)
Definition alive (r : string * odict cell) : bool :=
  negb (isna (row_cell "session_id" r.2)).

Definition alive_labels (rows : list (string * odict cell)) : list string :=
  map fst (List.filter alive rows).

(** What the joins keep true of the table of a subject whose sessions in the
    BIDS tree are [known]: the session column is there, every row has it,
    and the rows with a session label carry labels of [known], each at most
    as often as [known] has it. *)
Definition joined_invariant (known : list string) (t : sessions_table) : Prop :=
  In "session_id" (s_columns t)
  ∧ (∀ r, In r (s_rows t) → is_Some (oget "session_id" r.2))
  ∧ alive_labels (s_rows t) ⊆+ known.

(** The locations of a list that differ from the location before them,
    [prev] standing before the first. *)
Fixpoint location_changes (prev : string) (locations : list string)
  : list string :=
  match locations with
  | [] => []
  | location :: rest =>
      if String.eqb location prev then location_changes location rest
      else location :: location_changes location rest
  end.

(** A computation that, when it succeeds, has loaded no clinical file by
    pattern, printed no warning and left the BIDS tree as it was. *)
Definition quiet {A} (m : io A) : Prop :=
  ∀ w a w', m w = (Ok a, w') →
            loaded w' = loaded w ∧ warnings w' = warnings w ∧ bids w' = bids w.

(** Every column of a table has [n] cells. *)
Definition rectangular (n : nat) (t : text_table) : Prop :=
  ∀ name col, In (name, col) t → length col = n.

(** Every cell of a table satisfies [P]. *)
Definition all_cells (P : option string → Prop) (t : text_table) : Prop :=
  ∀ name col c, In (name, col) t → In c col → P c.

(** Every value of a parsed file satisfies [P]. *)
Definition all_values (P : value → Prop) (f : frame) : Prop :=
  ∀ name col v, In (name, col) f → In v col → P v.

(** What [set_index] and the appended rows keep true: the identifier column
    is the index, and every column is as long as the index. *)
Definition indexed_invariant (df : indexed_table) : Prop :=
  oget "participant_id" (columns df) = Some (index df)
  ∧ rectangular (length (index df)) (columns df).

(** The subject directories of the BIDS tree, by name. *)
Definition subject_directories (t : tree) : list string :=
  okeys (List.filter
           (fun kv => String.prefix "sub-" kv.1
                      && match kv.2 with subdir => true | file _ => false end)
           (listing t [])).

(** ** Sample data *)

(** Stand-ins for the collaborators, to run the builders on sample data:
    visit codes [bl] and [mNN], identifiers [sub-AIBL<digits>], decimal
    integers, subjects and sessions as the directories of the tree, and a
    column inference that reads decimal integers as integers and empty
    fields as not-a-number. *)
Definition sample_int (s : string) : result Z :=
  match chars s with
  | [] => Raise ValueError
  | "-"%char :: ds =>
      if forallb is_digit ds && negb (bool_decide (ds = []))
      then Ok (- number ds) else Raise ValueError
  | ds => if forallb is_digit ds then Ok (number ds) else Raise ValueError
  end.

Definition sample_viscode (v : value) : result string :=
  match v with
  | VStr "bl" => Ok "ses-M000"
  | VStr "m18" => Ok "ses-M018"
  | VStr "m36" => Ok "ses-M036"
  | VStr "m54" => Ok "ses-M054"
  | _ => Raise ValueError
  end.

Definition sample_to_original (bids_id : string) : result string :=
  if String.prefix "sub-AIBL" bids_id
  then Ok (String.substring 8 (String.length bids_id - 8) bids_id)
  else Raise ValueError.

Definition sample_infer (column : list (option string)) : list value :=
  let parsed := map (fun c => match c with
                              | None | Some "" => VNaN
                              | Some s => match sample_int s with
                                          | Ok z => VInt z
                                          | Raise _ => VStr s
                                          end
                              end) column in
  if forallb (fun v => match v with VStr _ => false | _ => true end) parsed
  then parsed
  else map (fun c => match c with
                     | None | Some "" => VNaN
                     | Some s => VStr s
                     end) column.

Definition subdirs_with_prefix (pre : string) (t : tree) (p : path)
  : list string :=
  okeys (List.filter (fun kv => String.prefix pre kv.1
                                && match kv.2 with subdir => true | _ => false end)
           (listing t p)).

Definition sample_collaborators : Collaborators := {|
  viscode_to_session := sample_viscode;
  from_original_study_id := fun s => Ok ("sub-AIBL" +:+ s);
  to_original_study_id := sample_to_original;
  python_int := sample_int;
  get_pet_tracer_from_filename := fun name =>
    if contains "trc-11CPIB" name then Ok "11CPIB"
    else if contains "trc-18FAV45" name then Ok "18FAV45"
    else if contains "trc-18FFMM" name then Ok "18FFMM"
    else Raise ValueError;
  get_subjects_from_bids_dataset := fun t => subdirs_with_prefix "sub-" t [];
  get_sessions_for_subject_in_bids_dataset := fun t s =>
    subdirs_with_prefix "ses-" t [s];
  rglob_dirs := fun t p pattern =>
    subdirs_with_prefix
      (if String.prefix "./" pattern then "sub-AIBL" else "ses-M") t p;
  infer_column := sample_infer;
|}.

(** A clinical directory with two MRI files: subject 12 has a baseline scan
    in the first and is missing from the second, subject 15 has two rows for
    one visit in the second, and subject 20 has one baseline row in each,
    with different dates. *)
Definition sample_mri3meta : raw_csv := {|
  header := ["RID"; "VISCODE"; "EXAMDATE"];
  lines := [ ["12"; "bl"; "06/15/2010"]; ["15"; "bl"; "07/01/2010"];
             ["20"; "bl"; "08/01/2010"] ];
|}.

Definition sample_mrimeta : raw_csv := {|
  header := ["RID"; "VISCODE"; "EXAMDATE"];
  lines := [ ["15"; "bl"; "07/02/2010"]; ["15"; "bl"; "07/03/2010"];
             ["15"; "m18"; "01/05/2012"]; ["20"; "bl"; "08/09/2010"] ];
|}.

(** The diagnoses, the exam dates and the demographics: subject 15 has a
    visit at month 36 that was not converted, and no exam date at month 18. *)
Definition sample_pdxconv : raw_csv := {|
  header := ["RID"; "VISCODE"; "DXCURREN"];
  lines := [ ["12"; "bl"; "3"]; ["15"; "bl"; "1"]; ["15"; "m18"; "2"];
             ["15"; "m36"; "-4"] ];
|}.

Definition sample_mmse : raw_csv := {|
  header := ["RID"; "VISCODE"; "EXAMDATE"];
  lines := [ ["12"; "bl"; "06/15/2010"]; ["15"; "bl"; "07/01/2010"];
             ["15"; "m18"; "-4"]; ["15"; "m36"; "02/02/2013"] ];
|}.

Definition sample_ptdemog : raw_csv := {|
  header := ["RID"; "VISCODE"; "PTGENDER"; "PTDOB"];
  lines := [ ["12"; "bl"; "1"; "/1948"]; ["15"; "bl"; "2"; "/1950"];
             ["31"; "bl"; "-4"; "/1939"] ];
|}.

Definition sample_clinical_dir : clinical_directory := fun pattern =>
  if String.eqb pattern "aibl_mri3meta_*.csv" then [sample_mri3meta]
  else if String.eqb pattern "aibl_mrimeta_*.csv" then [sample_mrimeta]
  else if String.eqb pattern "aibl_pdxconv_*.csv" then [sample_pdxconv]
  else if String.eqb pattern "aibl_mmse_*.csv" then [sample_mmse]
  else if String.eqb pattern "aibl_ptdemog_*.csv" then [sample_ptdemog]
  else [].

Definition sample_sessions_spec : list mapping :=
  [ {| m_study := "DXCURREN"; m_location := "aibl_pdxconv_*.csv";
       m_bids := "diagnosis" |};
    {| m_study := "EXAMDATE"; m_location := "aibl_mmse_*.csv";
       m_bids := "examination_date" |};
    {| m_study := "PTDOB"; m_location := "aibl_ptdemog_*.csv";
       m_bids := "date_of_birth" |} ].

(** Two mapping rows that feed the acquisition time of the shared group. *)
Definition sample_first_row : scan_mapping :=
  {| sm_study := "EXAMDATE"; sm_location := "aibl_mri3meta_*.csv";
     sm_bids := "acq_time"; sm_modalities := "T1/DWI/fMRI/FMAP" |}.

Definition sample_second_row : scan_mapping :=
  {| sm_study := "EXAMDATE"; sm_location := "aibl_mrimeta_*.csv";
     sm_bids := "acq_time"; sm_modalities := "T1/DWI/fMRI/FMAP" |}.

Definition sample_scans_dict : scans_dictionary :=
  [ ("sub-AIBL12", [("ses-M000", empty_groups)]);
    ("sub-AIBL15", [("ses-M000", empty_groups); ("ses-M018", empty_groups)]);
    ("sub-AIBL20", [("ses-M000", empty_groups)]) ].

Definition empty_world : world :=
  {| loaded := []; searched := 0; warnings := []; bids := ∅ |}.

(** The dictionary after the first mapping row. *)
Definition sample_after_first : scans_dictionary :=
  Eval vm_compute in
    match foldIO (@scan_mapping_row sample_collaborators sample_clinical_dir)
            [sample_first_row] sample_scans_dict empty_world with
    | (Ok d, _) => d
    | (Raise _, _) => []
    end.

(** The second file parsed, with the session labels of its visit codes. *)
Definition sample_mrimeta_frame : frame :=
  [ ("RID", [VInt 15; VInt 15; VInt 15; VInt 20]);
    ("VISCODE", [VStr "bl"; VStr "bl"; VStr "m18"; VStr "bl"]);
    ("EXAMDATE", [VStr "07/02/2010"; VStr "07/03/2010"; VStr "01/05/2012";
                  VStr "08/09/2010"]);
    ("session_id", [VStr "ses-M000"; VStr "ses-M000"; VStr "ses-M018";
                    VStr "ses-M000"]) ].

(** The sessions of a subject whose shared group already holds a time. *)
Definition sample_filled_sessions : odict (odict (odict value)) :=
  [ ("ses-M000",
     [ ("T1/DWI/fMRI/FMAP", [("acq_time", VStr "2010-06-15T00:00:00")]);
       ("11CPIB", []); ("18FAV45", []); ("18FFMM", []) ]) ].

(** A BIDS tree: the baseline session of subject 12 holds an old scans file
    and no modality folder, the one of subject 15 an anatomical folder. *)
Definition sample_tree : tree :=
  <[ [] := [("sub-AIBL12", subdir); ("sub-AIBL15", subdir)] ]>
  (<[ ["sub-AIBL12"] := [("ses-M000", subdir)] ]>
  (<[ ["sub-AIBL15"] := [("ses-M000", subdir); ("ses-M018", subdir)] ]>
  (<[ ["sub-AIBL12"; "ses-M000"] :=
        [("sub-AIBL12_ses-M000_scans.tsv", file other_content);
         ("notes.txt", file other_content)] ]>
  (<[ ["sub-AIBL15"; "ses-M000"] := [("anat", subdir)] ]>
  (<[ ["sub-AIBL15"; "ses-M018"] := [] ]>
  (<[ ["sub-AIBL15"; "ses-M000"; "anat"] :=
        [("sub-AIBL15_ses-M000_T1w.nii.gz", file other_content)] ]> ∅)))))).

Definition sample_world : world :=
  {| loaded := []; searched := 0; warnings := []; bids := sample_tree |}.



(** A participants specification that comes back to a file it left. *)
Definition sample_participant_spec : list spec_line :=
  [ {| spec_study := Some "RID"; spec_location := Some "aibl_ptdemog_*.csv";
       spec_bids := Some "alternative_id_1"; spec_modalities := None |};
    {| spec_study := Some "EXAMDATE"; spec_location := Some "aibl_mmse_*.csv";
       spec_bids := Some "date_of_first_visit"; spec_modalities := None |};
    {| spec_study := Some "PTDOB"; spec_location := Some "aibl_ptdemog_*.csv";
       spec_bids := Some "date_of_birth"; spec_modalities := None |};
    {| spec_study := Some "PTGENDER"; spec_location := Some "aibl_ptdemog_*.csv";
       spec_bids := Some "sex"; spec_modalities := None |};
    {| spec_study := None; spec_location := None;
       spec_bids := Some "education_level"; spec_modalities := None |} ].

Definition sample_sessions_lines : list spec_line :=
  [ {| spec_study := Some "DXCURREN"; spec_location := Some "aibl_pdxconv_*.csv";
       spec_bids := Some "diagnosis"; spec_modalities := None |};
    {| spec_study := Some "EXAMDATE"; spec_location := Some "aibl_mmse_*.csv";
       spec_bids := Some "examination_date"; spec_modalities := None |};
    {| spec_study := Some "PTDOB"; spec_location := Some "aibl_ptdemog_*.csv";
       spec_bids := Some "date_of_birth"; spec_modalities := None |} ].

Definition sample_spec_folder : specifications_folder := fun filename =>
  if String.eqb filename "participant.tsv" then Some sample_participant_spec
  else if String.eqb filename "sessions.tsv" then Some sample_sessions_lines
  else None.

(** The tree with a third subject that has no clinical data, listed first. *)
Definition sample_tree_44 : tree :=
  <[ [] := [("sub-AIBL44", subdir); ("sub-AIBL12", subdir);
            ("sub-AIBL15", subdir); ("README", file other_content)] ]>
  (<[ ["sub-AIBL44"] := [] ]> sample_tree).

Definition sample_world_44 : world :=
  {| loaded := []; searched := 0; warnings := []; bids := sample_tree_44 |}.

(** ** Observing whole runs *)

(** A computation every run of which, a failed one included, ends in a
    world that [R] relates to the world it started in. *)
Definition preserves {A} (R : world → world → Prop) (m : io A) : Prop :=
  ∀ w r w', m w = (r, w') → R w w'.

(** The entries of the BIDS tree that [writable] does not admit are the
    same in both worlds. *)
Definition same_except (writable : path → string → Prop) (w w' : world) : Prop :=
  ∀ dir name, ¬ writable dir name →
    oget name (listing (bids w') dir) = oget name (listing (bids w) dir).

(** A specification folder that holds the scans specification only, with
    the two mapping rows that feed the acquisition time. *)
Definition sample_scans_lines : list spec_line :=
  [ {| spec_study := Some "EXAMDATE"; spec_location := Some "aibl_mri3meta_*.csv";
       spec_bids := Some "acq_time";
       spec_modalities := Some "T1/DWI/fMRI/FMAP" |};
    {| spec_study := Some "EXAMDATE"; spec_location := Some "aibl_mrimeta_*.csv";
       spec_bids := Some "acq_time";
       spec_modalities := Some "T1/DWI/fMRI/FMAP" |} ].

Definition sample_scans_folder : specifications_folder := fun filename =>
  if String.eqb filename "scans.tsv" then Some sample_scans_lines else None.

(** ** Observing the sessions tables *)

(** Every row of [rows'] comes from a row of [rows] that has its label and
    its cell in the column [name]. *)
Definition rows_from (name : string) (rows rows' : list (string * odict cell))
  : Prop :=
  ∀ r', In r' rows' →
        ∃ r, In r rows ∧ r'.1 = r.1 ∧ row_cell name r'.2 = row_cell name r.2.

(** Every row holds its own label in the session column, or nothing. *)
Definition session_labelled (rows : list (string * odict cell)) : Prop :=
  ∀ r, In r rows →
       row_cell "session_id" r.2 = Some (VStr r.1)
       ∨ isna (row_cell "session_id" r.2) = true.

(** The order [sort_index] sorts the labels by. *)
Definition label_le (a b : string) : Prop := String.leb a b = true.

(** ** Observing the scans dictionary *)

(** The keys of a scans dictionary: for every subject its sessions, for
    every session its modality groups. *)
Definition skeleton (d : scans_dictionary) : odict (odict (list string)) :=
  omap_values (omap_values okeys) d.

(** ** Observing the scans tables *)





(** * Properties *)

(** ** Dictionaries *)

Lemma oget_oset_eq {V} (k : string) (v : V) (d : odict V) :
  oget k (oset k v d) = Some v.
Proof.
  induction d as [|[k' v'] d IH]; simpl.
  - by rewrite String.eqb_refl.
  - destruct (String.eqb k k') eqn:E; simpl; rewrite E; [done | exact IH].
Qed.

Lemma oget_oset_ne {V} (k k' : string) (v : V) (d : odict V) :
  k ≠ k' → oget k (oset k' v d) = oget k d.
Proof.
  intros Hne. induction d as [|[k2 v2] d IH]; simpl.
  - destruct (String.eqb_spec k k'); [congruence | done].
  - destruct (String.eqb_spec k' k2) as [->|Hk]; simpl.
    + destruct (String.eqb_spec k k2); [congruence | done].
    + destruct (String.eqb_spec k k2); [done | exact IH].
Qed.

Lemma oget_odel_eq {V} (k : string) (d : odict V) : oget k (odel k d) = None.
Proof.
  induction d as [|[k' v'] d IH]; simpl; [done|].
  destruct (String.eqb_spec k' k) as [->|Hk]; simpl; [exact IH|].
  destruct (String.eqb_spec k k'); [congruence | exact IH].
Qed.

Lemma oget_odel_ne {V} (k k' : string) (d : odict V) :
  k ≠ k' → oget k (odel k' d) = oget k d.
Proof.
  intros Hne. induction d as [|[k2 v2] d IH]; simpl; [done|].
  destruct (String.eqb_spec k2 k') as [->|Hk]; simpl.
  - destruct (String.eqb_spec k k'); [congruence | exact IH].
  - destruct (String.eqb_spec k k2); [done | exact IH].
Qed.

Lemma oget_Some_In {V} (k : string) (v : V) (d : odict V) :
  oget k d = Some v → In (k, v) d.
Proof.
  induction d as [|[k' v'] d IH]; simpl; [done|].
  destruct (String.eqb_spec k k') as [->|Hk].
  - intros [= ->]. by left.
  - intros Hg. right. by apply IH.
Qed.

Lemma oget_Some_key {V} (k : string) (v : V) (d : odict V) :
  oget k d = Some v → In k (okeys d).
Proof.
  intros Hg. apply oget_Some_In in Hg. unfold okeys.
  apply in_map_iff. by exists (k, v).
Qed.

Lemma oget_None_not_key {V} (k : string) (d : odict V) :
  oget k d = None ↔ ¬ In k (okeys d).
Proof.
  induction d as [|[k' v'] d IH]; simpl; [tauto|].
  destruct (String.eqb_spec k k') as [->|Hk]; split; try done.
  - intros Hn. exfalso. apply Hn. by left.
  - intros Hg [->|Hin]; [done|]. by apply IH in Hg.
  - intros Hn. apply IH. intros Hin. apply Hn. by right.
Qed.

Lemma okeys_is_Some {V} (k : string) (d : odict V) :
  In k (okeys d) → is_Some (oget k d).
Proof.
  intros Hin. destruct (oget k d) eqn:E; [by eexists|].
  by apply oget_None_not_key in E.
Qed.

(** ** The monads *)

Lemma bindR_Ok {A B} (m : result A) (f : A → result B) (b : B) :
  bindR m f = Ok b → ∃ a, m = Ok a ∧ f a = Ok b.
Proof. destruct m as [a|e]; simpl; [eauto | discriminate]. Qed.

Lemma bindIO_Ok {A B} (m : io A) (f : A → io B) (w w' : world) (b : B) :
  bindIO m f w = (Ok b, w') → ∃ a w1, m w = (Ok a, w1) ∧ f a w1 = (Ok b, w').
Proof.
  unfold bindIO. destruct (m w) as [[a|e] w1]; [eauto | discriminate].
Qed.

Lemma lift_Ok {A} (r : result A) (w w' : world) (a : A) :
  lift r w = (Ok a, w') → r = Ok a ∧ w' = w.
Proof. unfold lift. by intros [= -> ->]. Qed.

Lemma retIO_Ok {A} (a b : A) (w w' : world) :
  retIO a w = (Ok b, w') → b = a ∧ w' = w.
Proof. unfold retIO. by intros [= -> ->]. Qed.

(** Splits a successful run of a chain of binds into its steps. *)
Ltac inv_run :=
  cbv beta in *;
  repeat match goal with
  | H : bindIO _ _ _ = (Ok _, _) |- _ =>
      let a := fresh "a" in let w := fresh "w" in
      let H1 := fresh "Hrun" in let H2 := fresh "Hrun" in
      apply bindIO_Ok in H as (a & w & H1 & H2)
  | H : lift _ _ = (Ok _, _) |- _ =>
      let H1 := fresh "Hres" in
      apply lift_Ok in H as [H1 ->]
  | H : retIO _ _ = (Ok _, _) |- _ => apply retIO_Ok in H as [-> ->]
  | H : bindR _ _ = Ok _ |- _ =>
      let a := fresh "a" in
      let H1 := fresh "Hres" in let H2 := fresh "Hres" in
      apply bindR_Ok in H as (a & H1 & H2)
  | H : Ok _ = Ok _ |- _ => injection H as H; try subst
  | H : Raise _ = Ok _ |- _ => discriminate H
  | H : (Raise _, _) = (Ok _, _) |- _ => discriminate H
  end.


Lemma foldIO_invariant {A S} (P : S → world → Prop) (f : S → A → io S)
    (xs : list A) (s s' : S) (w w' : world) :
  (∀ s x s' w w', In x xs → f s x w = (Ok s', w') → P s w → P s' w') →
  foldIO f xs s w = (Ok s', w') → P s w → P s' w'.
Proof.
  revert s w. induction xs as [|x xs IH]; simpl; intros s w Hstep Hrun Hs.
  - apply retIO_Ok in Hrun as [-> ->]. done.
  - apply bindIO_Ok in Hrun as (s1 & w1 & H1 & H2).
    apply (IH s1 w1); [intros; eapply Hstep; eauto | done |].
    eapply Hstep; eauto.
Qed.

Lemma forIO_invariant {A} (P : world → Prop) (f : A → io unit)
    (xs : list A) (w w' : world) :
  (∀ x w w', In x xs → f x w = (Ok (), w') → P w → P w') →
  forIO f xs w = (Ok (), w') → P w → P w'.
Proof.
  revert w. induction xs as [|x xs IH]; simpl; intros w Hstep Hrun Hw.
  - apply retIO_Ok in Hrun as [_ ->]. done.
  - apply bindIO_Ok in Hrun as ([] & w1 & H1 & H2).
    apply (IH w1); [intros; eapply Hstep; eauto | done |].
    eapply Hstep; eauto.
Qed.

(** ** C6: the diagnosis mapping *)

(** C6. The diagnosis mapping sends 1 to "CN", 2 to "MCI", 3 to "AD" and
    every other cell to "n/a": 4, the strings, the missing-value code -4,
    not-a-number and a missing value; the normalisation that runs before the
    mapping turns -4, "-4" and not-a-number into the absent marker. *)
Theorem diagnosis_mapping :
  _map_diagnosis (replace_missing (Some (VInt 1))) = "CN"
  ∧ _map_diagnosis (replace_missing (Some (VInt 2))) = "MCI"
  ∧ _map_diagnosis (replace_missing (Some (VInt 3))) = "AD"
  ∧ _map_diagnosis (replace_missing (Some (VInt 4))) = "n/a"
  ∧ _map_diagnosis (replace_missing (Some (VInt (-4)))) = "n/a"
  ∧ _map_diagnosis (replace_missing (Some VNaN)) = "n/a"
  ∧ _map_diagnosis (replace_missing None) = "n/a"
  ∧ replace_missing (Some (VInt (-4))) = None
  ∧ replace_missing (Some (VStr "-4")) = None
  ∧ replace_missing (Some VNaN) = None
  ∧ ∀ c : cell,
      _map_diagnosis (replace_missing c) =
        if bool_decide (c = Some (VInt 1)) then "CN"
        else if bool_decide (c = Some (VInt 2)) then "MCI"
        else if bool_decide (c = Some (VInt 3)) then "AD"
        else "n/a".
Proof.
  repeat split; try reflexivity.
  intros [[z|s|]|]; try reflexivity.
  - unfold replace_missing.
    destruct (Z.eqb_spec z (-4)) as [->|Hz]; [reflexivity|].
    repeat case_bool_decide; simplify_eq; try reflexivity.
    simpl. destruct z as [|p|p]; try reflexivity.
    destruct p as [[p|p|]|[p|p|]|]; try reflexivity; try congruence.
  - unfold replace_missing. destruct (String.eqb s "-4"); reflexivity.
Qed.

(** ** C2: malformed lines of the flutemeta file *)








(** ** C3: a stored value is not written over *)






Section Scans.
Context `{Collaborators}.




End Scans.


(** ** C8: a lookup that does not find exactly one row *)

Lemma item_not_single {A} (l : list A) : length l ≠ 1%nat → item l = Raise ValueError.
Proof. destruct l as [|x [|y l]]; simpl; [done | lia | done]. Qed.

Lemma store_field (row : scan_mapping) (new : value)
    (groups : odict (odict value)) (fields : odict value) :
  oget (sm_modalities row) groups = Some fields →
  ∃ groups', store row new groups = Ok groups'
    ∧ field groups' (sm_modalities row) (sm_bids row)
      = Some (match oget (sm_bids row) fields with
              | Some old => if value_eqb old (VStr NA) then new else old
              | None => new
              end).
Proof.
  intros Hg. unfold store, oitem, field. rewrite Hg. simpl.
  eexists; split; [done|]. rewrite oget_oset_eq. simpl.
  unfold write_field.
  destruct (oget (sm_bids row) fields) as [old|] eqn:Hold.
  - destruct (value_eqb old (VStr NA)); [apply oget_oset_eq | done].
  - apply oget_oset_eq.
Qed.

Section Lookup.
Context `{Collaborators}.

(** C8, as the code has it.  When the rows of the file that match the
    subject's original identifier and the session are none or several, the
    lookup yields "n/a" instead of raising, the step of the loop returns,
    and the slot holds "n/a" afterwards unless it already held another
    value, which it keeps; the other sessions are untouched. *)
Theorem lookup_failure_is_missing (row : scan_mapping) (file : frame)
    (original_id session : string) (rid : Z)
    (rid_column session_column source : list value)
    (sessions : odict (odict (odict value)))
    (groups : odict (odict value)) (fields : odict value) :
  oget "RID" file = Some rid_column →
  python_int original_id = Ok rid →
  oget "session_id" file = Some session_column →
  oget (sm_study row) file = Some source →
  length (select (zip_with andb
                    (map (fun v => value_eqb v (VInt rid)) rid_column)
                    (map (fun v => value_eqb v (VStr session)) session_column))
            source) ≠ 1%nat →
  oget session sessions = Some groups →
  oget (sm_modalities row) groups = Some fields →
  lookup_value row file original_id session = Ok (VStr NA)
  ∧ ∃ sessions',
      scan_session row file original_id sessions session = Ok sessions'
      ∧ (oget session sessions'
           ≫= fun g => field g (sm_modalities row) (sm_bids row))
        = Some (match oget (sm_bids row) fields with
                | Some old => if value_eqb old (VStr NA) then VStr NA else old
                | None => VStr NA
                end)
      ∧ ∀ other, other ≠ session → oget other sessions' = oget other sessions.
Proof.
  intros Hrid Hint Hses Hsrc Hcount Hgroups Hfields.
  assert (Hlook : lookup_value row file original_id session = Ok (VStr NA)).
  { unfold lookup_value, oitem. rewrite Hrid, Hint, Hses, Hsrc. simpl.
    by rewrite (item_not_single _ Hcount). }
  split; [done|].
  destruct (store_field row (VStr NA) groups fields Hfields)
    as (groups' & Hstore & Hfield).
  exists (oset session groups' sessions).
  split; [|split].
  - unfold scan_session, oitem. rewrite Hlook, Hgroups. simpl.
    by rewrite Hstore.
  - by rewrite oget_oset_eq.
  - intros other Hne. by rewrite oget_oset_ne.
Qed.
End Lookup.

Lemma lookup_failure_is_missing_witness :
  oget "RID" sample_mrimeta_frame
  = Some [VInt 15; VInt 15; VInt 15; VInt 20]
  ∧ sample_int "15" = Ok 15
  ∧ oget "ses-M000" [("ses-M000", empty_groups)] = Some empty_groups
  ∧ oget (sm_modalities sample_second_row) empty_groups = Some []
  ∧ @lookup_value sample_collaborators sample_second_row sample_mrimeta_frame
      "15" "ses-M000" = Ok (VStr NA)
  ∧ ∃ sessions',
      @scan_session sample_collaborators sample_second_row
        sample_mrimeta_frame "15" [("ses-M000", empty_groups)] "ses-M000"
      = Ok sessions'
      ∧ (oget "ses-M000" sessions'
           ≫= fun g => field g "T1/DWI/fMRI/FMAP" "acq_time")
        = Some (VStr NA)
      ∧ ∀ other, other ≠ "ses-M000" →
          oget other sessions' = oget other [("ses-M000", empty_groups)].
Proof.
  do 4 (split; [reflexivity|]).
  refine (@lookup_failure_is_missing sample_collaborators sample_second_row
            sample_mrimeta_frame "15" "ses-M000" 15
            [VInt 15; VInt 15; VInt 15; VInt 20]
            [VStr "ses-M000"; VStr "ses-M000"; VStr "ses-M018"; VStr "ses-M000"]
            [VStr "07/02/2010"; VStr "07/03/2010"; VStr "01/05/2012";
             VStr "08/09/2010"]
            [("ses-M000", empty_groups)] empty_groups []
            _ _ _ _ _ _ _); try reflexivity.
  vm_compute. lia.
Defined.

(** C8 as stated fails: the slot already holds an acquisition time when a
    second mapping row finds no row for subject 12; the lookup yields "n/a"
    but the slot keeps the time, it does not receive "n/a". *)
Lemma lookup_failure_keeps_stored_value :
  @lookup_value sample_collaborators sample_second_row sample_mrimeta_frame
    "12" "ses-M000" = Ok (VStr NA)
  ∧ ∃ sessions',
      @scan_session sample_collaborators sample_second_row
        sample_mrimeta_frame "12" sample_filled_sessions "ses-M000"
      = Ok sessions'
      ∧ (oget "ses-M000" sessions'
           ≫= fun g => field g "T1/DWI/fMRI/FMAP" "acq_time")
        = Some (VStr "2010-06-15T00:00:00")
      ∧ (oget "ses-M000" sessions'
           ≫= fun g => field g "T1/DWI/fMRI/FMAP" "acq_time")
        ≠ Some (VStr NA).
Proof.
  split; [reflexivity|].
  eexists. split; [vm_compute; reflexivity|]. split; [reflexivity | discriminate].
Qed.

(** ** C10: the scans file of a session without modality folder *)

Lemma odel_In {V} (k k' : string) (v : V) (d : odict V) :
  In (k', v) (odel k d) → In (k', v) d.
Proof. unfold odel. intros Hin. by apply filter_In in Hin as [? _]. Qed.

Lemma odel_absent {V} (k : string) (d : odict V) :
  oget k d = None → odel k d = d.
Proof.
  induction d as [|[k' v'] d IH]; simpl; [done|].
  rewrite (String.eqb_sym k' k).
  destruct (String.eqb k k'); simpl; [done|]. intros Hg. by rewrite IH.
Qed.

Lemma to_csv_Ok (dir : path) (name : string) (c : content) (w w' : world)
    (u : unit) :
  to_csv dir name c w = (Ok u, w') →
  loaded w' = loaded w ∧ searched w' = searched w ∧ warnings w' = warnings w
  ∧ listing (bids w') dir = oset name (file c) (listing (bids w) dir)
  ∧ ∀ p, p ≠ dir → listing (bids w') p = listing (bids w) p.
Proof.
  unfold to_csv, get_bids, set_bids, listing, bindIO, lift.
  destruct (bids w !! dir) as [entries|] eqn:Hd; [|discriminate].
  destruct (oget name entries) as [[c'|]|]; try discriminate;
    intros [= _ <-]; simpl; rewrite lookup_insert_eq;
    repeat split; try done; intros p Hp; by rewrite lookup_insert_ne.
Qed.

Lemma unlink_Ok (dir : path) (name : string) (w w' : world) (u : unit) :
  unlink_missing_ok dir name w = (Ok u, w') →
  loaded w' = loaded w ∧ searched w' = searched w ∧ warnings w' = warnings w
  ∧ listing (bids w') dir = odel name (listing (bids w) dir)
  ∧ ∀ p, p ≠ dir → listing (bids w') p = listing (bids w) p.
Proof.
  unfold unlink_missing_ok, get_bids, set_bids, listing, bindIO, lift, retIO.
  destruct (bids w !! dir) as [entries|] eqn:Hd.
  - destruct (oget name entries) as [[c'|]|] eqn:Hn; try discriminate;
      intros [= _ <-]; simpl.
    + rewrite lookup_insert_eq. repeat split; try done.
      intros p Hp. by rewrite lookup_insert_ne.
    + rewrite Hd. simpl. by rewrite odel_absent.
  - intros [= _ <-]. rewrite Hd. done.
Qed.

Lemma forIO_establish {A} (I Q : world → Prop) (f : A → io unit) (x0 : A)
    (xs : list A) (w w' : world) :
  (∀ x w w', f x w = (Ok (), w') → I w → I w') →
  (∀ x w w', f x w = (Ok (), w') → I w → Q w → Q w') →
  (∀ w w', f x0 w = (Ok (), w') → I w → Q w') →
  In x0 xs → forIO f xs w = (Ok (), w') → I w → Q w'.
Proof.
  intros HI HQ H0. revert w.
  induction xs as [|x xs IH]; simpl; intros w Hin Hrun Hw; [done|].
  apply bindIO_Ok in Hrun as ([] & w1 & H1 & H2).
  destruct Hin as [->|Hin].
  - assert (HIQ : I w1 ∧ Q w1) by (split; [eapply HI | eapply H0]; eauto).
    revert H2 HIQ. apply (forIO_invariant (fun w => I w ∧ Q w)).
    intros y wa wb _ Hstep [Ha Hb]. split; [eapply HI | eapply HQ]; eauto.
  - apply (IH w1); [done | done |]. eapply HI; eauto.
Qed.

Section WriteScans.
Context `{Collaborators}.
Variables (scans_dict : scans_dictionary) (subject session : string).

Lemma write_session_elsewhere (sub ses : string) (w w' : world) :
  [sub; ses] ≠ [subject; session] →
  write_session scans_dict sub ses w = (Ok (), w') →
  listing (bids w') [subject; session] = listing (bids w) [subject; session].
Proof.
  intros Hne Hrun. unfold write_session in Hrun.
  apply bindIO_Ok in Hrun as ([] & w1 & Hunlink & Hrun).
  apply unlink_Ok in Hunlink as (_ & _ & _ & _ & Hother).
  rewrite <- (Hother [subject; session]) by done.
  apply bindIO_Ok in Hrun as (t & w2 & Hget & Hrun).
  unfold get_bids in Hget. injection Hget as <- <-.
  apply bindIO_Ok in Hrun as (df & w3 & Hfold & Hret).
  apply retIO_Ok in Hret as [_ ->].
  eapply (foldIO_invariant
            (fun (_ : list (odict value)) w =>
               listing (bids w) [subject; session]
               = listing (bids w1) [subject; session]));
    [ | exact Hfold | reflexivity ].
  intros s x s' wa wb _ Hstep Hs. inv_run.
  unfold get_bids in *. simplify_eq.
  match goal with Hcsv : to_csv _ _ _ _ = _ |- _ =>
    apply to_csv_Ok in Hcsv as (_ & _ & _ & _ & Hp) end.
  by rewrite Hp.
Qed.

Lemma write_session_here (w w' : world) :
  write_session scans_dict subject session w = (Ok (), w') →
  no_modality_folder subject session w → no_modality_folder subject session w' ∧ no_scans_file subject session w'.
Proof.
  intros Hrun Hinv. unfold write_session in Hrun.
  apply bindIO_Ok in Hrun as ([] & w1 & Hunlink & Hrun).
  apply unlink_Ok in Hunlink as (_ & _ & _ & Hhere & _).
  apply bindIO_Ok in Hrun as (t & w2 & Hget & Hrun).
  unfold get_bids in Hget. injection Hget as <- <-.
  apply bindIO_Ok in Hrun as (df & w3 & Hfold & Hret).
  apply retIO_Ok in Hret as [_ ->].
  assert (Hinv1 : no_modality_folder subject session w1).
  { intros name n Hin. rewrite Hhere in Hin. apply odel_In in Hin.
    by apply Hinv. }
  destruct (List.filter
              (fun entry : string * node =>
                 bool_decide (entry.1 ∈ supported_modalities))
              (listing (bids w1) [subject; session]))
    as [|[name n] rest] eqn:Hmods.
  - simpl in Hfold. apply retIO_Ok in Hfold as [_ ->].
    split; [done|]. unfold no_scans_file. rewrite Hhere. apply oget_odel_eq.
  - exfalso.
    assert (Hin : In (name, n) (List.filter
              (fun entry : string * node =>
                 bool_decide (entry.1 ∈ supported_modalities))
              (listing (bids w1) [subject; session])))
      by (rewrite Hmods; by left).
    apply filter_In in Hin as [Hin Hsup]. simpl in Hsup.
    apply bool_decide_eq_true in Hsup. apply list_elem_of_In in Hsup.
    specialize (Hinv1 name n Hin Hsup).
    destruct n as [c|]; [|done].
    simpl in Hfold. unfold bindIO at 1 in Hfold.
    unfold bindIO at 1 in Hfold. simpl in Hfold. discriminate.
Qed.

Lemma write_session_step (sub ses : string) (w w' : world) :
  write_session scans_dict sub ses w = (Ok (), w') →
  no_modality_folder subject session w →
  no_modality_folder subject session w'
  ∧ (no_scans_file subject session w → no_scans_file subject session w')
  ∧ (sub = subject → ses = session → no_scans_file subject session w').
Proof.
  intros Hrun Hinv.
  destruct (decide ([sub; ses] = [subject; session])) as [Heq|Hne].
  - injection Heq as -> ->.
    destruct (write_session_here w w' Hrun Hinv) as [? ?]. done.
  - pose proof (write_session_elsewhere sub ses w w' Hne Hrun) as Hsame.
    unfold no_modality_folder, no_scans_file. rewrite Hsame.
    repeat split; try done. intros -> ->. done.
Qed.

(** C10. Every session of the scans dictionary has its scans file deleted
    first; when its folder holds no subdirectory named anat, dwi, func or
    pet, none is written, so that after the run the session has no scans
    file, whether or not one was there before. *)
Theorem scans_file_removed (sessions : odict (odict (odict value)))
    (w w' : world) :
  oget subject scans_dict = Some sessions →
  In session (okeys sessions) →
  no_modality_folder subject session w →
  _write_scans_tsv scans_dict w = (Ok (), w') →
  oget (scans_file_name subject session)
    (listing (bids w') [subject; session]) = None.
Proof.
  intros Hsub Hses Hinv Hrun. unfold _write_scans_tsv in Hrun.
  assert (Hbody : ∀ sub w1 w2,
    bindIO (lift (oitem sub scans_dict))
      (fun sessions => forIO (write_session scans_dict sub) (okeys sessions))
      w1 = (Ok (), w2) →
    no_modality_folder subject session w1 →
    no_modality_folder subject session w2 ∧ (no_scans_file subject session w1 → no_scans_file subject session w2)).
  { intros sub w1 w2 Hb Hi. inv_run.
    match goal with Hf : forIO _ _ _ = _ |- _ =>
      eapply (forIO_invariant
                (fun w => no_modality_folder subject session w
                          ∧ (no_scans_file subject session w1 → no_scans_file subject session w)));
        [ | exact Hf | by split ]
    end.
    intros ses wb wc _ Hstep [Hb1 Hb2].
    destruct (write_session_step sub ses wb wc Hstep Hb1) as (? & ? & _).
    split; [done|]. intros. eauto. }
  revert Hrun Hinv.
  apply (forIO_establish (no_modality_folder subject session)
           (no_scans_file subject session)
           (fun sub => bindIO (lift (oitem sub scans_dict))
              (fun sessions =>
                 forIO (write_session scans_dict sub) (okeys sessions)))
           subject).
  - intros sub w1 w2 Hb Hi. by destruct (Hbody sub w1 w2 Hb Hi).
  - intros sub w1 w2 Hb Hi Hq. destruct (Hbody sub w1 w2 Hb Hi); eauto.
  - intros w1 w2 Hb Hi. inv_run.
    unfold oitem in *. rewrite Hsub in *. simplify_eq.
    match goal with Hf : forIO _ _ _ = _ |- _ => revert Hf Hi end.
    apply (forIO_establish (no_modality_folder subject session)
           (no_scans_file subject session)
             (write_session scans_dict subject) session); [| | |done].
    + intros ses wa wb Hstep Ha.
      by destruct (write_session_step subject ses wa wb Hstep Ha).
    + intros ses wa wb Hstep Ha Hq.
      destruct (write_session_step subject ses wa wb Hstep Ha) as (_ & ? & _).
      eauto.
    + intros wa wb Hstep Ha.
      destruct (write_session_step subject session wa wb Hstep Ha)
        as (_ & _ & ?). eauto.
  - eapply oget_Some_key; eauto.
Qed.
End WriteScans.

Lemma scans_file_removed_witness :
  oget "sub-AIBL12" sample_after_first
  = Some [("ses-M000",
           [("T1/DWI/fMRI/FMAP", [("acq_time", VStr "2010-06-15T00:00:00")]);
            ("11CPIB", []); ("18FAV45", []); ("18FFMM", [])])]
  ∧ oget (scans_file_name "sub-AIBL12" "ses-M000")
      (listing (bids sample_world) ["sub-AIBL12"; "ses-M000"])
    = Some (file other_content)
  ∧ no_modality_folder "sub-AIBL12" "ses-M000" sample_world
  ∧ ∃ w',
      @_write_scans_tsv sample_collaborators sample_after_first sample_world
      = (Ok (), w')
      ∧ oget (scans_file_name "sub-AIBL12" "ses-M000")
          (listing (bids w') ["sub-AIBL12"; "ses-M000"]) = None.
Proof.
  assert (Hno : no_modality_folder "sub-AIBL12" "ses-M000" sample_world).
  { intros name n Hin Hsup. vm_compute in Hin.
    destruct Hin as [Heq|[Heq|[]]]; injection Heq as <- <-; discriminate. }
  split; [reflexivity|]. split; [reflexivity|]. split; [exact Hno|].
  eexists. split; [vm_compute; reflexivity|].
  refine (@scans_file_removed sample_collaborators sample_after_first
            "sub-AIBL12" "ses-M000" _ sample_world _ _ _ Hno _);
    [reflexivity | simpl; by left | vm_compute; reflexivity].
Defined.

(** ** C4: the age at the examination *)





Lemma string_of_chars_nonempty (c : ascii) (cs : list ascii) :
  String.eqb (string_of_chars (c :: cs)) "" = false.
Proof. reflexivity. Qed.



Lemma mapR_Forall2 {A B} (f : A → result B) (xs : list A) (ys : list B) :
  mapR f xs = Ok ys → Forall2 (fun x y => f x = Ok y) xs ys.
Proof.
  revert ys. induction xs as [|x xs IH]; simpl; intros ys Hrun.
  - injection Hrun as <-. constructor.
  - inv_run. constructor; [done|]. by apply IH.
Qed.


Lemma row_cell_oset_eq (name : string) (v : cell) (row : odict cell) :
  row_cell name (oset name v row) = v.
Proof. unfold row_cell. by rewrite oget_oset_eq. Qed.

Lemma row_cell_oset_ne (name name' : string) (v : cell) (row : odict cell) :
  name ≠ name' → row_cell name (oset name' v row) = row_cell name row.
Proof. intros Hne. unfold row_cell. by rewrite oget_oset_ne. Qed.

Lemma row_cell_odel_ne (name name' : string) (row : odict cell) :
  name ≠ name' → row_cell name (odel name' row) = row_cell name row.
Proof. intros Hne. unfold row_cell. by rewrite oget_odel_ne. Qed.


Lemma length_set_column (name : string) (values : list cell) (df : sessions_table) :
  length values = length (s_rows df) →
  length (s_rows (set_column name values df)) = length (s_rows df).
Proof.
  intros Hlen. unfold set_column. simpl. rewrite length_zip_with. lia.
Qed.


Lemma length_column (name : string) (df : sessions_table) :
  length (column name df) = length (s_rows df).
Proof. unfold column. apply length_fmap. Qed.

Lemma length_ffill_from (last : cell) (cs : list cell) :
  length (ffill_from last cs) = length cs.
Proof.
  revert last. induction cs as [|c cs IH]; simpl; intros last; [done|].
  destruct (isna c); simpl; by rewrite IH.
Qed.

Lemma drop_column_gone (name : string) (df : sessions_table) :
  ¬ In name (s_columns (drop_column name df))
  ∧ ∀ r, In r (s_rows (drop_column name df)) → oget name r.2 = None.
Proof.
  unfold drop_column. simpl. split.
  - intros [_ Hf]%filter_In. by rewrite String.eqb_refl in Hf.
  - intros r Hin. apply list_elem_of_In, list_elem_of_fmap in Hin
      as (r0 & -> & _). simpl. apply oget_odel_eq.
Qed.




(** ** C5: sessions the BIDS tree does not know *)

#[local] Arguments String.eqb : simpl never.

Lemma alive_labels_cons (r : string * odict cell) (rows : list (string * odict cell)) :
  alive_labels (r :: rows)
  = if alive r then r.1 :: alive_labels rows else alive_labels rows.
Proof. unfold alive_labels. simpl. by destruct (alive r). Qed.

(** Rows rewritten one by one, keeping their label and reviving no row. *)
Lemma alive_labels_zip_with {A} (g : string * odict cell → A → string * odict cell)
    (rows : list (string * odict cell)) (vs : list A) :
  (∀ r v, (g r v).1 = r.1) →
  (∀ r v, In r rows → alive (g r v) = true → alive r = true) →
  alive_labels (zip_with g rows vs) ⊆+ alive_labels rows.
Proof.
  intros Hlabel. revert vs.
  induction rows as [|r rows IH]; intros vs Halive; [by destruct vs|].
  destruct vs as [|v vs]; [apply submseteq_nil_l|].
  simpl. rewrite !alive_labels_cons.
  assert (IH' : alive_labels (zip_with g rows vs) ⊆+ alive_labels rows).
  { apply IH. intros r' v' Hin. apply Halive. by right. }
  destruct (alive (g r v)) eqn:Hg.
  - rewrite (Halive r v (or_introl eq_refl) Hg), Hlabel.
    by apply submseteq_skip.
  - destruct (alive r); [by apply submseteq_cons | done].
Qed.

Lemma alive_labels_map (g : string * odict cell → string * odict cell)
    (rows : list (string * odict cell)) :
  (∀ r, (g r).1 = r.1) →
  (∀ r, In r rows → alive (g r) = true → alive r = true) →
  alive_labels (map g rows) ⊆+ alive_labels rows.
Proof.
  intros Hlabel Halive.
  replace (map g rows) with (zip_with (fun r (_ : unit) => g r) rows
                               (replicate (length rows) ())).
  - apply alive_labels_zip_with; [auto | intros r v; apply Halive].
  - clear. induction rows as [|r rows IH]; simpl; [done | by rewrite IH].
Qed.

Lemma alive_labels_app (rows rows' : list (string * odict cell)) :
  alive_labels (rows ++ rows') = alive_labels rows ++ alive_labels rows'.
Proof. unfold alive_labels. by rewrite List.filter_app, map_app. Qed.

Lemma insert_row_Permutation {A} (r : string * A) (rows : list (string * A)) :
  insert_row r rows ≡ₚ r :: rows.
Proof.
  induction rows as [|r' rows IH]; simpl; [done|].
  destruct (String.leb r.1 r'.1); [done|].
  rewrite IH. apply Permutation_swap.
Qed.

Lemma sort_rows_Permutation {A} (rows : list (string * A)) :
  foldr insert_row [] rows ≡ₚ rows.
Proof.
  induction rows as [|r rows IH]; simpl; [done|].
  by rewrite insert_row_Permutation, IH.
Qed.

Lemma alive_labels_Permutation (rows rows' : list (string * odict cell)) :
  rows ≡ₚ rows' → alive_labels rows ≡ₚ alive_labels rows'.
Proof.
  induction 1 as [|r l l' _ IH|r r' l|l l' l'' _ IH1 _ IH2].
  - done.
  - rewrite !alive_labels_cons. destruct (alive r); by rewrite IH.
  - rewrite !alive_labels_cons.
    destruct (alive r), (alive r'); try done. apply Permutation_swap.
  - by etrans.
Qed.

Lemma row_cell_app (name : string) (row extra : odict cell) :
  is_Some (oget name row) → row_cell name (row ++ extra) = row_cell name row.
Proof.
  intros [v Hv]. unfold row_cell.
  induction row as [|[k c] row IH]; simpl in *; [done|].
  destruct (String.eqb name k); [done | by apply IH].
Qed.

Lemma oget_app_is_Some {V} (name : string) (row extra : odict V) :
  is_Some (oget name row) → is_Some (oget name (row ++ extra)).
Proof.
  induction row as [|[k c] row IH]; simpl; [by intros [? ?]|].
  destruct (String.eqb name k); [done | exact IH].
Qed.

Lemma row_cell_map_values (f : cell → cell) (name : string) (row : odict cell) :
  f None = None →
  row_cell name (map (fun kv => (kv.1, f kv.2)) row) = f (row_cell name row).
Proof.
  intros Hf. unfold row_cell.
  induction row as [|[k c] row IH]; simpl; [done|].
  destruct (String.eqb name k); [done | exact IH].
Qed.

Lemma replace_missing_isna (c : cell) :
  isna c = true → isna (replace_missing c) = true.
Proof. destruct c as [[z|s|]|]; try done. Qed.

Lemma In_zip_with {A B C} (g : A → B → C) (l : list A) (k : list B) (x : C) :
  In x (zip_with g l k) → ∃ a b, In a l ∧ In b k ∧ x = g a b.
Proof.
  revert k. induction l as [|a l IH]; intros [|b k]; simpl; try done.
  intros [<-|Hin].
  - exists a, b. tauto.
  - destruct (IH k Hin) as (a' & b' & ? & ? & ->). exists a', b'. tauto.
Qed.

Lemma blank_session_id (cols : list string) :
  In "session_id" cols →
  oget "session_id" (map (fun c => (c, Some VNaN)) cols) = Some (Some VNaN).
Proof.
  induction cols as [|c cols IH]; simpl; [done|].
  destruct (String.eqb_spec "session_id" c) as [|Hne]; [done|].
  intros [Heq|Hin]; [congruence | by apply IH].
Qed.

Lemma alive_app (r : string * odict cell) (extra : odict cell) :
  is_Some (oget "session_id" r.2) →
  alive (r.1, r.2 ++ extra) = alive r.
Proof. intros HK. unfold alive. simpl. by rewrite row_cell_app. Qed.

Lemma concat_axis1_invariant (known : list string) (t t' : sessions_table)
    (data : string * list (string * value)) :
  concat_axis1 t data = Ok t' →
  joined_invariant known t → joined_invariant known t'.
Proof.
  unfold concat_axis1. intros Hrun (Hcol & HK & Hsub).
  destruct (bool_decide _).
  - injection Hrun as <-. simpl. split; [|split].
    + apply in_or_app. by left.
    + intros r' Hin. apply In_zip_with in Hin as (r & d & Hr & _ & ->).
      simpl. apply oget_app_is_Some. by apply HK.
    + etrans; [|exact Hsub].
      apply alive_labels_zip_with; [done|].
      intros r d Hr. rewrite (alive_app r) by (by apply HK). done.
  - destruct (bool_decide _ && bool_decide _); [|discriminate].
    injection Hrun as <-. simpl.
    set (blank := map (fun c => (c, Some VNaN)) (s_columns t)).
    set (fresh := List.filter _ _).
    assert (HK' : ∀ r, In r (s_rows t ++ map (fun l => (l, blank)) fresh) →
                       is_Some (oget "session_id" r.2)).
    { intros r [Hr|Hr]%in_app_or; [by apply HK|].
      apply in_map_iff in Hr as (l & <- & _). simpl.
      unfold blank. rewrite blank_session_id by done. by eexists. }
    split; [|split].
    + apply in_or_app. by left.
    + intros r' Hin. apply in_map_iff in Hin as (r & <- & Hr).
      simpl. apply oget_app_is_Some. by apply HK'.
    + etrans; [apply alive_labels_map|].
      * done.
      * intros r Hr. rewrite (alive_app r) by (by apply HK'). done.
      * rewrite alive_labels_app.
        match goal with |- _ ++ ?x ⊆+ _ => replace x with (@nil string) end.
        { by rewrite app_nil_r. }
        clear -Hcol. unfold alive_labels.
        induction fresh as [|l fresh IH]; simpl; [done|].
        unfold alive at 1. unfold row_cell. simpl.
        unfold blank at 1. rewrite blank_session_id by done. simpl. exact IH.
Qed.

Lemma alive_oset (name : string) (v : cell) (r : string * odict cell) :
  name ≠ "session_id" → alive (r.1, oset name v r.2) = alive r.
Proof.
  intros Hne. unfold alive. simpl. by rewrite row_cell_oset_ne.
Qed.

Lemma alive_labels_set_column (name : string) (values : list cell)
    (df : sessions_table) :
  name ≠ "session_id" →
  alive_labels (s_rows (set_column name values df)) ⊆+ alive_labels (s_rows df).
Proof.
  intros Hne. unfold set_column. simpl.
  apply alive_labels_zip_with; [done|].
  intros r v _. by rewrite alive_oset.
Qed.

Lemma alive_labels_drop_column (name : string) (df : sessions_table) :
  name ≠ "session_id" →
  alive_labels (s_rows (drop_column name df)) ⊆+ alive_labels (s_rows df).
Proof.
  intros Hne. unfold drop_column. simpl.
  apply alive_labels_map; [done|].
  intros r _. unfold alive. simpl. by rewrite row_cell_odel_ne.
Qed.

Lemma alive_labels_set_age (df df' : sessions_table) :
  _set_age_from_birth df = Ok df' →
  alive_labels (s_rows df') ⊆+ alive_labels (s_rows df).
Proof.
  unfold _set_age_from_birth. intros Hrun.
  destruct (negb _ || negb _); [discriminate|].
  apply bindR_Ok in Hrun as (df1 & Hbranch & Hdrop). injection Hdrop as <-.
  etrans; [by apply alive_labels_drop_column|].
  destruct (_ <=? _)%nat.
  - apply bindR_Ok in Hbranch as (ages & _ & Hset). injection Hset as <-.
    etrans; [by apply alive_labels_set_column|].
    by apply alive_labels_set_column.
  - injection Hbranch as <-. by apply alive_labels_set_column.
Qed.

Lemma alive_labels_replace_missing (df : sessions_table) :
  alive_labels (s_rows (map_rows (map (fun kv => (kv.1, replace_missing kv.2))) df))
  ⊆+ alive_labels (s_rows df).
Proof.
  unfold map_rows. simpl. apply alive_labels_map; [done|].
  intros r _. unfold alive. simpl.
  rewrite (row_cell_map_values replace_missing) by done.
  destruct (isna (row_cell "session_id" r.2)) eqn:Hna; [|done].
  by rewrite replace_missing_isna.
Qed.

Lemma alive_labels_initial (known : list string) :
  alive_labels (map (fun s => (s, [("session_id", Some (VStr s))])) known) = known.
Proof.
  unfold alive_labels. induction known as [|s known IH]; simpl; [done|].
  by rewrite IH.
Qed.

Section Sessions.
Context `{Collaborators}.

(** C5. The table written for a subject has a row only for sessions the
    BIDS tree knows for that subject: the labels of its rows are among the
    known sessions, each at most as often as it is known, so that the table
    has at most as many rows as the subject has known sessions.  A row that
    the join admitted for a visit without BIDS session is not in it. *)
Theorem sessions_within_bids (clinical_data_dir : clinical_directory)
    (specifications : list mapping) (bids_id written_id : string)
    (t : sessions_table) (w w' : world) :
  sessions_for_subject clinical_data_dir specifications bids_id w
  = (Ok (written_id, t), w') →
  map fst (s_rows t)
    ⊆+ get_sessions_for_subject_in_bids_dataset (bids w) bids_id
  ∧ (∀ r, In r (s_rows t) →
          In r.1 (get_sessions_for_subject_in_bids_dataset (bids w) bids_id))
  ∧ (length (s_rows t)
     ≤ length (get_sessions_for_subject_in_bids_dataset (bids w) bids_id))%nat.
Proof.
  intros Hrun.
  set (known := get_sessions_for_subject_in_bids_dataset (bids w) bids_id).
  assert (Hsub : map fst (s_rows t) ⊆+ known).
  { unfold sessions_for_subject in Hrun.
    apply bindIO_Ok in Hrun as (original & w1 & Horig & Hrun).
    apply lift_Ok in Horig as [_ ->].
    apply bindIO_Ok in Hrun as (rid & w1 & Hrid & Hrun).
    apply lift_Ok in Hrid as [_ ->].
    apply bindIO_Ok in Hrun as (t0 & w1 & Hget & Hrun).
    unfold get_bids in Hget. injection Hget as <- <-.
    fold known in Hrun.
    apply bindIO_Ok in Hrun as (joined & w1 & Hjoin & Hrun).
    assert (Hinv : joined_invariant known joined).
    { eapply (foldIO_invariant (fun s _ => joined_invariant known s));
        [ | exact Hjoin | ].
      - intros s row s' wa wb _ Hstep Hs. inv_run.
        eapply concat_axis1_invariant; eauto.
      - split; [by left|]. split.
        + intros r Hr. apply in_map_iff in Hr as (s & <- & _). by eexists.
        + simpl. by rewrite alive_labels_initial. }
    destruct Hinv as (_ & _ & Hjoined).
    apply bindIO_Ok in Hrun as (? & w2 & _ & Hrun).
    apply bindIO_Ok in Hrun as (dates & w3 & _ & Hrun).
    apply bindIO_Ok in Hrun as (aged & w4 & Hage & Hrun).
    apply lift_Ok in Hage as [Hage ->].
    apply bindIO_Ok in Hrun as (id' & w4 & _ & Hrun).
    apply retIO_Ok in Hrun as [[= -> ->] _].
    unfold map_rows, dropna_session_id. cbn [s_rows].
    rewrite map_map. cbn [fst].
    change (map (fun x : string * odict cell => x.1)
              (List.filter
                 (fun r => negb (isna (row_cell "session_id" r.2)))
                 (s_rows aged)))
      with (alive_labels (s_rows aged)).
    etrans; [by eapply alive_labels_set_age|].
    etrans; [by apply alive_labels_set_column|].
    etrans; [by apply alive_labels_set_column|].
    etrans; [apply alive_labels_replace_missing|].
    unfold sort_index. cbn [s_rows].
    rewrite (alive_labels_Permutation _ _ (sort_rows_Permutation _)).
    exact Hjoined. }
  split; [done|]. split.
  - intros r Hr. apply list_elem_of_In.
    eapply elem_of_submseteq; [|exact Hsub].
    apply list_elem_of_In, in_map_iff. by exists r.
  - apply submseteq_length in Hsub. by rewrite length_map in Hsub.
Qed.
End Sessions.

(** Subject 15 has a clinical row for month 36 and no such session in the
    BIDS tree: the written table has the two known sessions only. *)
Lemma sessions_within_bids_witness :
  @get_sessions_for_subject_in_bids_dataset sample_collaborators
    (bids sample_world) "sub-AIBL15" = ["ses-M000"; "ses-M018"]
  ∧ ∃ t w',
      @sessions_for_subject sample_collaborators sample_clinical_dir
        sample_sessions_spec "sub-AIBL15" sample_world
      = (Ok ("sub-AIBL15", t), w')
      ∧ map fst (s_rows t) = ["ses-M000"; "ses-M018"]
      ∧ (∀ r, In r (s_rows t) →
              In r.1 (@get_sessions_for_subject_in_bids_dataset
                        sample_collaborators (bids sample_world) "sub-AIBL15"))
      ∧ (length (s_rows t)
         ≤ length (@get_sessions_for_subject_in_bids_dataset
                     sample_collaborators (bids sample_world) "sub-AIBL15"))%nat.
Proof.
  split; [vm_compute; reflexivity|].
  eexists _, _. split; [vm_compute; reflexivity|]. split; [reflexivity|].
  refine (proj2 (@sessions_within_bids sample_collaborators sample_clinical_dir
                   sample_sessions_spec "sub-AIBL15" "sub-AIBL15" _
                   sample_world _ _)).
  vm_compute. reflexivity.
Defined.

(** ** C9: how often the clinical files are read *)

Section Loads.
Context `{Collaborators}.

Lemma load_effects (clinical_data_dir : clinical_directory) (pattern : string)
    (policy : bad_line_policy) (f : frame) (w w' : world) :
  _load_metadata_from_pattern clinical_data_dir pattern policy w = (Ok f, w') →
  loaded w' = loaded w ++ [pattern] ∧ searched w' = searched w
  ∧ warnings w' = warnings w ∧ bids w' = bids w
  ∧ ∃ raw rest, clinical_data_dir pattern = raw :: rest
                ∧ read_csv policy raw = Ok f.
Proof.
  unfold _load_metadata_from_pattern.
  destruct (clinical_data_dir pattern) as [|raw rest]; [discriminate|].
  unfold bindIO, log_load, lift. simpl.
  destruct (read_csv policy raw) as [f'|e] eqn:Hread; [|discriminate].
  intros [= <- <-]. simpl. repeat split; eauto.
Qed.

Lemma assemble_effects (clinical_data_dir : clinical_directory)
    (rows : list mapping) (prev : string) (file_to_read : option frame)
    (df t : text_table) (w w' : world) :
  assemble clinical_data_dir rows prev file_to_read df w = (Ok t, w') →
  loaded w' = loaded w ++ location_changes prev (map m_location rows)
  ∧ searched w' = searched w ∧ warnings w' = warnings w ∧ bids w' = bids w.
Proof.
  revert prev file_to_read df w.
  induction rows as [|row rows IH]; intros prev file_to_read df w Hrun.
  - simpl in Hrun. apply retIO_Ok in Hrun as [_ ->].
    simpl. by rewrite app_nil_r.
  - simpl in Hrun.
    apply bindIO_Ok in Hrun as ([prev' file'] & w1 & Hread & Hrun).
    apply bindIO_Ok in Hrun as (f & w2 & Hf & Hrun).
    apply lift_Ok in Hf as [_ ->].
    apply bindIO_Ok in Hrun as (col & w2 & Hcol & Hrun).
    apply lift_Ok in Hcol as [_ ->].
    apply IH in Hrun as (Hl & Hs & Hw & Hb).
    rewrite Hl, Hs, Hw, Hb. simpl.
    destruct (String.eqb_spec (m_location row) prev) as [Heq|Hne];
      simpl in Hread.
    + apply retIO_Ok in Hread as [[= -> ->] ->]. by rewrite Heq.
    + apply bindIO_Ok in Hread as (f0 & w3 & Hload & Hret).
      apply retIO_Ok in Hret as [[= -> ->] ->].
      apply load_effects in Hload as (-> & -> & -> & -> & _).
      by rewrite <- app_assoc.
Qed.

Lemma foldIO_effects {A S} (f : S → A → io S) (g : A → list string)
    (xs : list A) (s s' : S) (w w' : world) :
  (∀ s x s' w w', f s x w = (Ok s', w') →
                  loaded w' = loaded w ++ g x ∧ bids w' = bids w) →
  foldIO f xs s w = (Ok s', w') →
  loaded w' = loaded w ++ concat (map g xs) ∧ bids w' = bids w.
Proof.
  intros Hstep. revert s w.
  induction xs as [|x xs IH]; simpl; intros s w Hrun.
  - apply retIO_Ok in Hrun as [_ ->]. by rewrite app_nil_r.
  - apply bindIO_Ok in Hrun as (s1 & w1 & H1 & H2).
    apply Hstep in H1 as [Hl Hb]. apply IH in H2 as [-> ->].
    by rewrite Hl, Hb, app_assoc.
Qed.

Lemma quiet_ret {A} (a : A) : quiet (retIO a).
Proof. intros w b w' Hrun. by apply retIO_Ok in Hrun as [_ ->]. Qed.

Lemma quiet_lift {A} (r : result A) : quiet (lift r).
Proof. intros w b w' Hrun. by apply lift_Ok in Hrun as [_ ->]. Qed.

Lemma quiet_get_bids : quiet get_bids.
Proof. intros w b w'. unfold get_bids. by intros [= _ <-]. Qed.

Lemma quiet_log_search : quiet log_search.
Proof. intros w b w'. unfold log_search. by intros [= _ <-]. Qed.

Lemma quiet_bind {A B} (m : io A) (f : A → io B) :
  quiet m → (∀ a, quiet (f a)) → quiet (bindIO m f).
Proof.
  intros Hm Hf w b w' Hrun.
  apply bindIO_Ok in Hrun as (a & w1 & H1 & H2).
  apply Hm in H1 as (Hl1 & Hw1 & Hb1). apply Hf in H2 as (-> & -> & ->).
  done.
Qed.

Lemma quiet_mapIO {A B} (f : A → io B) (xs : list A) :
  (∀ x, quiet (f x)) → quiet (mapIO f xs).
Proof.
  intros Hf. induction xs as [|x xs IH]; simpl; [apply quiet_ret|].
  apply quiet_bind; [apply Hf | intros y].
  apply quiet_bind; [apply IH | intros ys]. apply quiet_ret.
Qed.

Ltac quiet_step :=
  first
    [ apply quiet_ret | apply quiet_lift | apply quiet_log_search
    | apply quiet_get_bids | assumption
    | apply quiet_bind; [|intros ?]
    | match goal with
      | |- quiet (if ?b then _ else _) => destruct b
      | |- quiet (match ?x with _ => _ end) => destruct x
      end ].

Lemma quiet_find_exam_date (rid : Z) (session_id : value)
    (clinical_data_dir : clinical_directory) (patterns : list string) :
  quiet (find_exam_date rid session_id clinical_data_dir patterns).
Proof.
  induction patterns as [|p rest IH]; simpl; repeat quiet_step.
Qed.

Lemma quiet_complete_examination_dates (rid : Z)
    (clinical_data_dir : clinical_directory) (session_id examination_date : cell) :
  quiet (_complete_examination_dates rid clinical_data_dir session_id
           examination_date).
Proof.
  unfold _complete_examination_dates, _find_exam_date_in_other_csv_files.
  repeat quiet_step; apply quiet_find_exam_date.
Qed.

Lemma sessions_for_subject_effects (clinical_data_dir : clinical_directory)
    (specifications : list mapping) (bids_id : string)
    (r : string * sessions_table) (w w' : world) :
  sessions_for_subject clinical_data_dir specifications bids_id w = (Ok r, w') →
  loaded w' = loaded w ++ map m_location specifications
  ∧ bids w' = bids w.
Proof.
  unfold sessions_for_subject. intros Hrun.
  apply bindIO_Ok in Hrun as (original & w1 & Horig & Hrun).
  apply lift_Ok in Horig as [_ ->].
  apply bindIO_Ok in Hrun as (rid & w1 & Hrid & Hrun).
  apply lift_Ok in Hrid as [_ ->].
  apply bindIO_Ok in Hrun as (t0 & w1 & Hget & Hrun).
  unfold get_bids in Hget. injection Hget as <- <-.
  apply bindIO_Ok in Hrun as (joined & w1 & Hjoin & Hrun).
  apply (foldIO_effects _ (fun row => [m_location row])) in Hjoin
    as [Hl Hb].
  - assert (Hq : loaded w' = loaded w1 ∧ warnings w' = warnings w1
                 ∧ bids w' = bids w1).
    { revert Hrun. generalize w1 r w'. change (quiet ?m) with (quiet m).
      repeat quiet_step.
      apply quiet_mapIO. intros x. repeat quiet_step.
      apply quiet_complete_examination_dates. }
    destruct Hq as (-> & _ & ->). rewrite Hl, Hb. split; [|done].
    f_equal. clear. induction specifications as [|row rows IH]; simpl;
      [done | by rewrite IH].
  - intros s row s' wa wb Hstep.
    apply bindIO_Ok in Hstep as (df & wc & Hload & Hstep).
    apply load_effects in Hload as (Hl & _ & _ & Hb & _).
    inv_run. by rewrite Hl, Hb.
Qed.

End Loads.

Section Memo.
Context `{Collaborators}.

(** C9, as the code has it.  The participants builder reads a clinical
    file again whenever the location of a mapping row differs from the
    location of the row before it: what it loads is the list of the
    locations that differ from their predecessor, so that a location is
    loaded once per run of consecutive rows.  The sessions builder keeps
    nothing: it loads the location of every mapping row, for every
    subject. *)
Theorem clinical_file_loads (clinical_specifications_folder : specifications_folder)
    (clinical_data_dir : clinical_directory) (spec : list spec_line) :
  (∀ (delete_non_bids_info : bool) (t : text_table) (w w' : world),
     clinical_specifications_folder "participant.tsv" = Some spec →
     participants_table clinical_specifications_folder clinical_data_dir
       delete_non_bids_info w = (Ok t, w') →
     loaded w'
     = loaded w ++ location_changes "" (map m_location (dropna3 spec)))
  ∧ (∀ (w w' : world),
       clinical_specifications_folder "sessions.tsv" = Some spec →
       create_sessions_tsv_file clinical_data_dir
         clinical_specifications_folder w = (Ok (), w') →
       loaded w'
       = loaded w
         ++ concat (map (fun _ => map m_location (dropna3 spec))
                      (get_subjects_from_bids_dataset (bids w)))).
Proof.
  split.
  - intros flag t w w' Hspec Hrun. unfold participants_table in Hrun.
    unfold _load_specifications in Hrun. rewrite Hspec in Hrun.
    apply bindIO_Ok in Hrun as (spec' & w1 & Hl & Hrun).
    apply lift_Ok in Hl as [[= <-] ->].
    apply bindIO_Ok in Hrun as (df & w1 & Hass & Hrun).
    apply assemble_effects in Hass as (Hl & _ & _ & _).
    apply bindIO_Ok in Hrun as (df' & w2 & Hnorm & Hrun).
    apply lift_Ok in Hnorm as [_ ->].
    destruct flag.
    + unfold reconcile in Hrun.
      apply bindIO_Ok in Hrun as (t0 & w2 & Hget & Hrun).
      unfold get_bids in Hget. injection Hget as <- <-.
      apply bindIO_Ok in Hrun as (ids & w2 & Hids & Hrun).
      apply lift_Ok in Hids as [_ ->].
      apply bindIO_Ok in Hrun as (kept & w2 & Hfold & Hrun).
      assert (Hsame : loaded w2 = loaded w1).
      { eapply (foldIO_invariant (fun _ wx => loaded wx = loaded w1));
          [ | exact Hfold | done ].
        intros s x s' wa wb _ Hstep Hs. unfold reconcile_subject in Hstep.
        destruct (bool_decide _).
        - by apply retIO_Ok in Hstep as [_ ->].
        - apply bindIO_Ok in Hstep as ([] & wc & Hwarn & Hret).
          apply retIO_Ok in Hret as [_ ->].
          unfold cprint_warning in Hwarn. by injection Hwarn as <-. }
      inv_run. by rewrite Hsame.
    + by apply retIO_Ok in Hrun as [_ ->].
  - intros w w' Hspec Hrun. unfold create_sessions_tsv_file in Hrun.
    unfold _load_specifications in Hrun. rewrite Hspec in Hrun.
    apply bindIO_Ok in Hrun as (spec' & w1 & Hl & Hrun).
    apply lift_Ok in Hl as [[= <-] ->].
    apply bindIO_Ok in Hrun as (t0 & w1 & Hget & Hrun).
    unfold get_bids in Hget. injection Hget as <- <-.
    revert Hrun. generalize (get_subjects_from_bids_dataset (bids w)).
    intros subjects. revert w.
    induction subjects as [|s subjects IH]; simpl; intros w Hrun.
    + apply retIO_Ok in Hrun as [_ ->]. by rewrite app_nil_r.
    + apply bindIO_Ok in Hrun as ([] & w1 & Hbody & Hrun).
      apply bindIO_Ok in Hbody as ([id tbl] & w2 & Hsub & Hcsv).
      apply sessions_for_subject_effects in Hsub as [Hl _].
      apply to_csv_Ok in Hcsv as (Hl' & _).
      apply IH in Hrun. rewrite Hrun, Hl', Hl. by rewrite app_assoc.
Qed.
End Memo.

Lemma clinical_file_loads_witness :
  sample_spec_folder "participant.tsv" = Some sample_participant_spec
  ∧ ∃ t w',
      @participants_table sample_collaborators sample_spec_folder
        sample_clinical_dir true sample_world = (Ok t, w')
      ∧ loaded w'
        = loaded sample_world
          ++ location_changes ""
               (map m_location (dropna3 sample_participant_spec)).
Proof.
  split; [reflexivity|].
  eexists _, _. split; [vm_compute; reflexivity|].
  refine (proj1 (@clinical_file_loads sample_collaborators sample_spec_folder
                   sample_clinical_dir sample_participant_spec)
            true _ sample_world _ eq_refl _).
  vm_compute. reflexivity.
Defined.

(** C9 as stated fails: the participants specification names the
    demographics file, then another file, then the demographics file again,
    and the demographics file is read twice; the sessions builder reads each
    of its three files once per subject, twice for two subjects. *)
Lemma clinical_files_are_read_again :
  map m_location (dropna3 sample_participant_spec)
  = ["aibl_ptdemog_*.csv"; "aibl_mmse_*.csv"; "aibl_ptdemog_*.csv";
     "aibl_ptdemog_*.csv"]
  ∧ loaded (@create_participants_tsv_file sample_collaborators
              sample_spec_folder sample_clinical_dir true sample_world).2
    = ["aibl_ptdemog_*.csv"; "aibl_mmse_*.csv"; "aibl_ptdemog_*.csv"]
  ∧ (@create_participants_tsv_file sample_collaborators
       sample_spec_folder sample_clinical_dir true sample_world).1 = Ok ()
  ∧ loaded (@create_sessions_tsv_file sample_collaborators
              sample_clinical_dir sample_spec_folder sample_world).2
    = ["aibl_pdxconv_*.csv"; "aibl_mmse_*.csv"; "aibl_ptdemog_*.csv";
       "aibl_pdxconv_*.csv"; "aibl_mmse_*.csv"; "aibl_ptdemog_*.csv"]
  ∧ (@create_sessions_tsv_file sample_collaborators
       sample_clinical_dir sample_spec_folder sample_world).1 = Ok ().
Proof. repeat split; vm_compute; reflexivity. Qed.

(** ** C1 and C7: the participants table *)

Lemma In_oset {V} (k k' : string) (v v' : V) (d : odict V) :
  In (k', v') (oset k v d) → (k' = k ∧ v' = v) ∨ In (k', v') d.
Proof.
  induction d as [|[k2 v2] d IH]; simpl.
  - intros [[= <- <-]|[]]. by left.
  - destruct (String.eqb_spec k k2) as [->|Hne]; simpl.
    + intros [[= <- <-]|Hin]; [by left | right; by right].
    + intros [Heq|Hin]; [right; by left|].
      destruct (IH Hin) as [?|?]; [by left | right; by right].
Qed.

Lemma In_omap_values {V W} (f : V → W) (k : string) (v' : W) (d : odict V) :
  In (k, v') (omap_values f d) ↔ ∃ v, In (k, v) d ∧ v' = f v.
Proof.
  unfold omap_values. rewrite in_map_iff. split.
  - intros ([k0 v0] & [= <- <-] & Hin). by exists v0.
  - intros (v & Hin & ->). by exists (k, v).
Qed.

Lemma oget_omap_values {V W} (f : V → W) (k : string) (d : odict V) :
  oget k (omap_values f d) = f <$> oget k d.
Proof.
  induction d as [|[k2 v2] d IH]; simpl; [done|].
  destruct (String.eqb k k2); [done | exact IH].
Qed.

Lemma all_cells_oset (P : option string → Prop) (k : string)
    (col : list (option string)) (t : text_table) :
  all_cells P t → (∀ c, In c col → P c) → all_cells P (oset k col t).
Proof.
  intros Ht Hcol name col' c Hin Hc.
  apply In_oset in Hin as [[_ ->]|Hin]; [by apply Hcol | by eapply Ht].
Qed.

Lemma all_cells_omap_values (P : option string → Prop)
    (f : list (option string) → list (option string)) (t : text_table) :
  (∀ col c, (∀ c0, In c0 col → P c0) → In c (f col) → P c) →
  all_cells P t → all_cells P (omap_values f t).
Proof.
  intros Hf Ht name col' c Hin Hc.
  apply In_omap_values in Hin as (col & Hin & ->).
  eapply Hf; [|exact Hc]. intros c0 Hc0. by eapply Ht.
Qed.

Lemma all_cells_odel (P : option string → Prop) (k : string) (t : text_table) :
  all_cells P t → all_cells P (odel k t).
Proof. intros Ht name col c Hin. apply odel_In in Hin. by eapply Ht. Qed.

Lemma rectangular_oset (n : nat) (k : string) (col : list (option string))
    (t : text_table) :
  rectangular n t → length col = n → rectangular n (oset k col t).
Proof.
  intros Ht Hcol name col' Hin.
  apply In_oset in Hin as [[_ ->]|Hin]; [done | by eapply Ht].
Qed.

Lemma rectangular_omap_values (n m : nat)
    (f : list (option string) → list (option string)) (t : text_table) :
  (∀ col, length col = n → length (f col) = m) →
  rectangular n t → rectangular m (omap_values f t).
Proof.
  intros Hf Ht name col' Hin.
  apply In_omap_values in Hin as (col & Hin & ->). apply Hf. by eapply Ht.
Qed.

(** *** Appending the subjects without clinical data *)

Lemma zip_with_set_last (idx : list (option string)) (s : string) :
  ¬ In (Some s) idx →
  zip_with (fun l c => if bool_decide (l = Some s) then Some s else c)
    (idx ++ [Some s]) (idx ++ [Some NA])
  = idx ++ [Some s].
Proof.
  induction idx as [|l idx IH]; simpl; intros Hnot.
  - by rewrite bool_decide_eq_true_2.
  - rewrite bool_decide_eq_false_2 by (intros ->; apply Hnot; by left).
    f_equal. apply IH. intros Hin. apply Hnot. by right.
Qed.

Lemma append_missing_invariant (subject : string) (df : indexed_table) :
  indexed_invariant df → ¬ In (Some subject) (index df) →
  indexed_invariant (append_missing subject df)
  ∧ index (append_missing subject df) = index df ++ [Some subject]
  ∧ ∀ name col', In (name, col') (columns (append_missing subject df)) →
      (name = "participant_id" ∧ col' = index df ++ [Some subject])
      ∨ (∃ col, In (name, col) (columns df) ∧ col' = col ++ [Some NA]).
Proof.
  intros [Hids Hrect] Hnot. unfold append_missing. cbn [index columns].
  rewrite oget_omap_values, Hids. cbn [fmap option_fmap option_map].
  rewrite zip_with_set_last by done.
  split; [split|split].
  - cbn [index columns]. apply oget_oset_eq.
  - cbn [index columns]. rewrite length_app. simpl.
    apply rectangular_oset; [|by rewrite length_app].
    eapply rectangular_omap_values; [|exact Hrect].
    intros col Hlen. rewrite length_app, Hlen. done.
  - done.
  - intros name col' Hin. apply In_oset in Hin as [[-> ->]|Hin]; [by left|].
    right. by apply In_omap_values in Hin.
Qed.

Lemma reconcile_subject_Ok (df df' : indexed_table) (subject : string)
    (w w' : world) :
  reconcile_subject df subject w = (Ok df', w') →
  loaded w' = loaded w ∧ bids w' = bids w
  ∧ ((In (Some subject) (index df) ∧ df' = df ∧ warnings w' = warnings w)
     ∨ (¬ In (Some subject) (index df) ∧ df' = append_missing subject df
        ∧ warnings w' = warnings w ++ [subject])).
Proof.
  unfold reconcile_subject. case_bool_decide as Hin.
  - intros [-> ->]%retIO_Ok. repeat split; try done. left.
    by apply list_elem_of_In in Hin.
  - unfold bindIO, cprint_warning, retIO. intros [= <- <-]. simpl.
    repeat split; try done. right. split; [|done].
    intros Hin'. by apply list_elem_of_In in Hin'.
Qed.

Lemma reconcile_loop (subjects : list string) (df0 df : indexed_table)
    (w w' : world) :
  foldIO reconcile_subject subjects df0 w = (Ok df, w') →
  indexed_invariant df0 →
  ∃ added,
    index df = index df0 ++ map Some added
    ∧ warnings w' = warnings w ++ added
    ∧ loaded w' = loaded w ∧ bids w' = bids w
    ∧ indexed_invariant df
    ∧ (∀ s, In s added ↔ In s subjects ∧ ¬ In (Some s) (index df0))
    ∧ (∀ s, In s subjects → In (Some s) (index df))
    ∧ (∀ name col, In (name, col) (columns df) → name ≠ "participant_id" →
         ∃ col0, In (name, col0) (columns df0)
                 ∧ col = col0 ++ replicate (length added) (Some NA))
    ∧ (∀ P, all_cells P (columns df0) → P (Some NA) →
            (∀ s, In s subjects → P (Some s)) → all_cells P (columns df)).
Proof.
  revert df0 w. induction subjects as [|s subjects IH]; intros df0 w Hrun Hinv.
  - simpl in Hrun. apply retIO_Ok in Hrun as [-> ->].
    exists []. simpl. rewrite !app_nil_r. split_and!; try done.
    + intros s. tauto.
    + intros name col Hin _. exists col. by rewrite app_nil_r.
  - simpl in Hrun. apply bindIO_Ok in Hrun as (df1 & w1 & Hstep & Hrun).
    apply reconcile_subject_Ok in Hstep as (Hl & Hb & Hcase).
    destruct Hcase as [(Hin & -> & Hw)|(Hnot & -> & Hw)].
    + destruct (IH df0 w1 Hrun Hinv)
        as (added & Hidx & Hwarn & Hl' & Hb' & Hinv' & Hadded & Hall & Hcols & Hcells).
      exists added. rewrite Hwarn, Hw, Hl', Hl, Hb', Hb.
      split_and!; try done.
      * intros s'. rewrite Hadded. split; [simpl; tauto|].
        intros [[<-|Hs] Hn]; [done | tauto].
      * intros s' [<-|Hs]; [|by apply Hall].
        rewrite Hidx. apply in_or_app. by left.
      * intros P H0 HNA Hsub. apply Hcells; auto.
        intros s' Hs'. apply Hsub. by right.
    + destruct (append_missing_invariant s df0 Hinv Hnot)
        as (Hinv1 & Hidx1 & Hcols1).
      destruct (IH _ w1 Hrun Hinv1)
        as (added & Hidx & Hwarn & Hl' & Hb' & Hinv' & Hadded & Hall & Hcols & Hcells).
      exists (s :: added). rewrite Hwarn, Hw, Hl', Hl, Hb', Hb, Hidx, Hidx1.
      simpl. rewrite <- !app_assoc. simpl.
      split_and!; try done.
      * intros s'. split.
        -- intros [<-|Hs]; [split; [by left | done]|].
           apply Hadded in Hs as [Hs Hn]. split; [by right|].
           intros Hin. apply Hn. rewrite Hidx1. apply in_or_app. by left.
        -- intros [[<-|Hs] Hn]; [by left|].
           destruct (decide (s' = s)) as [->|Hne]; [by left|]. right.
           apply Hadded. split; [done|]. rewrite Hidx1.
           intros [?|[[= ?]|[]]]%in_app_or; done.
      * intros s' [<-|Hs].
        -- apply in_or_app. right. by left.
        -- apply Hall in Hs. rewrite Hidx, Hidx1, <- app_assoc in Hs. done.
      * intros name col Hin Hname.
        destruct (Hcols name col Hin Hname) as (col1 & Hin1 & ->).
        destruct (Hcols1 name col1 Hin1) as [[? _]|(col0 & Hin0 & ->)]; [done|].
        exists col0. split; [done|]. by rewrite <- app_assoc.
      * intros P H0 HNA Hsub. apply Hcells; [|done|].
        -- intros name col c Hin Hc.
           destruct (Hcols1 name col Hin) as [[_ ->]|(col0 & Hin0 & ->)].
           ++ apply in_app_or in Hc as [Hc|[<-|[]]].
              ** destruct Hinv as [Hids _]. apply oget_Some_In in Hids.
                 by eapply H0.
              ** apply Hsub. by left.
           ++ apply in_app_or in Hc as [Hc|[<-|[]]]; [by eapply H0 | done].
        -- intros s' Hs'. apply Hsub. by right.
Qed.

(** *** Selecting the rows of the BIDS subjects *)

Lemma positions_from_spec (i : nat) (label : option string)
    (idx : list (option string)) :
  ∀ j, In j (positions_from i label idx) →
       (i ≤ j)%nat ∧ idx !! (j - i)%nat = Some label.
Proof.
  revert i. induction idx as [|l idx IH]; simpl; intros i j Hin; [done|].
  assert (Hrest : In j (positions_from (S i) label idx) →
                  (i ≤ j)%nat ∧ (l :: idx) !! (j - i)%nat = Some label).
  { intros Hj. apply IH in Hj as [Hle Hj]. split; [lia|].
    replace (j - i)%nat with (S (j - S i)) by lia. done. }
  case_bool_decide as Hl; [|by apply Hrest].
  destruct Hin as [<-|Hin]; [|by apply Hrest].
  split; [lia|]. rewrite Nat.sub_diag. simpl. by rewrite Hl.
Qed.

Lemma take_rows_app {A} (p1 p2 : list nat) (col : list A) :
  take_rows (p1 ++ p2) col = take_rows p1 col ++ take_rows p2 col.
Proof. unfold take_rows. apply omap_app. Qed.

Lemma take_rows_positions (before idx : list (option string))
    (label : option string) :
  take_rows (positions_from (length before) label idx) (before ++ idx)
  = replicate (length (positions_from (length before) label idx)) label.
Proof.
  revert before. induction idx as [|l idx IH]; intros before; simpl; [done|].
  specialize (IH (before ++ [l])).
  rewrite length_app, Nat.add_1_r, <- app_assoc in IH. simpl in IH.
  case_bool_decide as Hl; [|exact IH].
  unfold take_rows in *. simpl.
  rewrite list_lookup_middle by done. simpl. f_equal; [done | exact IH].
Qed.

Lemma take_rows_Forall2 {A} (pos : list nat) (col : list A) :
  (∀ j, In j pos → (j < length col)%nat) →
  Forall2 (fun j c => col !! j = Some c) pos (take_rows pos col).
Proof.
  induction pos as [|j pos IH]; intros Hvalid; [constructor|].
  unfold take_rows. simpl.
  destruct (lookup_lt_is_Some_2 col j (Hvalid j (or_introl eq_refl))) as [c Hc].
  rewrite Hc. simpl. constructor; [done|].
  apply IH. intros j' Hj'. apply Hvalid. by right.
Qed.

Lemma loc_rows_Ok (labels : list string) (df kept : indexed_table) :
  loc_rows labels df = Ok kept →
  ∃ pos,
    index kept = take_rows pos (index df)
    ∧ columns kept = omap_values (take_rows pos) (columns df)
    ∧ (∀ j, In j pos → (j < length (index df))%nat)
    ∧ index kept
      = concat (map (fun s => replicate
                                (length (positions (Some s) (index df)))
                                (Some s)) labels)
    ∧ ∀ s, In s labels → (1 ≤ length (positions (Some s) (index df)))%nat.
Proof.
  unfold loc_rows. intros Hrun.
  apply bindR_Ok in Hrun as (pos & Hpos & Hkept). injection Hkept as <-.
  exists (concat pos). cbn [index columns]. split; [done|]. split; [done|].
  assert (Hchar : pos = map (fun s => positions (Some s) (index df)) labels
                  ∧ ∀ s, In s labels →
                         (1 ≤ length (positions (Some s) (index df)))%nat).
  { clear -Hpos. revert pos Hpos.
    induction labels as [|s labels IH]; simpl; intros pos Hpos.
    - injection Hpos as <-. by split.
    - apply bindR_Ok in Hpos as (ps & Hps & Hrest).
      apply bindR_Ok in Hrest as (rest & Hrest & Hcons).
      injection Hcons as <-. apply IH in Hrest as [-> Hall].
      destruct (positions (Some s) (index df)) as [|p ps'] eqn:Hp;
        [discriminate|].
      injection Hps as <-. split; [done|].
      intros s' [<-|Hs']; [rewrite Hp; simpl; lia | by apply Hall]. }
  destruct Hchar as [-> Hall]. split; [|split; [|done]].
  - intros j Hj. apply in_concat in Hj as (ps & Hps & Hj).
    apply in_map_iff in Hps as (s & <- & _).
    apply positions_from_spec in Hj as [_ Hj].
    apply lookup_lt_Some in Hj. lia.
  - clear Hall Hpos. induction labels as [|s labels IH]; simpl; [done|].
    rewrite take_rows_app, IH. f_equal.
    exact (take_rows_positions [] (index df) (Some s)).
Qed.

(** *** Assembling and normalising *)

Lemma length_reindex {A} (n : nat) (vs : list (option A)) :
  length (reindex n vs) = n.
Proof.
  unfold reindex. rewrite length_app, length_take, length_replicate. lia.
Qed.

Lemma In_reindex {A} (n : nat) (vs : list (option A)) (c : option A) :
  In c (reindex n vs) → c = None ∨ In c vs.
Proof.
  unfold reindex. intros [Hin|Hin]%in_app_or.
  - right. apply list_elem_of_In. apply list_elem_of_In in Hin.
    apply elem_of_take in Hin as (i & Hi & _).
    apply list_elem_of_lookup. by exists i.
  - left. apply list_elem_of_In, elem_of_replicate in Hin. tauto.
Qed.

Lemma setitem_rectangular (n : nat) (name : string)
    (vs : list (option string)) (t : text_table) :
  rectangular n t → ∃ m, rectangular m (setitem name vs t).
Proof.
  intros Hrect. unfold setitem.
  destruct (nrows t =? 0)%nat eqn:Hrows.
  - exists (length vs). apply rectangular_oset; [|done].
    eapply rectangular_omap_values; [|exact Hrect].
    intros col _. apply length_reindex.
  - exists (nrows t). apply rectangular_oset; [|apply length_reindex].
    destruct t as [|[k c] t]; [done|]. simpl.
    intros name' col Hin. rewrite (Hrect name' col Hin).
    symmetry. apply (Hrect k c). by left.
Qed.

Lemma setitem_all_cells (P : option string → Prop) (name : string)
    (vs : list (option string)) (t : text_table) :
  P None → (∀ c, In c vs → P c) → all_cells P t →
  all_cells P (setitem name vs t).
Proof.
  intros HNone Hvs Ht. unfold setitem.
  destruct (nrows t =? 0)%nat.
  - apply all_cells_oset; [|done].
    apply all_cells_omap_values; [|done].
    intros col c Hcol [->|Hc]%In_reindex; auto.
  - apply all_cells_oset; [done|].
    intros c [->|Hc]%In_reindex; auto.
Qed.

Lemma normalize_Ok `{Collaborators} (df t : text_table) :
  normalize df = Ok t →
  ∃ alt ids dob sex,
    oget "alternative_id_1" df = Some alt
    ∧ Forall2 (fun x id => ∃ s, x = Some s ∧ from_original_study_id s = Ok id)
        alt ids
    ∧ oget "date_of_birth"
        (odel "alternative_id_1" (("participant_id", Some <$> ids) :: df))
      = Some dob
    ∧ oget "sex"
        (oset "date_of_birth" (extract_year <$> dob)
           (odel "alternative_id_1" (("participant_id", Some <$> ids) :: df)))
      = Some sex
    ∧ t = map_cells (replace_text "-4" NA)
            (map_cells fillna_text
               (oset "sex" (map_sex <$> sex)
                  (oset "date_of_birth" (extract_year <$> dob)
                     (odel "alternative_id_1"
                        (("participant_id", Some <$> ids) :: df))))).
Proof.
  unfold normalize, oitem. intros Hrun.
  destruct (oget "alternative_id_1" df) as [alt|] eqn:Halt; [|discriminate].
  simpl in Hrun. apply bindR_Ok in Hrun as (ids & Hids & Hrun).
  destruct (oget "participant_id" df); [discriminate|]. simpl in Hrun.
  destruct (oget "date_of_birth" _) as [dob|] eqn:Hdob; [|discriminate].
  simpl in Hrun.
  destruct (oget "sex" _) as [sex|] eqn:Hsex; [|discriminate].
  simpl in Hrun. injection Hrun as <-.
  exists alt, ids, dob, sex. split_and!; try done.
  apply mapR_Forall2 in Hids. eapply Forall2_impl; [exact Hids|].
  intros [s|] id Hid; [by exists s | discriminate].
Qed.

Lemma map_cells_all_cells (P : option string → Prop)
    (f : option string → option string) (t : text_table) :
  (∀ c, P (f c)) → all_cells P (map_cells f t).
Proof.
  intros Hf name col c Hin Hc. unfold map_cells in Hin.
  apply In_omap_values in Hin as (col0 & _ & ->).
  apply in_map_iff in Hc as (c0 & <- & _). apply Hf.
Qed.

Lemma map_cells_all_cells_from (P Q : option string → Prop)
    (f : option string → option string) (t : text_table) :
  (∀ c, P c → Q (f c)) → all_cells P t → all_cells Q (map_cells f t).
Proof.
  intros Hf Ht name col c Hin Hc. unfold map_cells in Hin.
  apply In_omap_values in Hin as (col0 & Hin0 & ->).
  apply in_map_iff in Hc as (c0 & <- & Hc0). apply Hf. by eapply Ht.
Qed.

Lemma map_cells_rectangular (n : nat) (f : option string → option string)
    (t : text_table) :
  rectangular n t → rectangular n (map_cells f t).
Proof.
  intros Ht. unfold map_cells. eapply rectangular_omap_values; [|exact Ht].
  intros col Hlen. by rewrite length_map.
Qed.

(** A cell after the final normalisation holds a string other than "-4". *)
Lemma normalized_cell (c : option string) :
  ∃ s, replace_text "-4" NA (fillna_text c) = Some s ∧ s ≠ "-4".
Proof.
  destruct c as [s|]; simpl.
  - destruct (String.eqb_spec s "-4") as [->|Hne]; [by exists NA | by exists s].
  - by exists NA.
Qed.

Lemma Forall2_In_right {A B} (P : A → B → Prop) (l : list A) (k : list B)
    (y : B) :
  Forall2 P l k → In y k → ∃ x, In x l ∧ P x y.
Proof.
  induction 1 as [|x y' l k Hxy _ IH]; simpl; [done|].
  intros [<-|Hin]; [exists x; tauto|].
  destruct (IH Hin) as (x' & ? & ?). exists x'. tauto.
Qed.

Lemma extract_year_chars_length (l cs : list ascii) :
  extract_year_chars l = Some cs → length cs = 4%nat.
Proof.
  induction l as [|a l IH]; [done|].
  cbn [extract_year_chars].
  destruct (Ascii.eqb a "/" && (4 <=? length l)%nat
            && forallb is_digit (take 4 l)) eqn:Hcond; [|exact IH].
  intros [= <-]. rewrite length_take.
  apply andb_true_iff in Hcond as [[_ Hl]%andb_true_iff _].
  apply Nat.leb_le in Hl. lia.
Qed.

Lemma normalize_properties `{Collaborators} (n : nat) (df t : text_table) :
  normalize df = Ok t →
  all_cells (fun c => ∃ s, c = Some s ∧ s ≠ "-4") t
  ∧ (rectangular n df → rectangular n t)
  ∧ ((∀ s id, from_original_study_id s = Ok id → id ≠ "") →
     all_cells (fun c => c ≠ Some "") df →
     all_cells (fun c => c ≠ Some "") t).
Proof.
  intros Hrun.
  destruct (normalize_Ok df t Hrun) as (alt & ids & dob & sex & Halt & Hids
                                        & Hdob & Hsex & ->).
  split; [|split].
  - apply (map_cells_all_cells_from (fun c => is_Some c)).
    + intros c [s ->]. destruct (normalized_cell (Some s)) as (s' & Hs & Hne).
      by exists s'.
    + apply map_cells_all_cells. intros [s|]; by eexists.
  - intros Hrect. do 2 apply map_cells_rectangular.
    assert (Hbase : rectangular n
              (odel "alternative_id_1" (("participant_id", Some <$> ids) :: df))).
    { intros name col Hin. apply odel_In in Hin as [[= <- <-]|Hin].
      - rewrite length_fmap. apply Forall2_length in Hids. rewrite <- Hids.
        apply oget_Some_In in Halt. by eapply Hrect.
      - by eapply Hrect. }
    apply rectangular_oset.
    + apply rectangular_oset; [done|]. rewrite length_fmap.
      apply oget_Some_In in Hdob. by eapply Hbase.
    + rewrite length_fmap. apply oget_Some_In, In_oset in Hsex
        as [[_ ->]|Hsex].
      * rewrite length_fmap. apply oget_Some_In in Hdob. by eapply Hbase.
      * by eapply Hbase.
  - intros Hid Hdf.
    apply (map_cells_all_cells_from (fun c => c ≠ Some "")).
    { intros [s|] Hc; simpl; [|done].
      destruct (String.eqb s "-4"); [done|]. done. }
    apply (map_cells_all_cells_from (fun c => c ≠ Some "")).
    { by intros [s|] Hc. }
    apply all_cells_oset.
    + apply all_cells_oset.
      * apply all_cells_odel. intros name col c [[= <- <-]|Hin] Hc.
        -- apply list_elem_of_In, list_elem_of_fmap in Hc as (id & -> & Hc).
           apply list_elem_of_In in Hc.
           destruct (Forall2_In_right _ _ _ _ Hids Hc)
             as (x & _ & s & _ & Hfrom).
           intros [= ->]. by eapply Hid.
        -- by eapply Hdf.
      * intros c Hc. apply list_elem_of_In, list_elem_of_fmap in Hc
          as (c0 & -> & _).
        destruct c0 as [s|]; simpl; [|done].
        destruct (extract_year_chars (chars s)) as [cs|] eqn:Hcs; [|done].
        simpl. intros [= Hempty].
        apply extract_year_chars_length in Hcs.
        destruct cs; [done | discriminate].
    + intros c Hc. apply list_elem_of_In, list_elem_of_fmap in Hc
        as (c0 & -> & _).
      destruct c0 as [s|]; simpl; [|done].
      destruct (String.eqb s "1"); [done|]. by destruct (String.eqb s "2").
Qed.

Lemma In_take_rows {A} (pos : list nat) (col : list A) (c : A) :
  In c (take_rows pos col) → In c col.
Proof.
  unfold take_rows. intros Hin.
  apply list_elem_of_In, list_elem_of_omap in Hin as (j & _ & Hj).
  apply list_elem_of_In, list_elem_of_lookup. by exists j.
Qed.

Lemma In_concat_replicate (k : string → nat) (subjects : list string)
    (c : option string) :
  In c (concat (map (fun s => replicate (k s) (Some s)) subjects))
  ↔ ∃ s, In s subjects ∧ c = Some s ∧ (1 ≤ k s)%nat.
Proof.
  rewrite in_concat. split.
  - intros (l & Hl & Hc). apply in_map_iff in Hl as (s & <- & Hs).
    apply list_elem_of_In, elem_of_replicate in Hc as [-> Hk].
    exists s. split_and!; [done | done | lia].
  - intros (s & Hs & -> & Hk). exists (replicate (k s) (Some s)). split.
    + apply in_map_iff. by exists s.
    + apply list_elem_of_In, elem_of_replicate. split; [done | lia].
Qed.

(** The reconciliation against the subjects of the BIDS tree. *)
Lemma reconcile_Ok (n : nat) (joined t : text_table) (w w' : world) :
  reconcile joined w = (Ok t, w') →
  rectangular n joined →
  ∃ joined_ids ids added k,
    oget "participant_id" joined = Some joined_ids
    ∧ oget "participant_id" t = Some ids
    ∧ ids = concat (map (fun s => replicate (k s) (Some s)) (glob_sub (bids w)))
    ∧ (∀ s, In s (glob_sub (bids w)) → (1 ≤ k s)%nat)
    ∧ warnings w' = warnings w ++ added
    ∧ (∀ s, In s added ↔ In s (glob_sub (bids w)) ∧ ¬ In (Some s) joined_ids)
    ∧ (∀ s name col i,
         In s added → In (name, col) t → name ≠ "participant_id" →
         ids !! i = Some (Some s) → col !! i = Some (Some NA))
    ∧ loaded w' = loaded w ∧ bids w' = bids w
    ∧ (∀ P : option string → Prop,
         all_cells P joined → P (Some NA) →
         (∀ s, In s (glob_sub (bids w)) → P (Some s)) → all_cells P t).
Proof.
  unfold reconcile. intros Hrun Hrect.
  apply bindIO_Ok in Hrun as (t0 & w1 & Hget & Hrun).
  unfold get_bids in Hget. injection Hget as <- <-.
  apply bindIO_Ok in Hrun as (ids0 & w1 & Hids0 & Hrun).
  apply lift_Ok in Hids0 as [Hids0 ->].
  unfold oitem in Hids0.
  destruct (oget "participant_id" joined) as [ids0'|] eqn:Hpid; [|discriminate].
  injection Hids0 as ->.
  apply bindIO_Ok in Hrun as (df & w1 & Hloop & Hrun).
  apply bindIO_Ok in Hrun as (kept & w2 & Hloc & Hrun).
  apply lift_Ok in Hloc as [Hloc ->].
  apply retIO_Ok in Hrun as [-> ->].
  assert (Hlen0 : length ids0 = n)
    by (apply oget_Some_In in Hpid; by eapply Hrect).
  assert (Hinv0 : indexed_invariant {| index := ids0; columns := joined |}).
  { split; [done|]. cbn [index columns]. by rewrite Hlen0. }
  destruct (reconcile_loop _ _ _ _ _ Hloop Hinv0)
    as (added & Hidx & Hwarn & Hl & Hb & [Hpidf Hrectf] & Hadded & Hall
        & Hcols & Hcells).
  cbn [index columns] in *.
  destruct (loc_rows_Ok _ _ _ Hloc)
    as (pos & Hkidx & Hkcols & Hvalid & Hconcat & Hk).
  exists ids0, (index kept), added,
    (fun s => length (positions (Some s) (index df))).
  split_and!; try done.
  - by rewrite Hkcols, oget_omap_values, Hpidf, Hkidx.
  - intros s name col i Hs Hin Hname Hi.
    apply Hadded in Hs as [Hs Hnot].
    rewrite Hkcols in Hin. apply In_omap_values in Hin as (colf & Hinf & ->).
    destruct (Hcols name colf Hinf Hname) as (col0 & Hin0 & ->).
    pose proof (take_rows_Forall2 pos (index df) Hvalid) as Hf2.
    rewrite <- Hkidx in Hf2.
    destruct (Forall2_lookup_r _ _ _ _ _ Hf2 Hi) as (j & Hj & Hjs).
    assert (Hlen : length (col0 ++ replicate (length added) (Some NA))
                   = length (index df)) by (by eapply Hrectf).
    assert (Hvalid' : ∀ j, In j pos →
              (j < length (col0 ++ replicate (length added) (Some NA)))%nat).
    { intros j' Hj'. rewrite Hlen. by apply Hvalid. }
    pose proof (take_rows_Forall2 pos _ Hvalid') as Hf2'.
    destruct (Forall2_lookup_l _ _ _ _ _ Hf2' Hj) as (c & Hc & Hcj).
    rewrite Hc. f_equal.
    assert (Hlen00 : length col0 = length ids0).
    { rewrite Hlen0. by eapply Hrect. }
    assert (Hge : (length ids0 ≤ j)%nat).
    { destruct (decide (j < length ids0)%nat) as [Hlt|]; [|lia].
      exfalso. apply Hnot. rewrite Hidx, lookup_app_l in Hjs by done.
      apply list_elem_of_In, list_elem_of_lookup. by exists j. }
    rewrite lookup_app_r in Hcj by lia.
    apply lookup_replicate in Hcj as [-> _]. done.
  - intros P HP HNA Hsub. rewrite Hkcols.
    apply all_cells_omap_values; [|by apply Hcells].
    intros col c Hcol Hc. apply Hcol. by eapply In_take_rows.
Qed.

Section Participants.
Context `{Collaborators}.

Lemma read_csv_values (P : value → Prop) (policy : bad_line_policy)
    (raw : raw_csv) (f : frame) :
  (∀ col v, In v (infer_column col) → P v) →
  read_csv policy raw = Ok f → all_values P f.
Proof.
  intros Hinfer Hrun. unfold read_csv in Hrun.
  apply bindR_Ok in Hrun as (rows & _ & Hf). injection Hf as <-.
  intros name col v Hin Hv.
  apply list_elem_of_In, elem_of_lookup_imap_1 in Hin as (i & y & [= -> ->] & _).
  by eapply Hinfer.
Qed.

Lemma assemble_properties (clinical_data_dir : clinical_directory)
    (rows : list mapping) (prev : string) (file_to_read : option frame)
    (df t : text_table) (w w' : world) :
  assemble clinical_data_dir rows prev file_to_read df w = (Ok t, w') →
  ((∃ n, rectangular n df) → ∃ n, rectangular n t)
  ∧ ((∀ col v, In v (infer_column col) → astype_str v ≠ "") →
     (∀ f, file_to_read = Some f →
           all_values (fun v => astype_str v ≠ "") f) →
     all_cells (fun c => c ≠ Some "") df →
     all_cells (fun c => c ≠ Some "") t).
Proof.
  revert prev file_to_read df w.
  induction rows as [|row rows IH]; intros prev file_to_read df w Hrun.
  - simpl in Hrun. apply retIO_Ok in Hrun as [-> _]. tauto.
  - simpl in Hrun.
    apply bindIO_Ok in Hrun as ([prev' file'] & w1 & Hread & Hrun).
    apply bindIO_Ok in Hrun as (f & w2 & Hf & Hrun).
    apply lift_Ok in Hf as [Hf ->].
    apply bindIO_Ok in Hrun as (col & w2 & Hcol & Hrun).
    apply lift_Ok in Hcol as [Hcol ->].
    destruct file' as [f'|]; simpl in Hf; [|discriminate].
    assert (f' = f) as -> by congruence. clear Hf.
    apply IH in Hrun as [Hrect Hcells].
    unfold oitem in Hcol.
    destruct (oget (m_study row) f) as [col'|] eqn:Hget; [|discriminate].
    injection Hcol as ->. apply oget_Some_In in Hget.
    split.
    + intros [n Hn]. apply Hrect. by eapply setitem_rectangular.
    + intros Hinfer Hfile Hdf.
      assert (Hgood : all_values (fun v => astype_str v ≠ "") f).
      { destruct (String.eqb (m_location row) prev); simpl in Hread.
        - apply retIO_Ok in Hread as [[= -> <-] ->]. by apply Hfile.
        - apply bindIO_Ok in Hread as (f0 & w3 & Hload & Hret).
          apply retIO_Ok in Hret as [[= -> ->] ->].
          apply load_effects in Hload as (_ & _ & _ & _ & raw & rest & _ & Hcsv).
          by eapply read_csv_values. }
      apply Hcells; [done | by intros f0 [= <-] |].
      apply setitem_all_cells; [done | | done].
      intros c Hc. apply in_map_iff in Hc as (v & <- & Hv).
      intros [= Hempty]. by eapply Hgood.
Qed.

(** The table with the reconciliation is the reconciliation of the table
    without it. *)
Lemma participants_table_reconciled
    (clinical_specifications_folder : specifications_folder)
    (clinical_data_dir : clinical_directory) (t : text_table) (w w' : world) :
  participants_table clinical_specifications_folder clinical_data_dir true w
  = (Ok t, w') →
  ∃ joined w1,
    participants_table clinical_specifications_folder clinical_data_dir false w
    = (Ok joined, w1)
    ∧ reconcile joined w1 = (Ok t, w')
    ∧ bids w1 = bids w ∧ warnings w1 = warnings w.
Proof.
  unfold participants_table. intros Hrun.
  apply bindIO_Ok in Hrun as (spec & w1 & Hspec & Hrun).
  apply bindIO_Ok in Hrun as (df & w2 & Hass & Hrun).
  apply bindIO_Ok in Hrun as (joined & w3 & Hnorm & Hrun).
  exists joined, w3. split; [|split; [done|]].
  - unfold bindIO. rewrite Hspec, Hass, Hnorm. done.
  - apply lift_Ok in Hspec as [_ ->]. apply lift_Ok in Hnorm as [_ ->].
    apply assemble_effects in Hass as (_ & _ & Hw & Hb). done.
Qed.

Lemma participants_table_joined
    (clinical_specifications_folder : specifications_folder)
    (clinical_data_dir : clinical_directory) (joined : text_table)
    (w w1 : world) :
  participants_table clinical_specifications_folder clinical_data_dir false w
  = (Ok joined, w1) →
  all_cells (fun c => ∃ s, c = Some s ∧ s ≠ "-4") joined
  ∧ (∃ n, rectangular n joined)
  ∧ ((∀ col v, In v (infer_column col) → astype_str v ≠ "") →
     (∀ s id, from_original_study_id s = Ok id → id ≠ "") →
     all_cells (fun c => c ≠ Some "") joined).
Proof.
  unfold participants_table. intros Hrun.
  apply bindIO_Ok in Hrun as (spec & w2 & Hspec & Hrun).
  apply bindIO_Ok in Hrun as (df & w3 & Hass & Hrun).
  apply bindIO_Ok in Hrun as (joined' & w4 & Hnorm & Hrun).
  apply retIO_Ok in Hrun as [-> ->].
  apply lift_Ok in Hnorm as [Hnorm ->].
  apply assemble_properties in Hass as [Hrect Hcells].
  destruct Hrect as [n Hn]; [exists 0%nat; by intros ? ? []|].
  destruct (normalize_properties n df joined' Hnorm) as (Hclean & Hrect' & Hne).
  split; [done|]. split; [exists n; auto|].
  intros Hinfer Hid. apply Hne; [done|].
  apply Hcells; [done | done | by intros ? ? ? []].
Qed.


Lemma create_participants_writes
    (clinical_specifications_folder : specifications_folder)
    (clinical_data_dir : clinical_directory) (flag : bool) (w w' : world) :
  create_participants_tsv_file clinical_specifications_folder
    clinical_data_dir flag w = (Ok (), w') →
  ∃ t w1,
    participants_table clinical_specifications_folder clinical_data_dir flag w
    = (Ok t, w1)
    ∧ oget "participants.tsv" (listing (bids w') [])
      = Some (file (participants_tsv t))
    ∧ warnings w' = warnings w1 ∧ loaded w' = loaded w1.
Proof.
  unfold create_participants_tsv_file. intros Hrun.
  apply bindIO_Ok in Hrun as (t & w1 & Htable & Hcsv).
  apply to_csv_Ok in Hcsv as (Hl & _ & Hw & Hlist & _).
  exists t, w1. split_and!; try done.
  rewrite Hlist. apply oget_oset_eq.
Qed.
End Participants.








(** In a BIDS directory without a plain file named like a subject, what
    [glob("sub-*")] yields are the subject directories. *)
Lemma glob_sub_directories (t : tree) :
  (∀ name c, In (name, file c) (listing t []) →
             String.prefix "sub-" name = false) →
  glob_sub t = subject_directories t.
Proof.
  unfold glob_sub, subject_directories, okeys.
  induction (listing t []) as [|[name n] l IH]; intros Hfiles; [done|].
  cbn [map List.filter fst snd].
  assert (IH' : List.filter (String.prefix "sub-") (map fst l)
                = map fst (List.filter
                    (fun kv : string * node =>
                       String.prefix "sub-" kv.1
                       && match kv.2 with subdir => true | file _ => false end)
                    l)).
  { apply IH. intros name' c Hin. apply (Hfiles name' c). by right. }
  destruct n as [c|].
  - rewrite (Hfiles name c (or_introl eq_refl)). exact IH'.
  - rewrite andb_true_r. destruct (String.prefix "sub-" name); [|exact IH'].
    cbn [map fst]. by rewrite IH'.
Qed.

Section ParticipantsClaims.
Context `{Collaborators}.

(** C1. With the reconciliation enabled, the identifier column of the
    written participants table lists the names that [glob("sub-*")] finds in
    the BIDS directory (the subject directories, when no plain file there
    has such a name), in the order of that enumeration, each name at least
    once (more than once only for an identifier the clinical data repeats):
    the identifiers of the table are exactly those names.  A name the
    joined clinical table lacks gets a warning and a row that holds "n/a" in
    every other column; an identifier only the clinical table has is not in
    the written table. *)
Theorem participants_match_bids
    (clinical_specifications_folder : specifications_folder)
    (clinical_data_dir : clinical_directory) (w w' : world) :
  create_participants_tsv_file clinical_specifications_folder
    clinical_data_dir true w = (Ok (), w') →
  ((∀ name c, In (name, file c) (listing (bids w) []) →
              String.prefix "sub-" name = false) →
   glob_sub (bids w) = subject_directories (bids w))
  ∧ ∃ joined joined_ids t ids added k w1,
    participants_table clinical_specifications_folder clinical_data_dir false w
    = (Ok joined, w1)
    ∧ oget "participant_id" joined = Some joined_ids
    ∧ oget "participants.tsv" (listing (bids w') [])
      = Some (file (participants_tsv t))
    ∧ oget "participant_id" t = Some ids
    ∧ ids = concat (map (fun s => replicate (k s) (Some s)) (glob_sub (bids w)))
    ∧ (∀ s, In s (glob_sub (bids w)) → (1 ≤ k s)%nat)
    ∧ (∀ c, In c ids ↔ ∃ s, c = Some s ∧ In s (glob_sub (bids w)))
    ∧ warnings w' = warnings w ++ added
    ∧ (∀ s, In s added ↔ In s (glob_sub (bids w)) ∧ ¬ In (Some s) joined_ids)
    ∧ (∀ s name col i,
         In s added → In (name, col) t → name ≠ "participant_id" →
         ids !! i = Some (Some s) → col !! i = Some (Some NA)).
Proof.
  intros Hrun. split; [apply glob_sub_directories|].
  apply create_participants_writes in Hrun as (t & w2 & Htable & Hfile & Hw & _).
  apply participants_table_reconciled in Htable
    as (joined & w1 & Hjoined & Hrec & Hb1 & Hw1).
  destruct (participants_table_joined _ _ _ _ _ Hjoined) as (_ & [n Hrect] & _).
  destruct (reconcile_Ok n joined t w1 w2 Hrec Hrect)
    as (joined_ids & ids & added & k & Hjid & Hids & Hconcat & Hk & Hwarn
        & Hadded & Hrows & _ & _ & _).
  rewrite Hb1 in *.
  exists joined, joined_ids, t, ids, added, k, w1.
  split_and!; try done.
  - intros c. rewrite Hconcat, In_concat_replicate. split.
    + intros (s & Hs & -> & _). by exists s.
    + intros (s & -> & Hs). exists s. split_and!; [done | done | by apply Hk].
  - by rewrite Hw, Hwarn, Hw1.
Qed.

End ParticipantsClaims.

Lemma participants_match_bids_witness :
  subject_directories (bids sample_world_44)
  = ["sub-AIBL44"; "sub-AIBL12"; "sub-AIBL15"]
  ∧ ∃ w' t ids,
      @create_participants_tsv_file sample_collaborators sample_spec_folder
        sample_clinical_dir true sample_world_44 = (Ok (), w')
      ∧ oget "participants.tsv" (listing (bids w') [])
        = Some (file (participants_tsv t))
      ∧ oget "participant_id" t = Some ids
      ∧ ids = [Some "sub-AIBL44"; Some "sub-AIBL12"; Some "sub-AIBL15"]
      ∧ warnings w' = ["sub-AIBL44"]
      ∧ (∀ c, In c ids ↔ ∃ s, c = Some s ∧ In s (glob_sub (bids sample_world_44))).
Proof.
  split; [vm_compute; reflexivity|].
  eexists _, _, _. split; [vm_compute; reflexivity|].
  split; [vm_compute; reflexivity|]. split; [reflexivity|].
  split; [reflexivity|]. split; [reflexivity|].
  destruct (@participants_match_bids sample_collaborators sample_spec_folder
              sample_clinical_dir sample_world_44 _
              ltac:(vm_compute; reflexivity))
    as (_ & joined & joined_ids & t & ids & added & k & w1 & _ & _ & Hfile
        & Hids & _ & _ & Hset & _).
  vm_compute in Hfile. injection Hfile as <-.
  vm_compute in Hids. injection Hids as <-.
  exact Hset.
Defined.


(** * Further properties of the builders *)

(** ** What the builders leave alone *)

Section Frame.
Context `{Collaborators}.
Variable R : world → world → Prop.
Hypothesis R_bids : ∀ w w', bids w' = bids w → R w w'.
Hypothesis R_trans : ∀ w1 w2 w3, R w1 w2 → R w2 w3 → R w1 w3.

Lemma preserves_ret {A} (a : A) : preserves R (retIO a).
Proof. intros w r w'. unfold retIO. intros [= _ <-]. by apply R_bids. Qed.

Lemma preserves_lift {A} (r : result A) : preserves R (lift r).
Proof. intros w r' w'. unfold lift. intros [= _ <-]. by apply R_bids. Qed.

Lemma preserves_get_bids : preserves R get_bids.
Proof. intros w r w'. unfold get_bids. intros [= _ <-]. by apply R_bids. Qed.

Lemma preserves_log_load (pattern : string) : preserves R (log_load pattern).
Proof. intros w r w'. unfold log_load. intros [= _ <-]. by apply R_bids. Qed.

Lemma preserves_log_search : preserves R log_search.
Proof. intros w r w'. unfold log_search. intros [= _ <-]. by apply R_bids. Qed.

Lemma preserves_cprint_warning (subject : string) :
  preserves R (cprint_warning subject).
Proof. intros w r w'. unfold cprint_warning. intros [= _ <-]. by apply R_bids. Qed.

Lemma preserves_bind {A B} (m : io A) (f : A → io B) :
  preserves R m → (∀ a, preserves R (f a)) → preserves R (bindIO m f).
Proof.
  intros Hm Hf w r w'. unfold bindIO.
  destruct (m w) as [[a|e] w1] eqn:Hrun.
  - intros Hk. eapply R_trans; [eapply Hm | eapply Hf]; eauto.
  - intros [= _ <-]. eapply Hm; eauto.
Qed.

Lemma preserves_forIO {A} (f : A → io unit) (xs : list A) :
  (∀ x, preserves R (f x)) → preserves R (forIO f xs).
Proof.
  intros Hf. induction xs as [|x xs IH]; simpl; [apply preserves_ret|].
  apply preserves_bind; [apply Hf | intros _; apply IH].
Qed.

Lemma preserves_foldIO {A S} (f : S → A → io S) (xs : list A) (s : S) :
  (∀ s x, preserves R (f s x)) → preserves R (foldIO f xs s).
Proof.
  intros Hf. revert s. induction xs as [|x xs IH]; simpl; intros s;
    [apply preserves_ret|].
  apply preserves_bind; [apply Hf | intros s'; apply IH].
Qed.

Lemma preserves_mapIO {A B} (f : A → io B) (xs : list A) :
  (∀ x, preserves R (f x)) → preserves R (mapIO f xs).
Proof.
  intros Hf. induction xs as [|x xs IH]; simpl; [apply preserves_ret|].
  apply preserves_bind; [apply Hf | intros y].
  apply preserves_bind; [apply IH | intros ys]. apply preserves_ret.
Qed.

Ltac frame_step :=
  first
    [ apply preserves_ret | apply preserves_lift | apply preserves_log_search
    | apply preserves_log_load | apply preserves_cprint_warning
    | apply preserves_get_bids | assumption
    | apply preserves_bind; [|intros ?]
    | match goal with
      | |- preserves _ (if ?b then _ else _) => destruct b
      | |- preserves _ (match ?x with _ => _ end) => destruct x
      end ].

(** The computations that only read the tree. *)
Lemma preserves_load (clinical_data_dir : clinical_directory)
    (pattern : string) (policy : bad_line_policy) :
  preserves R (_load_metadata_from_pattern clinical_data_dir pattern policy).
Proof. unfold _load_metadata_from_pattern. repeat frame_step. Qed.




Lemma preserves_find_exam_date (rid : Z) (session_id : value)
    (clinical_data_dir : clinical_directory) (patterns : list string) :
  preserves R (find_exam_date rid session_id clinical_data_dir patterns).
Proof.
  induction patterns as [|p rest IH]; simpl; repeat frame_step.
Qed.

Lemma preserves_complete_examination_dates (rid : Z)
    (clinical_data_dir : clinical_directory) (session_id examination_date : cell) :
  preserves R (_complete_examination_dates rid clinical_data_dir session_id
                 examination_date).
Proof.
  unfold _complete_examination_dates, _find_exam_date_in_other_csv_files.
  repeat frame_step; apply preserves_find_exam_date.
Qed.

Lemma preserves_sessions_for_subject (clinical_data_dir : clinical_directory)
    (specifications : list mapping) (bids_id : string) :
  preserves R (sessions_for_subject clinical_data_dir specifications bids_id).
Proof.
  unfold sessions_for_subject. repeat frame_step.
  - apply preserves_foldIO. intros s row. repeat frame_step.
    apply preserves_load.
  - apply preserves_mapIO. intros x. repeat frame_step.
    apply preserves_complete_examination_dates.
Qed.

Lemma preserves_create_scans_dict (clinical_data_dir : clinical_directory)
    (clinical_specifications_folder : specifications_folder) :
  preserves R (_create_scans_dict clinical_data_dir
                 clinical_specifications_folder).
Proof.
  unfold _create_scans_dict. repeat frame_step.
  apply preserves_foldIO. intros d row. unfold scan_mapping_row.
  repeat frame_step. apply preserves_load.
Qed.

End Frame.

Lemma same_except_bids (W : path → string → Prop) (w w' : world) :
  bids w' = bids w → same_except W w w'.
Proof. intros Hb dir name _. by rewrite Hb. Qed.

Lemma same_except_trans (W : path → string → Prop) (w1 w2 w3 : world) :
  same_except W w1 w2 → same_except W w2 w3 → same_except W w1 w3.
Proof. intros H12 H23 dir name Hn. by rewrite H23, H12. Qed.


Lemma preserves_to_csv (W : path → string → Prop) (dir : path)
    (name : string) (c : content) :
  W dir name → preserves (same_except W) (to_csv dir name c).
Proof.
  intros HW w r w'. unfold to_csv, get_bids, set_bids, bindIO, lift.
  destruct (bids w !! dir) as [entries|] eqn:Hd;
    [|intros [= _ <-]; by apply same_except_bids].
  destruct (oget name entries) as [[c'|]|] eqn:Hn; intros [= _ <-];
    try (by apply same_except_bids);
    intros dir' name' Hn'; simpl; unfold listing;
    (destruct (decide (dir' = dir)) as [->|Hne];
     [ rewrite lookup_insert_eq, Hd; simpl; apply oget_oset_ne;
       intros ->; by apply Hn'
     | by rewrite lookup_insert_ne ]).
Qed.

Lemma preserves_unlink (W : path → string → Prop) (dir : path) (name : string) :
  W dir name → preserves (same_except W) (unlink_missing_ok dir name).
Proof.
  intros HW w r w'. unfold unlink_missing_ok, get_bids, set_bids, bindIO, lift, retIO.
  destruct (bids w !! dir) as [entries|] eqn:Hd;
    [|intros [= _ <-]; by apply same_except_bids].
  destruct (oget name entries) as [[c'|]|] eqn:Hn; intros [= _ <-];
    try (by apply same_except_bids).
  intros dir' name' Hn'; simpl; unfold listing.
  destruct (decide (dir' = dir)) as [->|Hne].
  - rewrite lookup_insert_eq, Hd. simpl. apply oget_odel_ne.
    intros ->. by apply Hn'.
  - by rewrite lookup_insert_ne.
Qed.


Section Builders.
Context `{Collaborators}.


(** The sessions builder writes, in the folder of an identifier, the file
    named after it and nothing else: however the run ends, every other entry
    of the tree is what it was. *)
Theorem sessions_builder_frame (clinical_data_dir : clinical_directory)
    (clinical_specifications_folder : specifications_folder)
    (w w' : world) (r : result unit) (dir : path) (name : string) :
  create_sessions_tsv_file clinical_data_dir clinical_specifications_folder w
  = (r, w') →
  (∀ id, dir = [id] → name ≠ id +:+ "_sessions.tsv") →
  oget name (listing (bids w') dir) = oget name (listing (bids w) dir).
Proof.
  intros Hrun Hne.
  set (W := fun (dir : path) (name : string) =>
              ∃ id, dir = [id] ∧ name = id +:+ "_sessions.tsv").
  assert (Hframe : same_except W w w').
  { revert w r w' Hrun. change (preserves ?R ?m) with (preserves R m).
    assert (Hb := same_except_bids W). assert (Ht := same_except_trans W).
    unfold create_sessions_tsv_file.
    apply preserves_bind; try exact Hb; try exact Ht; [apply preserves_lift; exact Hb | intros spec].
    apply preserves_bind; try exact Hb; try exact Ht; [apply preserves_get_bids; exact Hb | intros t].
    apply preserves_forIO; [done | done |]. intros bids_id.
    apply preserves_bind; try exact Hb; try exact Ht; [apply preserves_sessions_for_subject; [exact Hb | exact Ht] |].
    intros [id t']. apply preserves_to_csv. by exists id. }
  apply Hframe. intros (id & -> & ->). by apply (Hne id).
Qed.

(** The scans builder deletes and writes, in the folder of a session of a
    subject, the scans file named after them and nothing else: however the
    run ends, every other entry of the tree is what it was. *)
Theorem scans_builder_frame (clinical_data_dir : clinical_directory)
    (clinical_specifications_folder : specifications_folder)
    (w w' : world) (r : result unit) (dir : path) (name : string) :
  create_scans_tsv_file clinical_data_dir clinical_specifications_folder w
  = (r, w') →
  (∀ subject session,
     dir = [subject; session] → name ≠ scans_file_name subject session) →
  oget name (listing (bids w') dir) = oget name (listing (bids w) dir).
Proof.
  intros Hrun Hne.
  set (W := fun (dir : path) (name : string) =>
              ∃ subject session,
                dir = [subject; session]
                ∧ name = scans_file_name subject session).
  assert (Hframe : same_except W w w').
  { revert w r w' Hrun. change (preserves ?R ?m) with (preserves R m).
    assert (Hb := same_except_bids W). assert (Ht := same_except_trans W).
    unfold create_scans_tsv_file.
    apply preserves_bind; try exact Hb; try exact Ht; [apply preserves_create_scans_dict; [exact Hb | exact Ht] | intros d].
    unfold _write_scans_tsv.
    apply preserves_forIO; [done | done |]. intros subject.
    apply preserves_bind; try exact Hb; try exact Ht; [apply preserves_lift; exact Hb |].
    intros sessions.
    apply preserves_forIO; [done | done |]. intros session.
    unfold write_session.
    apply preserves_bind; try exact Hb; try exact Ht; [| intros _].
    { apply preserves_unlink. by exists subject, session. }
    apply preserves_bind; try exact Hb; try exact Ht; [apply preserves_get_bids; exact Hb | intros t].
    apply preserves_bind; try exact Hb; try exact Ht; [| intros _; apply preserves_ret; exact Hb].
    apply preserves_foldIO; [done | done |]. intros df modality.
    apply preserves_bind; try exact Hb; try exact Ht; [apply preserves_get_bids; exact Hb | intros t'].
    apply preserves_bind; try exact Hb; try exact Ht; [apply preserves_lift; exact Hb | intros files].
    apply preserves_bind; try exact Hb; try exact Ht; [apply preserves_lift; exact Hb | intros df'].
    apply preserves_bind; try exact Hb; try exact Ht; [| intros _; apply preserves_ret; exact Hb].
    apply preserves_to_csv. by exists subject, session. }
  apply Hframe. intros (subject & session & -> & ->).
  by apply (Hne subject session).
Qed.

(** A builder whose specification file is missing raises
    [FileNotFoundError] before it has read a clinical file, printed a
    warning or touched the tree. *)
Theorem missing_specification
    (clinical_specifications_folder : specifications_folder)
    (clinical_data_dir : clinical_directory) (delete_non_bids_info : bool)
    (w : world) :
  (clinical_specifications_folder "participant.tsv" = None →
   create_participants_tsv_file clinical_specifications_folder
     clinical_data_dir delete_non_bids_info w = (Raise FileNotFoundError, w))
  ∧ (clinical_specifications_folder "sessions.tsv" = None →
     create_sessions_tsv_file clinical_data_dir
       clinical_specifications_folder w = (Raise FileNotFoundError, w))
  ∧ (clinical_specifications_folder "scans.tsv" = None →
     create_scans_tsv_file clinical_data_dir
       clinical_specifications_folder w = (Raise FileNotFoundError, w)).
Proof.
  split_and!; intros Hnone.
  - unfold create_participants_tsv_file, participants_table,
      _load_specifications, bindIO, lift. by rewrite Hnone.
  - unfold create_sessions_tsv_file, _load_specifications, bindIO, lift.
    by rewrite Hnone.
  - unfold create_scans_tsv_file, _create_scans_dict, _load_specifications,
      bindIO, lift, get_bids. by rewrite Hnone.
Qed.

End Builders.


Lemma sessions_builder_frame_witness :
  ∃ w',
    @create_sessions_tsv_file sample_collaborators sample_clinical_dir
      sample_spec_folder sample_world = (Ok (), w')
    ∧ is_Some (oget "sub-AIBL15_sessions.tsv" (listing (bids w') ["sub-AIBL15"]))
    ∧ oget "ses-M018" (listing (bids w') ["sub-AIBL15"])
      = oget "ses-M018" (listing (bids sample_world) ["sub-AIBL15"]).
Proof.
  eexists. split; [vm_compute; reflexivity|].
  split; [vm_compute; eexists; reflexivity|].
  refine (@sessions_builder_frame sample_collaborators sample_clinical_dir
            sample_spec_folder sample_world _ (Ok ()) ["sub-AIBL15"]
            "ses-M018" _ _).
  - vm_compute. reflexivity.
  - intros id [= <-]. discriminate.
Defined.

Lemma scans_builder_frame_witness :
  ∃ w',
    @create_scans_tsv_file sample_collaborators sample_clinical_dir
      sample_scans_folder sample_world = (Ok (), w')
    ∧ is_Some (oget "sub-AIBL15_ses-M000_scans.tsv"
                 (listing (bids w') ["sub-AIBL15"; "ses-M000"]))
    ∧ oget "notes.txt" (listing (bids w') ["sub-AIBL12"; "ses-M000"])
      = oget "notes.txt" (listing (bids sample_world) ["sub-AIBL12"; "ses-M000"]).
Proof.
  eexists. split; [vm_compute; reflexivity|].
  split; [vm_compute; eexists; reflexivity|].
  refine (@scans_builder_frame sample_collaborators sample_clinical_dir
            sample_scans_folder sample_world _ (Ok ())
            ["sub-AIBL12"; "ses-M000"] "notes.txt" _ _).
  - vm_compute. reflexivity.
  - intros subject session [= <- <-]. discriminate.
Defined.

Lemma missing_specification_witness :
  sample_scans_folder "participant.tsv" = None
  ∧ sample_scans_folder "sessions.tsv" = None
  ∧ sample_spec_folder "scans.tsv" = None
  ∧ @create_participants_tsv_file sample_collaborators sample_scans_folder
      sample_clinical_dir true sample_world
    = (Raise FileNotFoundError, sample_world)
  ∧ @create_sessions_tsv_file sample_collaborators sample_clinical_dir
      sample_scans_folder sample_world
    = (Raise FileNotFoundError, sample_world)
  ∧ @create_scans_tsv_file sample_collaborators sample_clinical_dir
      sample_spec_folder sample_world
    = (Raise FileNotFoundError, sample_world).
Proof.
  split; [reflexivity|]. split; [reflexivity|]. split; [reflexivity|].
  split; [|split].
  - exact (proj1 (@missing_specification sample_collaborators
                    sample_scans_folder sample_clinical_dir true sample_world)
             eq_refl).
  - exact (proj1 (proj2 (@missing_specification sample_collaborators
                           sample_scans_folder sample_clinical_dir true
                           sample_world)) eq_refl).
  - exact (proj2 (proj2 (@missing_specification sample_collaborators
                           sample_spec_folder sample_clinical_dir true
                           sample_world)) eq_refl).
Defined.

(** ** The search for an examination date *)

Section ExamDate.
Context `{Collaborators}.

Lemma find_exam_date_run (rid : Z) (session_id : value)
    (clinical_data_dir : clinical_directory) (patterns : list string)
    (w w' : world) (r : result cell) :
  find_exam_date rid session_id clinical_data_dir patterns w = (r, w') →
  loaded w' = loaded w ∧ warnings w' = warnings w ∧ bids w' = bids w
  ∧ (searched w ≤ searched w' ≤ searched w + length patterns)%nat
  ∧ ∀ v, r = Ok (Some v) → value_eqb v (VStr "-4") = false.
Proof.
  revert w. induction patterns as [|p rest IH]; intros w; simpl.
  - unfold retIO. intros [= <- <-]. split_and!; try done; lia.
  - assert (Hrest : ∀ w1, searched w1 = S (searched w) →
              loaded w1 = loaded w → warnings w1 = warnings w →
              bids w1 = bids w →
              find_exam_date rid session_id clinical_data_dir rest w1 = (r, w') →
              loaded w' = loaded w ∧ warnings w' = warnings w ∧ bids w' = bids w
              ∧ (searched w ≤ searched w' ≤ searched w + S (length rest))%nat
              ∧ ∀ v, r = Ok (Some v) → value_eqb v (VStr "-4") = false).
    { intros w1 Hs Hl Hw Hb Hrun.
      destruct (IH w1 Hrun) as (-> & -> & -> & Hbound & Hv).
      split_and!; try done; lia. }
    destruct (clinical_data_dir p) as [|csv others].
    { intros Hrun. destruct (IH w Hrun) as (-> & -> & -> & Hbound & Hv).
      split_and!; try done; lia. }
    set (k := find_exam_date rid session_id clinical_data_dir rest) in *.
    unfold bindIO, log_search, lift, retIO. cbn [fst snd].
    set (w1 := {| loaded := loaded w; searched := S (searched w);
                  warnings := warnings w; bids := bids w |}).
    assert (Hfail : ∀ e, (@Raise cell e, w1) = (r, w') →
              loaded w' = loaded w ∧ warnings w' = warnings w ∧ bids w' = bids w
              ∧ (searched w ≤ searched w' ≤ searched w + S (length rest))%nat
              ∧ ∀ v, r = Ok (Some v) → value_eqb v (VStr "-4") = false).
    { intros e [= <- <-]. simpl. split_and!; try done; lia. }
    destruct (read_csv on_bad_error csv) as [csv_data|e]; [|apply Hfail].
    destruct (attr "VISCODE" csv_data) as [viscode|e]; [|apply Hfail].
    destruct (mapR viscode_to_session viscode) as [session|e]; [|apply Hfail].
    destruct (attr "RID" _) as [rids|e]; [|apply Hfail].
    destruct (attr "SESSION" _) as [sessions|e]; [|apply Hfail].
    destruct (existsb id _); [|by apply Hrest].
    destruct (attr "EXAMDATE" _) as [examdate|e]; [|apply Hfail].
    destruct (select _ examdate) as [|first others']; [by apply Hrest|].
    destruct (value_eqb first (VStr "-4")) eqn:Hfirst; simpl;
      [by apply Hrest|].
    intros [= <- <-]. simpl. split_and!; try done; try lia.
    by intros v [= <-].
Qed.

(** An examination date that is there is returned as it is, without any
    file being read.  Otherwise the six alternative files are searched, in
    their fixed order, when the session label is there, and nothing is
    looked for when it is not.  However the search ends, it has read at most
    six files, loaded nothing by pattern, printed no warning and left the
    tree alone, and the date it returns is never "-4". *)
Theorem examination_date_completion (rid : Z)
    (clinical_data_dir : clinical_directory) (session_id examination_date : cell)
    (w w' : world) (r : result cell) :
  _complete_examination_dates rid clinical_data_dir session_id
    examination_date w = (r, w') →
  loaded w' = loaded w ∧ warnings w' = warnings w ∧ bids w' = bids w
  ∧ (searched w ≤ searched w' ≤ searched w + 6)%nat
  ∧ (truthy examination_date = true → r = Ok examination_date ∧ w' = w)
  ∧ (truthy examination_date = false → truthy session_id = false →
     r = Ok None ∧ w' = w)
  ∧ (truthy examination_date = false →
     ∀ v, r = Ok (Some v) → v ≠ VStr "-4").
Proof.
  unfold _complete_examination_dates, _find_exam_date_in_other_csv_files.
  destruct (truthy examination_date) eqn:Hdate.
  { unfold retIO. intros [= <- <-]. split_and!; try done; lia. }
  assert (Hnone : (@Ok cell None, w) = (r, w') →
            loaded w' = loaded w ∧ warnings w' = warnings w ∧ bids w' = bids w
            ∧ (searched w ≤ searched w' ≤ searched w + 6)%nat
            ∧ (false = true → r = Ok examination_date ∧ w' = w)
            ∧ (false = false → truthy session_id = false → r = Ok None ∧ w' = w)
            ∧ (false = false → ∀ v, r = Ok (Some v) → v ≠ VStr "-4")).
  { intros [= <- <-]. split_and!; try done; lia. }
  destruct session_id as [v|]; [|exact Hnone].
  destruct (truthy (Some v)) eqn:Hsession; [|exact Hnone].
  intros Hrun. apply find_exam_date_run in Hrun as (Hl & Hw & Hb & Hs & Hv).
  simpl in Hs. split_and!; try done; try lia.
  intros _ v' -> ->. by specialize (Hv _ eq_refl).
Qed.

End ExamDate.

(** Subject 15 has no usable date at month 18 in the file of the
    specification: the second alternative file has one. *)
Lemma examination_date_completion_witness :
  ∃ w',
    @_complete_examination_dates sample_collaborators 15 sample_clinical_dir
      (Some (VStr "ses-M018")) None sample_world
    = (Ok (Some (VStr "01/05/2012")), w')
    ∧ searched w' = 2%nat
    ∧ loaded w' = loaded sample_world ∧ warnings w' = warnings sample_world
    ∧ bids w' = bids sample_world
    ∧ (searched sample_world ≤ searched w' ≤ searched sample_world + 6)%nat
    ∧ VStr "01/05/2012" ≠ VStr "-4".
Proof.
  eexists. split; [vm_compute; reflexivity|]. split; [reflexivity|].
  destruct (@examination_date_completion sample_collaborators 15
              sample_clinical_dir (Some (VStr "ses-M018")) None sample_world
              _ _ ltac:(vm_compute; reflexivity))
    as (Hl & Hw & Hb & Hs & _ & _ & Hv).
  split; [exact Hl|]. split; [exact Hw|]. split; [exact Hb|].
  split; [exact Hs|]. exact (Hv eq_refl _ eq_refl).
Defined.

(** ** The table of a subject's sessions *)

Lemma rows_from_trans (name : string) (a b c : list (string * odict cell)) :
  rows_from name a b → rows_from name b c → rows_from name a c.
Proof.
  intros Hab Hbc r'' Hin.
  destruct (Hbc r'' Hin) as (r' & Hin' & Hl' & Hc').
  destruct (Hab r' Hin') as (r & Hr & Hl & Hc).
  exists r. split; [done|]. split; congruence.
Qed.

Lemma rows_from_set_column (name name' : string) (values : list cell)
    (df : sessions_table) :
  name ≠ name' →
  rows_from name (s_rows df) (s_rows (set_column name' values df)).
Proof.
  intros Hne r' Hin. unfold set_column in Hin. simpl in Hin.
  apply In_zip_with in Hin as (r & v & Hr & _ & ->).
  exists r. split; [done|]. split; [done|]. simpl.
  by apply row_cell_oset_ne.
Qed.

Lemma rows_from_drop_column (name name' : string) (df : sessions_table) :
  name ≠ name' →
  rows_from name (s_rows df) (s_rows (drop_column name' df)).
Proof.
  intros Hne r' Hin. unfold drop_column in Hin. simpl in Hin.
  apply in_map_iff in Hin as (r & <- & Hr).
  exists r. split; [done|]. split; [done|]. simpl.
  by apply row_cell_odel_ne.
Qed.

Lemma rows_from_set_age (name : string) (df df' : sessions_table) :
  name ≠ "date_of_birth" → name ≠ "age" →
  _set_age_from_birth df = Ok df' →
  rows_from name (s_rows df) (s_rows df').
Proof.
  intros Hdob Hage. unfold _set_age_from_birth. intros Hrun.
  destruct (negb _ || negb _); [discriminate|].
  apply bindR_Ok in Hrun as (df1 & Hbranch & Hdrop). injection Hdrop as <-.
  eapply rows_from_trans; [|by apply rows_from_drop_column].
  destruct (_ <=? _)%nat.
  - apply bindR_Ok in Hbranch as (ages & _ & Hset). injection Hset as <-.
    eapply rows_from_trans; by apply rows_from_set_column.
  - injection Hbranch as <-. by apply rows_from_set_column.
Qed.

Lemma labels_set_column (name : string) (values : list cell)
    (df : sessions_table) :
  map fst (s_rows (set_column name values df)) `sublist_of` map fst (s_rows df).
Proof.
  unfold set_column. simpl. generalize (s_rows df). intros rows. revert values.
  induction rows as [|r rows IH]; intros [|v values]; simpl;
    try apply sublist_nil_l.
  apply sublist_skip, IH.
Qed.

Lemma labels_set_age (df df' : sessions_table) :
  _set_age_from_birth df = Ok df' →
  map fst (s_rows df') `sublist_of` map fst (s_rows df).
Proof.
  unfold _set_age_from_birth. intros Hrun.
  destruct (negb _ || negb _); [discriminate|].
  apply bindR_Ok in Hrun as (df1 & Hbranch & Hdrop). injection Hdrop as <-.
  unfold drop_column. cbn [s_rows]. rewrite map_map. cbn [fst].
  change (map (fun x : string * odict cell => x.1) (s_rows df1))
    with (map fst (s_rows df1)).
  destruct (_ <=? _)%nat.
  - apply bindR_Ok in Hbranch as (ages & _ & Hset). injection Hset as <-.
    etrans; apply labels_set_column.
  - injection Hbranch as <-. apply labels_set_column.
Qed.

Lemma labels_filter (f : string * odict cell → bool)
    (rows : list (string * odict cell)) :
  map fst (List.filter f rows) `sublist_of` map fst rows.
Proof.
  induction rows as [|r rows IH]; simpl; [done|].
  destruct (f r); simpl; [by apply sublist_skip | by apply sublist_cons].
Qed.

(** The order of the labels. *)
Lemma label_le_trans (a b c : string) :
  label_le a b → label_le b c → label_le a c.
Proof.
  unfold label_le, String.leb. revert b c.
  induction a as [|x a IH]; intros [|y b] [|z c]; simpl; try done.
  unfold Ascii.compare.
  destruct (N.compare_spec (N_of_ascii x) (N_of_ascii y)) as [Hxy|Hxy|Hxy];
    destruct (N.compare_spec (N_of_ascii y) (N_of_ascii z)) as [Hyz|Hyz|Hyz];
    destruct (N.compare_spec (N_of_ascii x) (N_of_ascii z)) as [Hxz|Hxz|Hxz];
    try done; try lia; apply IH.
Qed.

Lemma label_le_total (a b : string) : label_le a b ∨ label_le b a.
Proof. apply String.leb_total. Qed.

Lemma StronglySorted_sublist {A} (R : A → A → Prop) (l l' : list A) :
  l' `sublist_of` l → StronglySorted R l → StronglySorted R l'.
Proof.
  induction 1 as [|x l1 l2 Hsub IH|x l1 l2 Hsub IH]; intros Hsorted.
  - constructor.
  - apply StronglySorted_inv in Hsorted as [Hs Hall]. constructor; [by apply IH|].
    rewrite Forall_forall in *. intros y Hy. apply Hall.
    by eapply sublist_submseteq, elem_of_submseteq in Hsub.
  - apply StronglySorted_inv in Hsorted as [Hs _]. by apply IH.
Qed.

Lemma insert_row_sorted {A} (r : string * A) (rows : list (string * A)) :
  StronglySorted label_le (map fst rows) →
  StronglySorted label_le (map fst (insert_row r rows)).
Proof.
  induction rows as [|r' rows IH]; simpl; intros Hsorted.
  - by repeat constructor.
  - apply StronglySorted_inv in Hsorted as [Hs Hall].
    destruct (String.leb r.1 r'.1) eqn:Hle; simpl.
    + constructor; [by constructor|]. constructor; [done|].
      eapply Forall_impl; [exact Hall|]. intros x Hx.
      by eapply label_le_trans.
    + constructor; [by apply IH|].
      assert (Hge : label_le r'.1 r.1).
      { destruct (label_le_total r.1 r'.1) as [Hl|Hl]; [|done].
        unfold label_le in Hl. congruence. }
      rewrite Forall_forall in *. intros x Hx.
      apply list_elem_of_In, in_map_iff in Hx as (r0 & <- & Hin).
      apply list_elem_of_In in Hin. rewrite insert_row_Permutation in Hin.
      apply elem_of_cons in Hin as [->|Hin]; [done|].
      apply Hall, list_elem_of_In, in_map_iff. exists r0.
      split; [done | by apply list_elem_of_In].
Qed.

Lemma sort_index_sorted (df : sessions_table) :
  StronglySorted label_le (map fst (s_rows (sort_index df))).
Proof.
  unfold sort_index. simpl. induction (s_rows df) as [|r rows IH]; simpl.
  - constructor.
  - by apply insert_row_sorted.
Qed.

Lemma oget_map_values {V W} (f : V → W) (name : string) (row : odict V) :
  oget name (map (fun kv => (kv.1, f kv.2)) row) = f <$> oget name row.
Proof.
  induction row as [|[k c] row IH]; simpl; [done|].
  destruct (String.eqb name k); [done | exact IH].
Qed.

Lemma row_cell_fillna (name : string) (v : value) (row : odict cell) :
  v ≠ VNaN →
  row_cell name row = Some v →
  row_cell name (map (fun kv => (kv.1, fillna_cell kv.2)) row) = Some v.
Proof.
  unfold row_cell. rewrite oget_map_values.
  destruct (oget name row) as [c|]; simpl; [|done].
  intros Hv ->. by destruct v.
Qed.

Lemma map_diagnosis_range (c : cell) :
  In (_map_diagnosis c) ["CN"; "MCI"; "AD"; "n/a"].
Proof.
  destruct c as [[z| |]|]; simpl; try tauto.
  destruct z as [|p|p]; try tauto.
  destruct p as [[p|p|]|[p|p|]|]; tauto.
Qed.

Lemma session_labelled_concat (known : list string) (t t' : sessions_table)
    (data : string * list (string * value)) :
  concat_axis1 t data = Ok t' →
  joined_invariant known t →
  session_labelled (s_rows t) → session_labelled (s_rows t').
Proof.
  unfold concat_axis1. intros Hrun (Hcol & HK & _) Hlab.
  destruct (bool_decide _).
  - injection Hrun as <-. simpl. intros r' Hin.
    apply In_zip_with in Hin as (r & d & Hr & _ & ->). simpl.
    rewrite row_cell_app by (by apply HK). by apply Hlab.
  - destruct (bool_decide _ && bool_decide _); [|discriminate].
    injection Hrun as <-. simpl. intros r' Hin.
    apply in_map_iff in Hin as (r & <- & Hr). simpl.
    apply in_app_or in Hr as [Hr|Hr].
    + rewrite row_cell_app by (by apply HK). by apply Hlab.
    + apply in_map_iff in Hr as (l & <- & _). simpl. right.
      rewrite row_cell_app by (rewrite blank_session_id by done; by eexists).
      unfold row_cell. by rewrite blank_session_id.
Qed.

Section SessionsTable.
Context `{Collaborators}.

(** The steps of the loop body, named. *)
Lemma sessions_for_subject_steps (clinical_data_dir : clinical_directory)
    (specifications : list mapping) (bids_id written_id : string)
    (t : sessions_table) (w w' : world) :
  sessions_for_subject clinical_data_dir specifications bids_id w
  = (Ok (written_id, t), w') →
  ∃ joined dates aged,
    session_labelled (s_rows joined)
    ∧ In "diagnosis"
        (s_columns (map_rows (map (fun kv => (kv.1, replace_missing kv.2)))
                      (sort_index joined)))
    ∧ _set_age_from_birth
        (set_column "examination_date" dates
           (set_column "diagnosis"
              (map (fun c => Some (VStr (_map_diagnosis c)))
                 (column "diagnosis"
                    (map_rows (map (fun kv => (kv.1, replace_missing kv.2)))
                       (sort_index joined))))
              (map_rows (map (fun kv => (kv.1, replace_missing kv.2)))
                 (sort_index joined))))
      = Ok aged
    ∧ t = map_rows (map (fun kv => (kv.1, fillna_cell kv.2)))
            (dropna_session_id aged).
Proof.
  intros Hrun. unfold sessions_for_subject in Hrun.
  apply bindIO_Ok in Hrun as (original & w1 & Horig & Hrun).
  apply lift_Ok in Horig as [_ ->].
  apply bindIO_Ok in Hrun as (rid & w1 & Hrid & Hrun).
  apply lift_Ok in Hrid as [_ ->].
  apply bindIO_Ok in Hrun as (t0 & w1 & Hget & Hrun).
  unfold get_bids in Hget. injection Hget as <- <-.
  set (known := get_sessions_for_subject_in_bids_dataset (bids w) bids_id)
    in Hrun.
  apply bindIO_Ok in Hrun as (joined & w1 & Hjoin & Hrun).
  assert (Hinv : joined_invariant known joined
                 ∧ session_labelled (s_rows joined)).
  { eapply (foldIO_invariant
              (fun s _ => joined_invariant known s
                          ∧ session_labelled (s_rows s)));
      [ | exact Hjoin | ].
    - intros s row s' wa wb _ Hstep [Hs Hl]. inv_run. split.
      + eapply concat_axis1_invariant; eauto.
      + eapply session_labelled_concat; eauto.
    - split.
      + split; [by left|]. split.
        * intros r Hr. apply in_map_iff in Hr as (s & <- & _). by eexists.
        * simpl. by rewrite alive_labels_initial.
      + intros r Hr. simpl in Hr. apply in_map_iff in Hr as (s & <- & _).
        by left. }
  destruct Hinv as [_ Hlab].
  apply bindIO_Ok in Hrun as ([] & w2 & Hdiag & Hrun).
  apply lift_Ok in Hdiag as [Hdiag ->].
  apply bindIO_Ok in Hrun as (dates & w3 & _ & Hrun).
  apply bindIO_Ok in Hrun as (aged & w4 & Hage & Hrun).
  apply lift_Ok in Hage as [Hage ->].
  apply bindIO_Ok in Hrun as (id' & w4 & _ & Hrun).
  apply retIO_Ok in Hrun as [[= -> ->] _].
  exists joined, dates, aged. split; [done|]. split; [|by split].
  case_bool_decide as Hin; [by apply list_elem_of_In | discriminate].
Qed.

(** The rows of the table written for a subject are sorted by their session
    label, and every row holds its own label in the [session_id] column. *)
Theorem sessions_rows_sorted (clinical_data_dir : clinical_directory)
    (specifications : list mapping) (bids_id written_id : string)
    (t : sessions_table) (w w' : world) :
  sessions_for_subject clinical_data_dir specifications bids_id w
  = (Ok (written_id, t), w') →
  StronglySorted label_le (map fst (s_rows t))
  ∧ ∀ r, In r (s_rows t) → row_cell "session_id" r.2 = Some (VStr r.1).
Proof.
  intros Hrun.
  apply sessions_for_subject_steps in Hrun
    as (joined & dates & aged & Hlab & _ & Hage & ->).
  split.
  - unfold map_rows at 1. unfold dropna_session_id. cbn [s_rows].
    rewrite map_map. cbn [fst].
    eapply StronglySorted_sublist; [apply labels_filter|].
    eapply StronglySorted_sublist; [by apply labels_set_age|].
    eapply StronglySorted_sublist; [apply labels_set_column|].
    eapply StronglySorted_sublist; [apply labels_set_column|].
    unfold map_rows. cbn [s_rows]. rewrite map_map. cbn [fst].
    apply sort_index_sorted.
  - intros r' Hin. unfold map_rows at 1 in Hin. cbn [s_rows] in Hin.
    apply in_map_iff in Hin as (r & <- & Hr). cbn [fst snd].
    unfold dropna_session_id in Hr. cbn [s_rows] in Hr.
    apply filter_In in Hr as [Hr Halive].
    apply negb_true_iff in Halive.
    assert (Hcell : row_cell "session_id" r.2 = Some (VStr r.1)).
    { destruct (rows_from_set_age "session_id" _ _ ltac:(done) ltac:(done)
                  Hage r Hr) as (r1 & Hr1 & Hl1 & Hc1).
      destruct (rows_from_set_column "session_id" "examination_date" _ _
                  ltac:(done) r1 Hr1) as (r2 & Hr2 & Hl2 & Hc2).
      destruct (rows_from_set_column "session_id" "diagnosis" _ _
                  ltac:(done) r2 Hr2) as (r3 & Hr3 & Hl3 & Hc3).
      unfold map_rows in Hr3. cbn [s_rows] in Hr3.
      apply in_map_iff in Hr3 as (r4 & <- & Hr4). cbn [fst snd] in *.
      rewrite (row_cell_map_values replace_missing) in Hc3 by done.
      unfold sort_index in Hr4. cbn [s_rows] in Hr4.
      apply list_elem_of_In in Hr4. rewrite sort_rows_Permutation in Hr4.
      apply list_elem_of_In in Hr4.
      rewrite Hc1, Hc2, Hc3 in Halive. rewrite Hc1, Hc2, Hc3, Hl1, Hl2, Hl3.
      destruct (Hlab r4 Hr4) as [Hown|Hna].
      - rewrite Hown in *. simpl in *.
        by destruct (String.eqb r4.1 "-4").
      - apply replace_missing_isna in Hna. congruence. }
    by apply row_cell_fillna.
Qed.

(** In the table written for a subject no cell is missing, every diagnosis
    is one of CN, MCI, AD and n/a, and no row has a birth date. *)
Theorem sessions_cells_filled (clinical_data_dir : clinical_directory)
    (specifications : list mapping) (bids_id written_id : string)
    (t : sessions_table) (w w' : world) :
  sessions_for_subject clinical_data_dir specifications bids_id w
  = (Ok (written_id, t), w') →
  (∀ r name c, In r (s_rows t) → In (name, c) r.2 → isna c = false)
  ∧ (∀ r, In r (s_rows t) →
          ∃ d, row_cell "diagnosis" r.2 = Some (VStr d)
               ∧ In d ["CN"; "MCI"; "AD"; "n/a"])
  ∧ (∀ r, In r (s_rows t) → oget "date_of_birth" r.2 = None)
  ∧ ¬ In "date_of_birth" (s_columns t).
Proof.
  intros Hrun.
  apply sessions_for_subject_steps in Hrun
    as (joined & dates & aged & _ & _ & Hage & ->).
  split_and!.
  - intros r' name c Hin Hc. unfold map_rows in Hin. cbn [s_rows] in Hin.
    apply in_map_iff in Hin as (r & <- & _). cbn [snd] in Hc.
    apply in_map_iff in Hc as ([k c0] & [= _ <-] & _). simpl.
    unfold fillna_cell. by destruct (isna c0) eqn:Hna.
  - intros r' Hin. unfold map_rows in Hin. cbn [s_rows] in Hin.
    apply in_map_iff in Hin as (r & <- & Hr). cbn [fst snd].
    unfold dropna_session_id in Hr. cbn [s_rows] in Hr.
    apply filter_In in Hr as [Hr _].
    destruct (rows_from_set_age "diagnosis" _ _ ltac:(done) ltac:(done)
                Hage r Hr) as (r1 & Hr1 & _ & Hc1).
    destruct (rows_from_set_column "diagnosis" "examination_date" _ _
                ltac:(done) r1 Hr1) as (r2 & Hr2 & _ & Hc2).
    unfold set_column in Hr2. cbn [s_rows] in Hr2.
    apply In_zip_with in Hr2 as (r3 & v & _ & Hv & ->).
    apply in_map_iff in Hv as (c & <- & _). cbn [snd] in Hc2.
    rewrite row_cell_oset_eq in Hc2.
    exists (_map_diagnosis c). split; [|apply map_diagnosis_range].
    apply row_cell_fillna; [done | congruence].
  - intros r' Hin. unfold map_rows in Hin. cbn [s_rows] in Hin.
    apply in_map_iff in Hin as (r & <- & Hr). cbn [snd].
    unfold dropna_session_id in Hr. cbn [s_rows] in Hr.
    apply filter_In in Hr as [Hr _].
    rewrite oget_map_values.
    unfold _set_age_from_birth in Hage.
    destruct (negb _ || negb _); [discriminate|].
    apply bindR_Ok in Hage as (df1 & _ & [= <-]).
    by rewrite (proj2 (drop_column_gone "date_of_birth" df1) r Hr).
  - unfold map_rows, dropna_session_id. cbn [s_columns].
    unfold _set_age_from_birth in Hage.
    destruct (negb _ || negb _); [discriminate|].
    apply bindR_Ok in Hage as (df1 & _ & [= <-]).
    apply drop_column_gone.
Qed.

End SessionsTable.

Lemma sessions_rows_sorted_witness :
  ∃ t w',
    @sessions_for_subject sample_collaborators sample_clinical_dir
      sample_sessions_spec "sub-AIBL15" sample_world
    = (Ok ("sub-AIBL15", t), w')
    ∧ map fst (s_rows t) = ["ses-M000"; "ses-M018"]
    ∧ StronglySorted label_le (map fst (s_rows t))
    ∧ ∀ r, In r (s_rows t) → row_cell "session_id" r.2 = Some (VStr r.1).
Proof.
  eexists _, _. split; [vm_compute; reflexivity|]. split; [reflexivity|].
  refine (@sessions_rows_sorted sample_collaborators sample_clinical_dir
            sample_sessions_spec "sub-AIBL15" "sub-AIBL15" _
            sample_world _ _).
  vm_compute. reflexivity.
Defined.

Lemma sessions_cells_filled_witness :
  ∃ t w',
    @sessions_for_subject sample_collaborators sample_clinical_dir
      sample_sessions_spec "sub-AIBL15" sample_world
    = (Ok ("sub-AIBL15", t), w')
    ∧ column "diagnosis" t = [Some (VStr "CN"); Some (VStr "MCI")]
    ∧ (∀ r name c, In r (s_rows t) → In (name, c) r.2 → isna c = false)
    ∧ (∀ r, In r (s_rows t) →
            ∃ d, row_cell "diagnosis" r.2 = Some (VStr d)
                 ∧ In d ["CN"; "MCI"; "AD"; "n/a"])
    ∧ (∀ r, In r (s_rows t) → oget "date_of_birth" r.2 = None)
    ∧ ¬ In "date_of_birth" (s_columns t).
Proof.
  eexists _, _. split; [vm_compute; reflexivity|]. split; [reflexivity|].
  refine (@sessions_cells_filled sample_collaborators sample_clinical_dir
            sample_sessions_spec "sub-AIBL15" "sub-AIBL15" _
            sample_world _ _).
  vm_compute. reflexivity.
Defined.

(** ** The shape of the scans dictionary *)

Lemma omap_values_oset_same {V W} (h : V → W) (k : string) (v v' : V)
    (d : odict V) :
  oget k d = Some v → h v' = h v →
  omap_values h (oset k v' d) = omap_values h d.
Proof.
  intros Hget Hh. induction d as [|[k2 v2] d IH]; simpl in *; [done|].
  destruct (String.eqb k k2); simpl.
  - injection Hget as ->. by rewrite Hh.
  - by rewrite IH.
Qed.

Lemma okeys_omap_values {V W} (h : V → W) (d : odict V) :
  okeys (omap_values h d) = okeys d.
Proof. unfold okeys, omap_values. rewrite map_map. done. Qed.

Lemma okeys_oset_present {V} (k : string) (v v' : V) (d : odict V) :
  oget k d = Some v → okeys (oset k v' d) = okeys d.
Proof.
  intros Hget.
  rewrite <- (okeys_omap_values (fun _ => ()) (oset k v' d)).
  rewrite (omap_values_oset_same _ k v v') by done.
  apply okeys_omap_values.
Qed.

Lemma In_okeys_oset {V} (k k' : string) (v : V) (d : odict V) :
  In k (okeys (oset k' v d)) ↔ k = k' ∨ In k (okeys d).
Proof.
  induction d as [|[k2 v2] d IH]; simpl.
  - split; [intros [<-|[]]; by left | intros [->|[]]; by left].
  - destruct (String.eqb_spec k' k2) as [->|Hne]; simpl; [|rewrite IH];
      intuition congruence.
Qed.

Lemma foldl_invariant {A S} (P : S → Prop) (f : S → A → S) (xs : list A)
    (s : S) :
  (∀ s x, In x xs → P s → P (f s x)) → P s → P (foldl f s xs).
Proof.
  revert s. induction xs as [|x xs IH]; simpl; intros s Hstep Hs; [done|].
  apply IH; [intros; apply Hstep; auto | apply Hstep; auto].
Qed.

(** What a dictionary filled key by key holds. *)
Lemma okeys_foldl_oset {V} (g : string → V) (ks : list string) (d : odict V)
    (k : string) :
  In k (okeys (foldl (fun d k => oset k (g k) d) d ks))
  ↔ In k (okeys d) ∨ In k ks.
Proof.
  revert d. induction ks as [|k' ks IH]; simpl; intros d; [tauto|].
  rewrite IH, In_okeys_oset. intuition congruence.
Qed.

Lemma oget_foldl_oset_other {V} (g : string → V) (ks : list string)
    (d : odict V) (k : string) :
  ¬ In k ks → oget k (foldl (fun d k => oset k (g k) d) d ks) = oget k d.
Proof.
  revert d. induction ks as [|k' ks IH]; simpl; intros d Hnin; [done|].
  rewrite IH by tauto. apply oget_oset_ne. intros ->. tauto.
Qed.

Lemma oget_foldl_oset {V} (g : string → V) (ks : list string) (d : odict V)
    (k : string) :
  In k ks → oget k (foldl (fun d k => oset k (g k) d) d ks) = Some (g k).
Proof.
  revert d. induction ks as [|k' ks IH]; simpl; intros d; [done|].
  destruct (decide (k ∈ ks)) as [Hin|Hnin];
    [intros _; by apply IH, list_elem_of_In|].
  rewrite list_elem_of_In in Hnin. intros [->|Hin]; [|done].
  rewrite oget_foldl_oset_other by done. apply oget_oset_eq.
Qed.

Lemma store_okeys (row : scan_mapping) (new : value)
    (groups groups' : odict (odict value)) :
  store row new groups = Ok groups' →
  okeys groups' = okeys groups ∧ In (sm_modalities row) (okeys groups).
Proof.
  unfold store, oitem. intros Hrun.
  destruct (oget (sm_modalities row) groups) as [modality|] eqn:Hm;
    simpl in Hrun; [|discriminate].
  injection Hrun as <-. split.
  - by eapply okeys_oset_present.
  - by eapply oget_Some_key.
Qed.

Section ScansShape.
Context `{Collaborators}.

Lemma scan_session_okeys (row : scan_mapping) (file : frame)
    (original_id session : string) (sessions sessions' : odict (odict (odict value))) :
  scan_session row file original_id sessions session = Ok sessions' →
  omap_values okeys sessions' = omap_values okeys sessions
  ∧ ∃ groups, oget session sessions = Some groups
              ∧ In (sm_modalities row) (okeys groups).
Proof.
  unfold scan_session, oitem. intros Hrun. inv_run.
  destruct (oget session sessions) as [groups|] eqn:Hg; [|discriminate].
  simplify_eq.
  match goal with Hs : store _ _ ?g = Ok _ |- _ =>
    apply store_okeys in Hs as [Hk Hin];
    split; [by eapply omap_values_oset_same | by exists g]
  end.
Qed.

Lemma scan_sessions_okeys (row : scan_mapping) (file : frame)
    (original_id : string) (labels : list string)
    (sessions sessions' : odict (odict (odict value))) (session : string) :
  foldR (scan_session row file original_id) labels sessions = Ok sessions' →
  omap_values okeys sessions' = omap_values okeys sessions
  ∧ (In session labels →
     ∃ groups : odict (odict value),
       In (session, okeys groups) (omap_values okeys sessions)
       ∧ In (sm_modalities row) (okeys groups)).
Proof.
  revert sessions. induction labels as [|l labels IH]; simpl; intros sessions Hrun.
  - injection Hrun as <-. by split.
  - apply bindR_Ok in Hrun as (s1 & Hstep & Hrest).
    apply scan_session_okeys in Hstep as (Hk & groups & Hg & Hin).
    destruct (IH s1 Hrest) as [Hk' Hsome].
    split; [congruence|]. intros [<-|Hl].
    + exists groups. split; [|done].
      apply In_omap_values. exists groups. split; [|done].
      by apply oget_Some_In.
    + rewrite <- Hk. by apply Hsome.
Qed.

Lemma scan_subject_skeleton (row : scan_mapping) (file : frame)
    (d d' : scans_dictionary) (bids_id : string) :
  scan_subject row file d bids_id = Ok d' →
  skeleton d' = skeleton d
  ∧ ∀ sessions session,
      oget bids_id (skeleton d) = Some sessions → In session (okeys sessions) →
      ∃ groups, In (session, groups) sessions
                ∧ In (sm_modalities row) groups.
Proof.
  unfold scan_subject, oitem. intros Hrun. inv_run.
  destruct (oget bids_id d) as [sessions|] eqn:Hs; [|discriminate].
  simplify_eq.
  match goal with Hf : foldR _ _ _ = Ok _ |- _ => rename Hf into Hfold end.
  split.
  - unfold skeleton. eapply omap_values_oset_same; [done|].
    by destruct (scan_sessions_okeys _ _ _ _ _ _ "" Hfold) as [? _].
  - intros sessions0 session Hget Hin.
    unfold skeleton in Hget. rewrite oget_omap_values, Hs in Hget.
    injection Hget as <-. rewrite okeys_omap_values in Hin.
    destruct (scan_sessions_okeys _ _ _ _ _ _ session Hfold) as [_ Hsome].
    destruct (Hsome Hin) as (groups & Hg & Hm). by exists (okeys groups).
Qed.

Lemma scan_subjects_skeleton (row : scan_mapping) (file : frame)
    (subjects : list string) (d d' : scans_dictionary) :
  foldR (scan_subject row file) subjects d = Ok d' →
  skeleton d' = skeleton d
  ∧ ∀ subject sessions session,
      In subject subjects →
      oget subject (skeleton d) = Some sessions → In session (okeys sessions) →
      ∃ groups, In (session, groups) sessions
                ∧ In (sm_modalities row) groups.
Proof.
  revert d. induction subjects as [|s subjects IH]; simpl; intros d Hrun.
  - injection Hrun as <-. by split.
  - apply bindR_Ok in Hrun as (d1 & Hstep & Hrest).
    apply scan_subject_skeleton in Hstep as [Hk Hhere].
    destruct (IH d1 Hrest) as [Hk' Hthere].
    split; [congruence|]. intros subject sessions session [<-|Hin] Hget Hses.
    + by apply Hhere.
    + rewrite <- Hk in Hget. by eapply Hthere.
Qed.

Lemma scan_mapping_row_skeleton (clinical_data_dir : clinical_directory)
    (d d' : scans_dictionary) (row : scan_mapping) (w w' : world) :
  scan_mapping_row clinical_data_dir d row w = (Ok d', w') →
  skeleton d' = skeleton d
  ∧ loaded w' = loaded w ++ [sm_location row]
  ∧ searched w' = searched w ∧ warnings w' = warnings w ∧ bids w' = bids w
  ∧ ∀ subject sessions session,
      oget subject (skeleton d) = Some sessions → In session (okeys sessions) →
      ∃ groups, In (session, groups) sessions
                ∧ In (sm_modalities row) groups.
Proof.
  unfold scan_mapping_row. intros Hrun.
  apply bindIO_Ok in Hrun as (file & w1 & Hload & Hrun).
  apply load_effects in Hload as (Hl & Hs & Hw & Hb & _).
  inv_run. unfold scan_row in *.
  match goal with Hf : foldR _ _ _ = Ok _ |- _ =>
    apply scan_subjects_skeleton in Hf as [Hk Hall] end.
  split_and!; try done.
  intros subject sessions session Hget Hin.
  eapply Hall; eauto.
  rewrite <- (okeys_omap_values (omap_values okeys) d).
  by eapply oget_Some_key.
Qed.

Lemma scan_mapping_rows_skeleton (clinical_data_dir : clinical_directory)
    (rows : list scan_mapping) (d d' : scans_dictionary) (w w' : world) :
  foldIO (scan_mapping_row clinical_data_dir) rows d w = (Ok d', w') →
  skeleton d' = skeleton d
  ∧ loaded w' = loaded w ++ map sm_location rows
  ∧ searched w' = searched w ∧ warnings w' = warnings w ∧ bids w' = bids w
  ∧ ∀ row subject sessions session,
      In row rows →
      oget subject (skeleton d) = Some sessions → In session (okeys sessions) →
      ∃ groups, In (session, groups) sessions
                ∧ In (sm_modalities row) groups.
Proof.
  revert d w. induction rows as [|row rows IH]; simpl; intros d w Hrun.
  - apply retIO_Ok in Hrun as [-> ->]. rewrite app_nil_r. by split_and!.
  - apply bindIO_Ok in Hrun as (d1 & w1 & Hstep & Hrest).
    apply scan_mapping_row_skeleton in Hstep
      as (Hk & Hl & Hs & Hw & Hb & Hhere).
    destruct (IH d1 w1 Hrest) as (Hk' & Hl' & Hs' & Hw' & Hb' & Hthere).
    split_and!; try congruence.
    + by rewrite Hl', Hl, <- app_assoc.
    + intros r subject sessions session [<-|Hin] Hget Hses.
      * by eapply Hhere.
      * rewrite <- Hk in Hget. by eapply Hthere.
Qed.

(** The dictionary before any clinical file is read. *)
Lemma init_scans_dict_subjects (t : tree) (subject : string) :
  In subject (okeys (_init_scans_dict t))
  ↔ In subject (rglob_dirs t [] "./sub-AIBL*").
Proof.
  unfold _init_scans_dict.
  rewrite (okeys_foldl_oset
             (fun bids_id =>
                foldl (fun sessions session => oset session empty_groups sessions)
                  [] (rglob_dirs t [bids_id] "ses-M*"))).
  simpl. tauto.
Qed.

Lemma init_scans_dict_sessions (t : tree) (subject : string)
    (sessions : odict (odict (odict value))) :
  oget subject (_init_scans_dict t) = Some sessions →
  sessions = foldl (fun sessions session => oset session empty_groups sessions)
               [] (rglob_dirs t [subject] "ses-M*").
Proof.
  intros Hget.
  assert (Hin : In subject (rglob_dirs t [] "./sub-AIBL*")).
  { apply init_scans_dict_subjects. by eapply oget_Some_key. }
  unfold _init_scans_dict in Hget.
  rewrite (oget_foldl_oset
             (fun bids_id =>
                foldl (fun sessions session => oset session empty_groups sessions)
                  [] (rglob_dirs t [bids_id] "ses-M*"))) in Hget by done.
  by injection Hget as <-.
Qed.

Lemma init_sessions_groups (labels : list string) (session : string)
    (groups : odict (odict value)) :
  In (session, groups)
    (foldl (fun sessions session => oset session empty_groups sessions)
       [] labels) →
  groups = empty_groups.
Proof.
  revert session groups.
  apply (foldl_invariant
           (fun s : odict (odict (odict value)) =>
              ∀ session groups, In (session, groups) s → groups = empty_groups)).
  - intros s x _ Hs session groups Hin.
    apply In_oset in Hin as [[_ ->]|Hin]; [done | by eapply Hs].
  - intros session groups [].
Qed.

(** The subjects of the scans dictionary are the directories that
    [rglob("./sub-AIBL*")] finds, the sessions of a subject those that
    [rglob("ses-M*")] finds under it, and every session has the four
    modality groups: the mapping rows fill the fields of the groups and add
    or remove no subject, session or group. *)
Theorem scans_dictionary_shape (clinical_data_dir : clinical_directory)
    (clinical_specifications_folder : specifications_folder)
    (d : scans_dictionary) (w w' : world) :
  _create_scans_dict clinical_data_dir clinical_specifications_folder w
  = (Ok d, w') →
  skeleton d = skeleton (_init_scans_dict (bids w))
  ∧ (∀ subject, In subject (okeys d)
                ↔ In subject (rglob_dirs (bids w) [] "./sub-AIBL*"))
  ∧ (∀ subject sessions session,
       oget subject d = Some sessions →
       (In session (okeys sessions)
        ↔ In session (rglob_dirs (bids w) [subject] "ses-M*")))
  ∧ (∀ subject sessions session groups,
       oget subject d = Some sessions → oget session sessions = Some groups →
       okeys groups = ["T1/DWI/fMRI/FMAP"; "11CPIB"; "18FAV45"; "18FFMM"]).
Proof.
  unfold _create_scans_dict. intros Hrun.
  apply bindIO_Ok in Hrun as (t & w1 & Hget & Hrun).
  unfold get_bids in Hget. injection Hget as <- <-.
  apply bindIO_Ok in Hrun as (spec & w1 & Hspec & Hrun).
  apply lift_Ok in Hspec as [_ ->].
  apply scan_mapping_rows_skeleton in Hrun as (Hk & _).
  assert (Hsessions : ∀ subject sessions,
    oget subject d = Some sessions →
    ∃ sessions0, oget subject (_init_scans_dict (bids w)) = Some sessions0
                 ∧ omap_values okeys sessions = omap_values okeys sessions0).
  { intros subject sessions Hget.
    assert (Hs : oget subject (skeleton d)
                 = Some (omap_values okeys sessions))
      by (unfold skeleton; by rewrite oget_omap_values, Hget).
    rewrite Hk in Hs. unfold skeleton in Hs. rewrite oget_omap_values in Hs.
    destruct (oget subject (_init_scans_dict (bids w))) as [sessions0|];
      [|discriminate].
    injection Hs as Hs. by exists sessions0. }
  split_and!.
  - done.
  - intros subject. rewrite <- init_scans_dict_subjects.
    rewrite <- (okeys_omap_values (omap_values okeys) d).
    rewrite <- (okeys_omap_values (omap_values okeys) (_init_scans_dict _)).
    fold (skeleton d). fold (skeleton (_init_scans_dict (bids w))).
    by rewrite Hk.
  - intros subject sessions session Hget.
    destruct (Hsessions subject sessions Hget) as (sessions0 & Hget0 & Hs).
    rewrite <- (okeys_omap_values okeys sessions), Hs, okeys_omap_values.
    apply init_scans_dict_sessions in Hget0 as ->.
    rewrite (okeys_foldl_oset (fun _ => empty_groups)). simpl. tauto.
  - intros subject sessions session groups Hget Hg.
    destruct (Hsessions subject sessions Hget) as (sessions0 & Hget0 & Hs).
    assert (Hin : In (session, okeys groups) (omap_values okeys sessions0)).
    { rewrite <- Hs. apply In_omap_values. exists groups.
      split; [by apply oget_Some_In | done]. }
    apply In_omap_values in Hin as (groups0 & Hin & ->).
    apply init_scans_dict_sessions in Hget0 as ->.
    by apply init_sessions_groups in Hin as ->.
Qed.

(** When the tree has a session, the scans dictionary is built only if
    every mapping row names one of the four modality groups: a row with any
    other group makes the builder fail.  The clinical file of every mapping
    row is read once, in the order of the rows, and nothing is written. *)
Theorem scans_rows_name_groups (clinical_data_dir : clinical_directory)
    (clinical_specifications_folder : specifications_folder)
    (spec : list spec_line) (d : scans_dictionary) (w w' : world)
    (subject session : string) :
  clinical_specifications_folder "scans.tsv" = Some spec →
  _create_scans_dict clinical_data_dir clinical_specifications_folder w
  = (Ok d, w') →
  (In subject (rglob_dirs (bids w) [] "./sub-AIBL*") →
   In session (rglob_dirs (bids w) [subject] "ses-M*") →
   ∀ row, In row (dropna4 spec) →
          In (sm_modalities row)
            ["T1/DWI/fMRI/FMAP"; "11CPIB"; "18FAV45"; "18FFMM"])
  ∧ loaded w' = loaded w ++ map sm_location (dropna4 spec)
  ∧ warnings w' = warnings w ∧ bids w' = bids w.
Proof.
  intros Hspec Hrun. unfold _create_scans_dict in Hrun.
  apply bindIO_Ok in Hrun as (t & w1 & Hget & Hrun).
  unfold get_bids in Hget. injection Hget as <- <-.
  apply bindIO_Ok in Hrun as (spec' & w1 & Hload & Hrun).
  apply lift_Ok in Hload as [Hload ->].
  unfold _load_specifications in Hload. rewrite Hspec in Hload.
  injection Hload as <-.
  apply scan_mapping_rows_skeleton in Hrun as (_ & Hl & _ & Hw & Hb & Hall).
  split_and!; try done.
  intros Hsubject Hsession row Hrow.
  apply init_scans_dict_subjects in Hsubject.
  apply okeys_is_Some in Hsubject as [sessions0 Hget0].
  pose proof (init_scans_dict_sessions _ _ _ Hget0) as Hs0.
  destruct (Hall row subject (omap_values okeys sessions0) session Hrow)
    as (groups & Hin & Hm).
  - unfold skeleton. by rewrite oget_omap_values, Hget0.
  - rewrite okeys_omap_values, Hs0.
    rewrite (okeys_foldl_oset (fun _ => empty_groups)). by right.
  - apply In_omap_values in Hin as (groups0 & Hin & ->).
    rewrite Hs0 in Hin. by apply init_sessions_groups in Hin as ->.
Qed.

End ScansShape.

Lemma scans_dictionary_shape_witness :
  ∃ d w',
    @_create_scans_dict sample_collaborators sample_clinical_dir
      sample_scans_folder sample_world = (Ok d, w')
    ∧ skeleton d
      = [ ("sub-AIBL12", [("ses-M000", okeys empty_groups)]);
          ("sub-AIBL15", [("ses-M000", okeys empty_groups);
                          ("ses-M018", okeys empty_groups)]) ]
    ∧ slot d "sub-AIBL12" "ses-M000" "T1/DWI/fMRI/FMAP" "acq_time"
      = Some (VStr "2010-06-15T00:00:00")
    ∧ skeleton d = skeleton (@_init_scans_dict sample_collaborators
                               (bids sample_world)).
Proof.
  eexists _, _. split; [vm_compute; reflexivity|].
  split; [reflexivity|]. split; [reflexivity|].
  refine (proj1 (@scans_dictionary_shape sample_collaborators
                   sample_clinical_dir sample_scans_folder _ sample_world _ _)).
  vm_compute. reflexivity.
Defined.

Lemma scans_rows_name_groups_witness :
  ∃ d w',
    @_create_scans_dict sample_collaborators sample_clinical_dir
      sample_scans_folder sample_world = (Ok d, w')
    ∧ loaded w' = ["aibl_mri3meta_*.csv"; "aibl_mrimeta_*.csv"]
    ∧ (∀ row, In row (dropna4 sample_scans_lines) →
              In (sm_modalities row)
                ["T1/DWI/fMRI/FMAP"; "11CPIB"; "18FAV45"; "18FFMM"])
    ∧ loaded w' = loaded sample_world
                  ++ map sm_location (dropna4 sample_scans_lines).
Proof.
  eexists _, _. split; [vm_compute; reflexivity|]. split; [reflexivity|].
  destruct (@scans_rows_name_groups sample_collaborators sample_clinical_dir
              sample_scans_folder sample_scans_lines _ sample_world _
              "sub-AIBL12" "ses-M000" eq_refl
              ltac:(vm_compute; reflexivity))
    as (Hrows & Hloaded & _).
  split; [|exact Hloaded].
  apply Hrows; vm_compute; tauto.
Defined.

(** ** The value looked up for a session *)


Section UniqueMatch.
Context `{Collaborators}.


End UniqueMatch.


(** ** The acquisition time *)

Lemma chars_app (a b : string) : chars (a +:+ b) = chars a ++ chars b.
Proof. induction a as [|c a IH]; simpl; [done | by rewrite IH]. Qed.

Lemma digit_val_range (a : ascii) : is_digit a = true → 0 ≤ digit_val a ≤ 9.
Proof.
  destruct a as [[] [] [] [] [] [] [] []]; try discriminate;
    intros _; vm_compute; split; discriminate.
Qed.

Lemma parse_Y_range (cs : list ascii) (n : Z) :
  parse_Y cs = Some n → 0 ≤ n ≤ 9999.
Proof.
  unfold parse_Y. destruct cs as [|a [|b [|c [|d [|]]]]]; try discriminate.
  destruct (forallb is_digit [a; b; c; d]) eqn:Hd; [|discriminate].
  intros [= <-]. simpl in Hd.
  apply andb_true_iff in Hd as [Ha Hd]. apply andb_true_iff in Hd as [Hb Hd].
  apply andb_true_iff in Hd as [Hc Hd]. apply andb_true_iff in Hd as [Hd _].
  apply digit_val_range in Ha, Hb, Hc, Hd.
  unfold number. cbn [foldl]. lia.
Qed.

Lemma parse_m_range (cs : list ascii) (n : Z) :
  parse_m cs = Some n → 1 ≤ n ≤ 12.
Proof.
  unfold parse_m. destruct cs as [|a [|b [|]]]; try discriminate.
  - destruct (forallb is_digit [a]); simpl; [|discriminate].
    destruct (Z.leb_spec 1 (number [a])); simpl; [|discriminate].
    destruct (Z.leb_spec (number [a]) 12); [|discriminate].
    intros [= <-]. lia.
  - destruct (forallb is_digit [a; b]); simpl; [|discriminate].
    destruct (Z.leb_spec 1 (number [a; b])); simpl; [|discriminate].
    destruct (Z.leb_spec (number [a; b]) 12); [|discriminate].
    intros [= <-]. lia.
Qed.

Lemma parse_d_range (cs : list ascii) (n : Z) :
  parse_d cs = Some n → 1 ≤ n ≤ 31.
Proof.
  unfold parse_d. destruct cs as [|a [|b [|]]]; try discriminate.
  - destruct (is_digit a) eqn:Ha; simpl; [|discriminate].
    destruct (Z.leb_spec 1 (digit_val a)); [|discriminate].
    intros [= <-]. apply digit_val_range in Ha. lia.
  - destruct (Ascii.eqb a " ").
    + destruct (is_digit b) eqn:Hb; simpl; [|discriminate].
      destruct (Z.leb_spec 1 (digit_val b)); [|discriminate].
      intros [= <-]. apply digit_val_range in Hb. lia.
    + destruct (forallb is_digit [a; b]); simpl; [|discriminate].
      destruct (Z.leb_spec 1 (number [a; b])); simpl; [|discriminate].
      destruct (Z.leb_spec (number [a; b]) 31); [|discriminate].
      intros [= <-]. lia.
Qed.

Lemma strptime_mdY_range (c : cell) (d : date) :
  strptime_mdY c = Ok d →
  1 ≤ year d ≤ 9999 ∧ 1 ≤ month d ≤ 12 ∧ 1 ≤ day d ≤ 31.
Proof.
  unfold strptime_mdY. destruct c as [[z|s|]|]; try discriminate.
  destruct (split_slash (chars s)) as [|m [|dd [|y [|]]]]; try discriminate.
  destruct (parse_m m) as [m'|] eqn:Hm; [|discriminate].
  destruct (parse_d dd) as [d'|] eqn:Hd; [|discriminate].
  destruct (parse_Y y) as [y'|] eqn:Hy; [|discriminate].
  destruct (Z.leb_spec 1 y'); simpl; [|discriminate].
  destruct (d' <=? days_in_month y' m'); [|discriminate].
  intros [= <-]. simpl.
  apply parse_m_range in Hm. apply parse_d_range in Hd.
  apply parse_Y_range in Hy. lia.
Qed.

(** The padded numbers read back, checked over their whole range. *)
Lemma pad4_read (y : Z) :
  1 ≤ y ≤ 9999 →
  length (chars (pad4 y)) = 4%nat ∧ parse_Y (chars (pad4 y)) = Some y.
Proof.
  intros Hy.
  assert (Hall : forallb
                   (fun y => bool_decide
                               (length (chars (pad4 y)) = 4%nat
                                ∧ parse_Y (chars (pad4 y)) = Some y))
                   (seqZ 1 9999) = true) by (vm_compute; reflexivity).
  rewrite forallb_forall in Hall. specialize (Hall y).
  apply bool_decide_eq_true in Hall; [done|].
  apply list_elem_of_In, elem_of_seqZ. lia.
Qed.

Lemma pad2_read (n : Z) :
  1 ≤ n ≤ 31 →
  length (chars (pad2 n)) = 2%nat
  ∧ parse_d (chars (pad2 n)) = Some n
  ∧ (n ≤ 12 → parse_m (chars (pad2 n)) = Some n).
Proof.
  intros Hn.
  assert (Hall : forallb
                   (fun n => bool_decide
                               (length (chars (pad2 n)) = 2%nat
                                ∧ parse_d (chars (pad2 n)) = Some n
                                ∧ (n ≤ 12 → parse_m (chars (pad2 n)) = Some n)))
                   (seqZ 1 31) = true) by (vm_compute; reflexivity).
  rewrite forallb_forall in Hall. specialize (Hall n).
  apply bool_decide_eq_true in Hall; [done|].
  apply list_elem_of_In, elem_of_seqZ. lia.
Qed.

(** The time written for a scan is the date that was read: for a year of
    four digits, the formatted string is made of four digits that read back
    as the year, two that read back as the month and two that read back as
    the day, separated by hyphens and followed by midnight. *)
Theorem format_time_round_trip (time : value) (s : string) :
  _format_time time = Ok s →
  ∃ d, strptime_mdY (Some time) = Ok d
       ∧ (1000 ≤ year d →
          ∃ ys ms ds,
            chars s = ys ++ "-"%char :: ms ++ "-"%char :: ds
                      ++ chars "T00:00:00"
            ∧ length ys = 4%nat ∧ length ms = 2%nat ∧ length ds = 2%nat
            ∧ parse_Y ys = Some (year d)
            ∧ parse_m ms = Some (month d)
            ∧ parse_d ds = Some (day d)).
Proof.
  unfold _format_time. intros Hrun.
  apply bindR_Ok in Hrun as (d & Hparse & [= <-]).
  exists d. split; [done|]. intros _.
  destruct (strptime_mdY_range _ _ Hparse) as (Hy & Hm & Hd).
  destruct (pad4_read (year d) Hy) as [Hly Hry].
  destruct (pad2_read (month d) ltac:(lia)) as (Hlm & _ & Hrm).
  destruct (pad2_read (day d) Hd) as (Hld & Hrd & _).
  exists (chars (pad4 (year d))), (chars (pad2 (month d))),
    (chars (pad2 (day d))).
  split_and!; try done; [|apply Hrm; lia].
  unfold strftime_iso. by rewrite !chars_app.
Qed.

Lemma format_time_round_trip_witness :
  _format_time (VStr "08/09/2010") = Ok "2010-08-09T00:00:00"
  ∧ ∃ d, strptime_mdY (Some (VStr "08/09/2010")) = Ok d
         ∧ year d = 2010 ∧ month d = 8 ∧ day d = 9
         ∧ ∃ ys ms ds,
             chars "2010-08-09T00:00:00"
             = ys ++ "-"%char :: ms ++ "-"%char :: ds ++ chars "T00:00:00"
             ∧ length ys = 4%nat ∧ length ms = 2%nat ∧ length ds = 2%nat
             ∧ parse_Y ys = Some (year d)
             ∧ parse_m ms = Some (month d)
             ∧ parse_d ds = Some (day d).
Proof.
  split; [vm_compute; reflexivity|].
  destruct (format_time_round_trip (VStr "08/09/2010") "2010-08-09T00:00:00"
              ltac:(vm_compute; reflexivity)) as (d & Hparse & Hread).
  exists d. split; [exact Hparse|].
  assert (Hd : d = {| year := 2010; month := 8; day := 9 |}).
  { vm_compute in Hparse. by injection Hparse as <-. }
  split; [by rewrite Hd|]. split; [by rewrite Hd|]. split; [by rewrite Hd|].
  apply Hread. rewrite Hd. vm_compute. discriminate.
Defined.

(** ** The rows of a scans file *)






Section ScansRows.
Context `{Collaborators}.




End ScansRows.


(** ** Lines with too many fields *)

(** The handler of the malformed flutemeta lines raises [IndexError] on a
    line of fewer than three fields and returns on every other line; the
    line it repairs comes back one field shorter, with "-4" before its last
    field and everything before the two collapsed fields as it was. *)
Theorem flutemeta_handler_shape (line : list string) :
  ((length line < 3)%nat → _handle_flutemeta_badline line = Raise IndexError)
  ∧ ((3 ≤ length line)%nat → ∃ r, _handle_flutemeta_badline line = Ok r)
  ∧ (∀ repaired,
       _handle_flutemeta_badline line = Ok (Some repaired) →
       length repaired = (length line - 1)%nat
       ∧ take (length line - 3) repaired = take (length line - 3) line
       ∧ repaired !! (length line - 3)%nat = Some "-4"
       ∧ repaired !! (length line - 2)%nat = line !! (length line - 1)%nat).
Proof.
  unfold _handle_flutemeta_badline, neg_index. split_and!.
  - intros Hlen. apply Nat.ltb_lt in Hlen. by rewrite Hlen.
  - intros Hlen.
    assert (H3 : (length line <? 3)%nat = false) by (apply Nat.ltb_ge; lia).
    assert (H2 : (length line <? 2)%nat = false) by (apply Nat.ltb_ge; lia).
    assert (H1 : (length line <? 1)%nat = false) by (apply Nat.ltb_ge; lia).
    rewrite H3, H2, H1.
    destruct (lookup_lt_is_Some_2 line (length line - 3)%nat ltac:(lia))
      as [a ->].
    destruct (lookup_lt_is_Some_2 line (length line - 2)%nat ltac:(lia))
      as [b ->].
    destruct (lookup_lt_is_Some_2 line (length line - 1)%nat ltac:(lia))
      as [c ->].
    simpl. destruct (String.eqb a "measured"); [|by eexists].
    destruct (String.eqb b _); by eexists.
  - intros repaired Hrun.
    destruct (length line <? 3)%nat eqn:H3; [discriminate|].
    apply Nat.ltb_ge in H3.
    destruct (line !! (length line - 3)%nat) as [a|]; [|discriminate].
    simpl in Hrun. destruct (String.eqb a "measured"); [|discriminate].
    destruct (length line <? 2)%nat; [discriminate|].
    destruct (line !! (length line - 2)%nat) as [b|]; [|discriminate].
    simpl in Hrun. destruct (String.eqb b _); [|discriminate].
    destruct (length line <? 1)%nat; [discriminate|].
    destruct (line !! (length line - 1)%nat) as [c|] eqn:Hc; [|discriminate].
    simpl in Hrun. injection Hrun as <-.
    assert (Htake : length (take (length line - 3) line)
                    = (length line - 3)%nat) by (rewrite length_take; lia).
    split_and!.
    + rewrite length_app, Htake. simpl. lia.
    + by rewrite take_app_length'.
    + rewrite lookup_app_r by lia. rewrite Htake, Nat.sub_diag. done.
    + rewrite lookup_app_r by lia. rewrite Htake.
      replace (length line - 2 - (length line - 3))%nat with 1%nat by lia.
      done.
Qed.

Lemma flutemeta_handler_shape_witness :
  _handle_flutemeta_badline ["618"; "measured"] = Raise IndexError
  ∧ ∃ repaired,
      _handle_flutemeta_badline
        ["618"; "m18"; "1"; "measured"; "AUSTIN AC CT Brain  H19s"; "0"]
      = Ok (Some repaired)
      ∧ repaired = ["618"; "m18"; "1"; "-4"; "0"]
      ∧ length repaired = 5%nat.
Proof.
  split.
  - apply (proj1 (flutemeta_handler_shape ["618"; "measured"])). simpl. lia.
  - eexists. split; [reflexivity|]. split; [reflexivity|].
    exact (proj1 (proj2 (proj2 (flutemeta_handler_shape
             ["618"; "m18"; "1"; "measured"; "AUSTIN AC CT Brain  H19s"; "0"]))
             _ eq_refl)).
Defined.



Section Policy.
Context `{Collaborators}.


End Policy.

